(** * The cube transformation engine of game.js

    A shallow embedding of the [RubiksCube] class, of the session fields of
    the global [state] object, and of the drag interpreter [onMouseMove].

    Numbers.  JavaScript numbers are modelled by exact rationals ([Q]) and,
    where the code only ever stores integers (grid coordinates, layer
    indexes, directions, counters, colour codes), by [Z].  Arithmetic is
    exact: the rotation of the rotation group by [(Math.PI / 2) * direction]
    is the exact quarter turn.  On a cube of odd size every quotient
    [position / cubeSize] is an integer, [Math.round] absorbs the rounding
    error of the floating point rotation, and the model agrees with the
    program; on a cube of even size the coordinate along the turning axis is
    computed exactly by the program as well (the rotation matrix has an exact
    1 there), the other two sit on a rounding tie.  Comparisons with the
    tolerance of [getCubiesInLayer] are decided exactly here; the
    properties keep a margin to it wherever rounding could decide
    otherwise.

    Scene graph.  Of three.js only what the engine reads back is kept: the
    position and quaternion of a mesh, its six materials, [userData], and the
    Euler rotation of the rotation group.  Rendering, the DOM and the wall
    clock are not modelled. *)

From Stdlib Require Import ZArith QArith Qround Qabs List String Bool Lia Lqa.
From Stdlib Require Import Finite.
From Stdlib Require DecimalString DecimalZ.
Import ListNotations.
Open Scope Z_scope.

(** ** Numbers *)

Definition Math_round (q : Q) : Z := Qfloor (q + (1 # 2)).
Definition Math_floor (q : Q) : Z := Qfloor q.
Definition Math_abs (q : Q) : Q := Qabs q.
Definition Math_max (a b : Z) : Z := Z.max a b.

(** [a < b] and [a > b] on numbers. *)
Definition Qltb (a b : Q) : bool := negb (Qle_bool b a).
Definition Qgtb (a b : Q) : bool := Qltb b a.

(** ** three.js values *)

Module Quaternion.
Record t : Set := mk { x : Q; y : Q; z : Q; w : Q }.
Definition identity : t := mk 0 0 0 1.
End Quaternion.

Module Vector3.
Record t : Set := mk { x : Q; y : Q; z : Q }.

Definition dot (a b : t) : Q := (x a * x b + y a * y b + z a * z b)%Q.

(** [v.applyQuaternion(q)], for a quaternion of unit length. *)
Definition applyQuaternion (v : t) (q : Quaternion.t) : t :=
  let '(vx, vy, vz) := (x v, y v, z v) in
  let '(qx, qy, qz, qw) :=
    (Quaternion.x q, Quaternion.y q, Quaternion.z q, Quaternion.w q) in
  let tx := (2 * (qy * vz - qz * vy))%Q in
  let ty := (2 * (qz * vx - qx * vz))%Q in
  let tz := (2 * (qx * vy - qy * vx))%Q in
  mk (vx + qw * tx + qy * tz - qz * ty)
     (vy + qw * ty + qz * tx - qx * tz)
     (vz + qw * tz + qx * ty - qy * tx).
End Vector3.

(** Angles are kept in units of [Math.PI / 2]: the engine only ever sets the
    rotation group to [(Math.PI / 2) * direction]. *)
Definition quarter_cos (k : Z) : Q :=
  match k mod 4 with 0 => 1%Q | 2 => (-1)%Q | _ => 0%Q end.
Definition quarter_sin (k : Z) : Q :=
  match k mod 4 with 1 => 1%Q | 3 => (-1)%Q | _ => 0%Q end.

Module Euler.
(** [rotationGroup.rotation], order XYZ. *)
Record t : Set := mk { x : Z; y : Z; z : Z }.
Definition zero : t := mk 0 0 0.

Definition rotX (a : Z) (v : Vector3.t) : Vector3.t :=
  let '(c, s) := (quarter_cos a, quarter_sin a) in
  Vector3.mk (Vector3.x v)
             (Vector3.y v * c - Vector3.z v * s)
             (Vector3.y v * s + Vector3.z v * c).
Definition rotY (b : Z) (v : Vector3.t) : Vector3.t :=
  let '(c, s) := (quarter_cos b, quarter_sin b) in
  Vector3.mk (Vector3.x v * c + Vector3.z v * s)
             (Vector3.y v)
             (Vector3.z v * c - Vector3.x v * s).
Definition rotZ (g : Z) (v : Vector3.t) : Vector3.t :=
  let '(c, s) := (quarter_cos g, quarter_sin g) in
  Vector3.mk (Vector3.x v * c - Vector3.y v * s)
             (Vector3.x v * s + Vector3.y v * c)
             (Vector3.z v).

(** The matrix of an XYZ Euler rotation is [Rx * Ry * Rz]. *)
Definition apply (e : t) (v : Vector3.t) : Vector3.t :=
  rotX (x e) (rotY (y e) (rotZ (z e) v)).
End Euler.

(** ** Colours and materials *)

Definition COLORS_white : Z := 0xffffff.
Definition COLORS_yellow : Z := 0xffd500.
Definition COLORS_red : Z := 0xc41e3a.
Definition COLORS_orange : Z := 0xff5800.
Definition COLORS_blue : Z := 0x0051ba.
Definition COLORS_green : Z := 0x009e60.
Definition COLORS_black : Z := 0x111111.
Definition COLORS_gray : Z := 0x333333.

Inductive Material : Set :=
| MeshLambertMaterial (color : Z)
| MeshPhongMaterial (color shininess specular : Z).

Definition getHex (m : Material) : Z :=
  match m with
  | MeshLambertMaterial c => c
  | MeshPhongMaterial c _ _ => c
  end.

(** ** Pieces *)

Module UserData.
Record t : Set :=
  mk { x : Z; y : Z; z : Z; origX : Z; origY : Z; origZ : Z }.
End UserData.

Record Cubie : Set := mkCubie {
  position : Vector3.t;
  quaternion : Quaternion.t;
  material : list Material;
  userData : UserData.t
}.

Record RubiksCube : Set := mkCube {
  size : Z;
  cubeSize : Q;
  cubies : list Cubie;
  rotationGroup_rotation : Euler.t
}.

(** [(this.size - 1) / 2] *)
Definition offset_of (size : Z) : Q := ((inject_Z size - 1) / 2)%Q.

Definition getFaceMaterial (color : option Z) : Material :=
  match color with
  | None => MeshLambertMaterial COLORS_black
  | Some c => MeshPhongMaterial c 30 0x444444
  end.

Definition createCubie (size : Z) (cubeSize : Q) (x y z : Z) (offset : Q)
  : Cubie :=
  let materials :=
    [ getFaceMaterial (if x =? size - 1 then Some COLORS_red else None);
      getFaceMaterial (if x =? 0 then Some COLORS_orange else None);
      getFaceMaterial (if y =? size - 1 then Some COLORS_white else None);
      getFaceMaterial (if y =? 0 then Some COLORS_yellow else None);
      getFaceMaterial (if z =? size - 1 then Some COLORS_blue else None);
      getFaceMaterial (if z =? 0 then Some COLORS_green else None) ] in
  mkCubie
    (Vector3.mk ((inject_Z x - offset) * cubeSize)
                ((inject_Z y - offset) * cubeSize)
                ((inject_Z z - offset) * cubeSize))
    Quaternion.identity
    materials
    (UserData.mk x y z x y z).

(** The values [0, 1, ..., n-1] of a counting loop. *)
Definition range (n : Z) : list Z := map Z.of_nat (seq 0 (Z.to_nat n)).

Definition on_surface (size x y z : Z) : bool :=
  (x =? 0) || (x =? size - 1) ||
  (y =? 0) || (y =? size - 1) ||
  (z =? 0) || (z =? size - 1).

Definition createCube (size : Z) (cubeSize : Q) : list Cubie :=
  let offset := offset_of size in
  flat_map (fun x =>
    flat_map (fun y =>
      flat_map (fun z =>
        if on_surface size x y z
        then [createCubie size cubeSize x y z offset]
        else [])
      (range size))
    (range size))
  (range size).

(** [new RubiksCube(size)] *)
Definition new_RubiksCube (size : Z) : RubiksCube :=
  let cubeSize := if 10 <? size then (10 / inject_Z size)%Q else 1%Q in
  mkCube size cubeSize (createCube size cubeSize) Euler.zero.

(** ** The session: the fields of the global [state] the engine uses *)

(** An entry of [state.moveQueue]: [{ axis, layer, direction }]. *)
Module Move.
Record t : Set := mk { axis : string; layer : Z; direction : Z }.
End Move.

(** What an animated [rotate] holds across its [await]: the closure of the
    call ([axis], [direction], the pieces picked at its start) and the
    [startRotation] read by [animateRotation]. *)
Record Suspended : Set := mkSuspended {
  sus_axis : string;
  sus_direction : Z;
  sus_cubiesInLayer : list nat;
  sus_startRotation : Z
}.

(** A raycaster hit on a face of a piece: the local normal of the hit face
    and the hit mesh, as its index in [cubies].  The index stands for the
    mesh for as long as the mesh is a piece of the cube, that is until the
    next [reset]; a hit on the edge lines of a piece, which has no face, is
    not a value of this type. *)
Record Intersection : Set := mkHit { face_normal : Vector3.t; object : nat }.

Record MouseEvent : Set := mkEvent { button : Z; clientX : Q; clientY : Q }.

Module State.
Record t : Set := mk {
  currentPuzzle : RubiksCube;
  isAnimating : bool;
  moveQueue : list Move.t;
  moves : Z;
  isTimerRunning : bool;
  timerInterval : bool;
  isSolved : bool;
  isDragging : bool;
  dragStart : option (Q * Q);
  selectedFace : option Intersection;
  awaiting : option Suspended
}.

Definition set_currentPuzzle (v : RubiksCube) (s : t) : t :=
  mk v (isAnimating s) (moveQueue s) (moves s) (isTimerRunning s)
     (timerInterval s) (isSolved s) (isDragging s) (dragStart s)
     (selectedFace s) (awaiting s).
Definition set_isAnimating (v : bool) (s : t) : t :=
  mk (currentPuzzle s) v (moveQueue s) (moves s) (isTimerRunning s)
     (timerInterval s) (isSolved s) (isDragging s) (dragStart s)
     (selectedFace s) (awaiting s).
Definition set_moveQueue (v : list Move.t) (s : t) : t :=
  mk (currentPuzzle s) (isAnimating s) v (moves s) (isTimerRunning s)
     (timerInterval s) (isSolved s) (isDragging s) (dragStart s)
     (selectedFace s) (awaiting s).
Definition set_moves (v : Z) (s : t) : t :=
  mk (currentPuzzle s) (isAnimating s) (moveQueue s) v (isTimerRunning s)
     (timerInterval s) (isSolved s) (isDragging s) (dragStart s)
     (selectedFace s) (awaiting s).
Definition set_timer (running interval : bool) (s : t) : t :=
  mk (currentPuzzle s) (isAnimating s) (moveQueue s) (moves s) running
     interval (isSolved s) (isDragging s) (dragStart s)
     (selectedFace s) (awaiting s).
Definition set_isSolved (v : bool) (s : t) : t :=
  mk (currentPuzzle s) (isAnimating s) (moveQueue s) (moves s)
     (isTimerRunning s) (timerInterval s) v (isDragging s) (dragStart s)
     (selectedFace s) (awaiting s).
Definition set_drag (dragging : bool) (face : option Intersection) (s : t)
  : t :=
  mk (currentPuzzle s) (isAnimating s) (moveQueue s) (moves s)
     (isTimerRunning s) (timerInterval s) (isSolved s) dragging
     (dragStart s) face (awaiting s).
Definition set_dragStart (v : option (Q * Q)) (s : t) : t :=
  mk (currentPuzzle s) (isAnimating s) (moveQueue s) (moves s)
     (isTimerRunning s) (timerInterval s) (isSolved s) (isDragging s)
     v (selectedFace s) (awaiting s).
Definition set_awaiting (v : option Suspended) (s : t) : t :=
  mk (currentPuzzle s) (isAnimating s) (moveQueue s) (moves s)
     (isTimerRunning s) (timerInterval s) (isSolved s) (isDragging s)
     (dragStart s) (selectedFace s) v.
End State.

(** The state right after [createPuzzle('cube', size)] on a fresh page. *)
Definition initial_state (size : Z) : State.t :=
  State.mk (new_RubiksCube size) false [] 0 false false true
           false None None None.

(** ** Timer *)

Definition startTimer (s : State.t) : State.t := State.set_timer true true s.
Definition stopTimer (s : State.t) : State.t := State.set_timer false false s.

(** ** Layer selection *)

Definition layer_threshold : Q := 1 # 100.

(** The predicate of the [filter] in [getCubiesInLayer].  Numbers are exact
    rationals here and binary64 in the browser: the two tests agree unless
    the exact distance lies within rounding of the threshold, so the
    properties below keep a margin to it. *)
Definition inLayer (this : RubiksCube) (axis : string) (layer : Z)
  (cubie : Cubie) : bool :=
  let offset := offset_of (size this) in
  let pos := position cubie in
  let layerPos := ((inject_Z layer - offset) * cubeSize this)%Q in
  if (axis =? "x")%string then
    Qltb (Math_abs (Vector3.x pos - layerPos)) layer_threshold
  else if (axis =? "y")%string then
    Qltb (Math_abs (Vector3.y pos - layerPos)) layer_threshold
  else if (axis =? "z")%string then
    Qltb (Math_abs (Vector3.z pos - layerPos)) layer_threshold
  else false.

(** Indexes of the elements of [l], from [i] on, that satisfy [p]. *)
Fixpoint filter_indexes {A : Type} (p : A -> bool) (i : nat) (l : list A)
  : list nat :=
  match l with
  | [] => []
  | a :: l' =>
      if p a then i :: filter_indexes p (S i) l'
      else filter_indexes p (S i) l'
  end.

(** [getCubiesInLayer]: the selected meshes, as indexes into [cubies] (the
    JavaScript array holds references to the same objects). *)
Definition getCubiesInLayer (this : RubiksCube) (axis : string) (layer : Z)
  : list nat :=
  filter_indexes (inLayer this axis layer) 0%nat (cubies this).

(** ** The quarter turn *)

Definition Euler_get (axis : string) (e : Euler.t) : Z :=
  if (axis =? "x")%string then Euler.x e
  else if (axis =? "y")%string then Euler.y e
  else if (axis =? "z")%string then Euler.z e
  else 0.

(** [rotation[axis] = angle], for the three angles of the rotation.  For
    any other property name the angles are left as they are; what such an
    assignment does to the rotation object itself (a name of one of its
    methods replaces the method) is outside this model, and the properties
    below state the end of a turn for the axes x, y and z only. *)
Definition Euler_set (axis : string) (angle : Z) (e : Euler.t) : Euler.t :=
  if (axis =? "x")%string then Euler.mk angle (Euler.y e) (Euler.z e)
  else if (axis =? "y")%string then Euler.mk (Euler.x e) angle (Euler.z e)
  else if (axis =? "z")%string then Euler.mk (Euler.x e) (Euler.y e) angle
  else e.

Definition set_rotation (e : Euler.t) (this : RubiksCube) : RubiksCube :=
  mkCube (size this) (cubeSize this) (cubies this) e.
Definition set_cubies (cs : list Cubie) (this : RubiksCube) : RubiksCube :=
  mkCube (size this) (cubeSize this) cs (rotationGroup_rotation this).

Definition applyRotation (this : RubiksCube) (axis : string) (angle : Z)
  : RubiksCube :=
  set_rotation (Euler_set axis angle (rotationGroup_rotation this)) this.

(** [cubie.getWorldPosition] of a mesh parented to the rotation group, the
    quarter turn taken exactly.  On a cube of even size the coordinates
    across the axis of the turn land on ties of [Math.round], which the
    rounding of the matrix decides in the browser; along the axis of the
    turn, and on cubes of odd size, nothing depends on it. *)
Definition getWorldPosition (this : RubiksCube) (cubie : Cubie) : Vector3.t :=
  Euler.apply (rotationGroup_rotation this) (position cubie).

Definition updateCubiePosition (this : RubiksCube) (cubie : Cubie)
  (axis : string) (direction : Z) : Cubie :=
  let offset := offset_of (size this) in
  let cs := cubeSize this in
  let p := position cubie in
  let px := (inject_Z (Math_round (Vector3.x p / cs)) * cs)%Q in
  let py := (inject_Z (Math_round (Vector3.y p / cs)) * cs)%Q in
  let pz := (inject_Z (Math_round (Vector3.z p / cs)) * cs)%Q in
  let u := userData cubie in
  mkCubie (Vector3.mk px py pz) (quaternion cubie) (material cubie)
    (UserData.mk (Math_round (px / cs + offset))
                 (Math_round (py / cs + offset))
                 (Math_round (pz / cs + offset))
                 (UserData.origX u) (UserData.origY u) (UserData.origZ u)).

(** The body of the second [forEach] of [rotate] for one mesh: its position
    becomes its world position, then [updateCubiePosition].  The quaternion
    of the mesh is not written. *)
Definition moveBack (this : RubiksCube) (axis : string) (direction : Z)
  (cubie : Cubie) : Cubie :=
  let worldPos := getWorldPosition this cubie in
  updateCubiePosition this
    (mkCubie worldPos (quaternion cubie) (material cubie) (userData cubie))
    axis direction.

Fixpoint update_nth {A : Type} (i : nat) (f : A -> A) (l : list A) : list A :=
  match l, i with
  | [], _ => []
  | a :: l', O => f a :: l'
  | a :: l', S i' => a :: update_nth i' f l'
  end.

Definition moveBackAll (this : RubiksCube) (axis : string) (direction : Z)
  (cubiesInLayer : list nat) : list Cubie :=
  fold_left (fun cs i => update_nth i (moveBack this axis direction) cs)
            cubiesInLayer (cubies this).

(** ** Solved check *)

Definition localNormal (faceIndex : nat) : Vector3.t :=
  match faceIndex with
  | 0%nat => Vector3.mk 1 0 0
  | 1%nat => Vector3.mk (-1) 0 0
  | 2%nat => Vector3.mk 0 1 0
  | 3%nat => Vector3.mk 0 (-1) 0
  | 4%nat => Vector3.mk 0 0 1
  | 5%nat => Vector3.mk 0 0 (-1)
  | _ => Vector3.mk 0 0 0
  end.

(** The array [axes] of [getFaceColor]. *)
Definition face_axes : list (Vector3.t * nat) :=
  [ (Vector3.mk 1 0 0, 0%nat); (Vector3.mk (-1) 0 0, 1%nat);
    (Vector3.mk 0 1 0, 2%nat); (Vector3.mk 0 (-1) 0, 3%nat);
    (Vector3.mk 0 0 1, 4%nat); (Vector3.mk 0 0 (-1), 5%nat) ].

(** [dot > maxDot], where [None] is [-Infinity]. *)
Definition exceeds (dot : Q) (maxDot : option Q) : bool :=
  match maxDot with
  | None => true
  | Some m => Qgtb dot m
  end.

(** The callback of [axes.forEach]: [acc] holds [maxDot] and [bestIndex]. *)
Definition nearer (v : Vector3.t) (acc : option Q * nat)
  (entry : Vector3.t * nat) : option Q * nat :=
  let dot := Vector3.dot v (fst entry) in
  if exceeds dot (fst acc) then (Some dot, snd entry) else acc.

(** The [bestIndex] the loop ends with. *)
Definition bestIndex_of (v : Vector3.t) (axes : list (Vector3.t * nat))
  : nat :=
  snd (fold_left (nearer v) axes (None, 0%nat)).

(** [cubie.material] always has the six entries [createCubie] gave it. *)
Definition getFaceColor (cubie : Cubie) (faceIndex : nat) : Z :=
  let worldNormal :=
    Vector3.applyQuaternion (localNormal faceIndex) (quaternion cubie) in
  let bestIndex := bestIndex_of worldNormal face_axes in
  getHex (nth bestIndex (material cubie) (MeshLambertMaterial COLORS_black)).

(** The colours pushed to one entry of [faces]: those of the pieces whose
    [userData] passes the test of that face, in the order of [cubies]. *)
Definition collect (this : RubiksCube) (test : UserData.t -> bool)
  (faceIndex : nat) : list Z :=
  map (fun cubie => getFaceColor cubie faceIndex)
      (filter (fun cubie => test (userData cubie)) (cubies this)).

Definition uniform (face : list Z) : bool :=
  match face with
  | [] => true
  | firstColor :: _ => forallb (fun c => c =? firstColor) face
  end.

Definition isSolved (this : RubiksCube) : bool :=
  let n := size this in
  let faces :=
    [ collect this (fun u => UserData.x u =? n - 1) 0;   (* right *)
      collect this (fun u => UserData.x u =? 0) 1;       (* left *)
      collect this (fun u => UserData.y u =? n - 1) 2;   (* top *)
      collect this (fun u => UserData.y u =? 0) 3;       (* bottom *)
      collect this (fun u => UserData.z u =? n - 1) 4;   (* front *)
      collect this (fun u => UserData.z u =? 0) 5 ]      (* back *) in
  forallb uniform faces.

(** ** rotate *)

(** Lines 219-237: the turn is accepted. *)
Definition rotate_begin (s : State.t) (axis : string) (layer direction : Z)
  : State.t * list nat :=
  let s := State.set_isAnimating true s in
  let s :=
    if negb (State.isTimerRunning s) && State.isSolved s
    then State.set_isSolved false (startTimer s)
    else s in
  let s := State.set_moves (State.moves s + 1) s in
  (s, getCubiesInLayer (State.currentPuzzle s) axis layer).

(** [rotate] with [animate = true]: queued, or begun and suspended at the
    [await] of [animateRotation]. *)
Definition rotate_animated (s : State.t) (axis : string)
  (layer direction : Z) : State.t :=
  if State.isAnimating s then
    State.set_moveQueue (State.moveQueue s ++ [Move.mk axis layer direction]) s
  else
    let '(s, cubiesInLayer) := rotate_begin s axis layer direction in
    let startRotation :=
      Euler_get axis (rotationGroup_rotation (State.currentPuzzle s)) in
    State.set_awaiting
      (Some (mkSuspended axis direction cubiesInLayer startRotation)) s.

(** Lines 247-279: after the rotation group has been turned. *)
Definition rotate_end (s : State.t) (axis : string) (direction : Z)
  (cubiesInLayer : list nat) : State.t :=
  let this := State.currentPuzzle s in
  let this :=
    set_cubies (moveBackAll this axis direction cubiesInLayer) this in
  let this := set_rotation Euler.zero this in
  let s := State.set_currentPuzzle this s in
  let s := State.set_isAnimating false s in
  let s :=
    if isSolved this then stopTimer (State.set_isSolved true s) else s in
  match State.moveQueue s with
  | [] => s
  | next :: rest =>
      rotate_animated (State.set_moveQueue rest s)
                      (Move.axis next) (Move.layer next) (Move.direction next)
  end.

Definition rotate (s : State.t) (axis : string) (layer direction : Z)
  (animate : bool) : State.t :=
  if State.isAnimating s then
    State.set_moveQueue (State.moveQueue s ++ [Move.mk axis layer direction]) s
  else if animate then
    rotate_animated s axis layer direction
  else
    let '(s, cubiesInLayer) := rotate_begin s axis layer direction in
    let angle := direction in
    let this := applyRotation (State.currentPuzzle s) axis angle in
    rotate_end (State.set_currentPuzzle this s) axis direction cubiesInLayer.

(** The last frame of [animateRotation] ([progress = 1]) resolves the
    promise, and the suspended [rotate] runs to its end. *)
Definition animationDone (s : State.t) : State.t :=
  match State.awaiting s with
  | None => s
  | Some k =>
      let angle := sus_direction k in
      let this := State.currentPuzzle s in
      let this :=
        set_rotation
          (Euler_set (sus_axis k) (sus_startRotation k + angle)
                     (rotationGroup_rotation this)) this in
      rotate_end (State.set_awaiting None (State.set_currentPuzzle this s))
                 (sus_axis k) (sus_direction k) (sus_cubiesInLayer k)
  end.

(** ** scramble *)

Definition scramble_axes : list string := ["x"; "y"; "z"]%string.
Definition scramble_directions : list Z := [1; -1].

(** The turn generated in iteration [i]; [random n] is the value of the
    [n]-th call of [Math.random()], a number in [0, 1). *)
Definition scramble_move (random : nat -> Q) (size : Z) (i : nat) : Move.t :=
  let axis :=
    nth (Z.to_nat (Math_floor (random (3 * i)%nat * 3))) scramble_axes
        "undefined"%string in
  let layer := Math_floor (random (3 * i + 1)%nat * inject_Z size) in
  let direction :=
    nth (Z.to_nat (Math_floor (random (3 * i + 2)%nat * 2)))
        scramble_directions 0 in
  Move.mk axis layer direction.

(** The arguments of the [rotate] calls of [scramble], in order. *)
Definition scramble_calls (random : nat -> Q) (size : Z) (moves : option Z)
  : list Move.t :=
  let moves :=
    match moves with
    | None => Math_max 20 (size * 5)
    | Some m => m
    end in
  map (scramble_move random size) (seq 0 (Z.to_nat moves)).

Definition scramble (random : nat -> Q) (s : State.t) (moves : option Z)
  : State.t :=
  let calls :=
    scramble_calls random (size (State.currentPuzzle s)) moves in
  let s :=
    fold_left (fun s m =>
                 rotate s (Move.axis m) (Move.layer m) (Move.direction m)
                        false)
              calls s in
  State.set_moves 0 (State.set_isSolved false s).

(** ** The drag interpreter *)

Definition sign_if (b : bool) (pos neg : Z) : Z := if b then pos else neg.

(** The branch of [onMouseMove] that picks [axis], [layer] and [direction]
    from the world normal of the hit face, the hit piece and the drag. *)
Definition dragTurn (faceNormal : Vector3.t) (u : UserData.t) (dx dy : Q)
  : Move.t :=
  let horizontal := Qgtb (Math_abs dx) (Math_abs dy) in
  let flip (component : Q) (direction : Z) : Z :=
    if Qltb component 0 then direction * -1 else direction in
  if Qgtb (Math_abs (Vector3.y faceNormal)) (1 # 2) then
    if horizontal then
      Move.mk "z" (UserData.z u)
             (flip (Vector3.y faceNormal) (sign_if (Qgtb dx 0) 1 (-1)))
    else
      Move.mk "x" (UserData.x u)
             (flip (Vector3.y faceNormal) (sign_if (Qgtb dy 0) (-1) 1))
  else if Qgtb (Math_abs (Vector3.x faceNormal)) (1 # 2) then
    if horizontal then
      Move.mk "y" (UserData.y u)
             (flip (Vector3.x faceNormal) (sign_if (Qgtb dx 0) (-1) 1))
    else
      Move.mk "z" (UserData.z u)
             (flip (Vector3.x faceNormal) (sign_if (Qgtb dy 0) 1 (-1)))
  else
    if horizontal then
      Move.mk "y" (UserData.y u)
             (flip (Vector3.z faceNormal) (sign_if (Qgtb dx 0) (-1) 1))
    else
      Move.mk "x" (UserData.x u)
             (flip (Vector3.z faceNormal) (sign_if (Qgtb dy 0) 1 (-1))).

Definition drag_threshold : Q := 30.

(** [intersects] is what the raycaster returns for the pointer position. *)
Definition onMouseDown (s : State.t) (event : MouseEvent)
  (intersects : list Intersection) : State.t :=
  if negb (button event =? 0) then s
  else
    match intersects with
    | [] => s
    | hit :: _ =>
        State.set_drag true (Some hit)
          (State.set_dragStart (Some (clientX event, clientY event)) s)
    end.

Definition onMouseUp (s : State.t) : State.t := State.set_drag false None s.

Definition onMouseMove (s : State.t) (event : MouseEvent) : State.t :=
  match State.isDragging s, State.selectedFace s, State.dragStart s with
  | true, Some hit, Some start =>
      let dx := (clientX event - fst start)%Q in
      let dy := (clientY event - snd start)%Q in
      if Qgtb (Math_abs dx) drag_threshold
         || Qgtb (Math_abs dy) drag_threshold then
        match nth_error (cubies (State.currentPuzzle s)) (object hit) with
        | Some cubie =>
            let faceNormal :=
              Vector3.applyQuaternion (face_normal hit) (quaternion cubie) in
            let m := dragTurn faceNormal (userData cubie) dx dy in
            let s :=
              rotate s (Move.axis m) (Move.layer m) (Move.direction m)
                     true in
            State.set_drag false None s
        | None => s
        end
      else s
  | _, _, _ => s
  end.


(** ** reset *)

Definition resetTimer (s : State.t) : State.t := stopTimer s.

(** The closure of a suspended [rotate] holds the meshes it picked, not
    their places in [cubies]: once [reset] has replaced the array, none of
    them is an element of it any more. *)
Definition forget_pieces (k : Suspended) : Suspended :=
  mkSuspended (sus_axis k) (sus_direction k) [] (sus_startRotation k).

(** [reset]: the pieces are discarded and made anew; the queue, the flag
    [isAnimating] and a suspended turn are left as they are. *)
Definition reset (s : State.t) : State.t :=
  let this := State.currentPuzzle s in
  let this := set_cubies (createCube (size this) (cubeSize this)) this in
  let s := State.set_currentPuzzle this s in
  let s := State.set_awaiting (option_map forget_pieces (State.awaiting s)) s in
  let s := State.set_isSolved true s in
  let s := State.set_moves 0 s in
  resetTimer s.

(** ** Keyboard *)

Record KeyboardEvent : Set := mkKey { shiftKey : bool; key : string }.

(** [onKeyDown]; [toUpperCase] is [String.prototype.toUpperCase] and
    [puzzleType] the field of that name of [state]. *)
Definition onKeyDown (toUpperCase : string -> string) (puzzleType : string)
  (s : State.t) (event : KeyboardEvent) : State.t :=
  if negb (puzzleType =? "cube")%string then s
  else
    let shift := shiftKey event in
    let direction := if shift then -1 else 1 in
    let size := size (State.currentPuzzle s) in
    let k := toUpperCase (key event) in
    if (k =? "U")%string then rotate s "y" (size - 1) direction true
    else if (k =? "D")%string then rotate s "y" 0 (- direction) true
    else if (k =? "R")%string then rotate s "x" (size - 1) direction true
    else if (k =? "L")%string then rotate s "x" 0 (- direction) true
    else if (k =? "F")%string then rotate s "z" (size - 1) direction true
    else if (k =? "B")%string then rotate s "z" 0 (- direction) true
    else if (k =? "M")%string then
      if 3 <=? size then rotate s "x" (size / 2) (- direction) true else s
    else if (k =? "E")%string then
      if 3 <=? size then rotate s "y" (size / 2) (- direction) true else s
    else if (k =? "S")%string then
      if 3 <=? size then rotate s "z" (size / 2) direction true else s
    else s.

(** ** The frames of an animated turn *)

(** [animateStep], [elapsed] milliseconds after the start: the value given
    to [rotationGroup.rotation[axis]] and whether the promise is resolved
    (otherwise another frame is requested).  Angles are in units of
    [Math.PI / 2], as everywhere. *)
Definition Math_min (a b : Q) : Q := if Qle_bool a b then a else b.

Definition animation_duration : Q := 200.

Definition animation_progress (elapsed : Z) : Q :=
  Math_min (inject_Z elapsed / animation_duration) 1.

Definition animation_eased (elapsed : Z) : Q :=
  (1 - (1 - animation_progress elapsed) ^ 3)%Q.

Definition animateStep (startRotation angle : Q) (elapsed : Z) : Q * bool :=
  let progress := animation_progress elapsed in
  let eased := animation_eased elapsed in
  ((startRotation + angle * eased)%Q, negb (Qltb progress 1)).

(** ** Timer display *)

(** [String(n)] for an integer [n]. *)
Definition String_of (n : Z) : string :=
  DecimalString.NilZero.string_of_int (Z.to_int n).

Fixpoint repeat_char (c : Ascii.ascii) (k : nat) : string :=
  match k with
  | O => EmptyString
  | S k' => String c (repeat_char c k')
  end.

(** [s.padStart(targetLength, c)] for a pad string of the one character
    [c]. *)
Definition padStart (targetLength : nat) (c : Ascii.ascii) (s : string)
  : string :=
  (repeat_char c (targetLength - String.length s) ++ s)%string.

(** The text [updateTimerDisplay] writes for [state.timer], a number of
    milliseconds. *)
Definition timerDisplay (timer : Z) : string :=
  let ms := Z.rem timer 1000 in
  let seconds := Z.rem (timer / 1000) 60 in
  let minutes := timer / 60000 in
  let zero := Ascii.ascii_of_nat 48 in
  (padStart 2 zero (String_of minutes) ++ ":" ++
   padStart 2 zero (String_of seconds) ++ "." ++
   padStart 2 zero (String_of (ms / 10)))%string.
(** * Vocabulary of the properties *)

Definition gridPosition (cubie : Cubie) : Z * Z * Z :=
  let u := userData cubie in (UserData.x u, UserData.y u, UserData.z u).

(** The component of a grid position along an axis. *)
Definition grid_coordinate (axis : string) (g : Z * Z * Z) : option Z :=
  let '(x, y, z) := g in
  if (axis =? "x")%string then Some x
  else if (axis =? "y")%string then Some y
  else if (axis =? "z")%string then Some z
  else None.

(** Where a piece was created. *)
Definition origin (cubie : Cubie) : Z * Z * Z :=
  let u := userData cubie in
  (UserData.origX u, UserData.origY u, UserData.origZ u).

(** The colour of the sticker on face [faceIndex] of a piece; a face made by
    [getFaceMaterial(null)] carries none. *)
Definition stickerColor (cubie : Cubie) (faceIndex : nat) : option Z :=
  match nth_error (material cubie) faceIndex with
  | Some (MeshPhongMaterial c _ _) => Some c
  | _ => None
  end.

(** The colours of the directions +X, -X, +Y, -Y, +Z, -Z, by face index. *)
Definition canonical_colors : list Z :=
  [ COLORS_red; COLORS_orange; COLORS_white; COLORS_yellow; COLORS_blue;
    COLORS_green ].

(** Whether grid position [p] lies on the boundary layer of the direction
    with index [faceIndex], on a cube of size [n]. *)
Definition on_boundary (n : Z) (p : Z * Z * Z) (faceIndex : nat) : bool :=
  let '(x, y, z) := p in
  match faceIndex with
  | 0%nat => x =? n - 1
  | 1%nat => x =? 0
  | 2%nat => y =? n - 1
  | 3%nat => y =? 0
  | 4%nat => z =? n - 1
  | 5%nat => z =? 0
  | _ => false
  end.

(** The states of a session: a cube of some size is created, then turns are
    requested (by the player, the keyboard or a drag), animations end,
    scrambles are run with whatever [Math.random] returns. *)
Inductive reachable : State.t -> Prop :=
| reach_initial (n : Z) : reachable (initial_state n)
| reach_rotate s axis layer direction animate :
    reachable s -> reachable (rotate s axis layer direction animate)
| reach_animationDone s :
    reachable s -> reachable (animationDone s)
| reach_scramble random s moves :
    reachable s -> reachable (scramble random s moves)
| reach_onMouseDown s event intersects :
    reachable s -> reachable (onMouseDown s event intersects)
| reach_onMouseMove s event :
    reachable s -> reachable (onMouseMove s event)
| reach_onMouseUp s :
    reachable s -> reachable (onMouseUp s).

(** The solved check as the specification words it. *)

(** The six world directions +X, -X, +Y, -Y, +Z, -Z, which are also the
    local normals of the six faces of a piece, in the order of their
    declaration. *)
Definition spec_direction (d : nat) : Vector3.t :=
  nth d
      [ Vector3.mk 1 0 0; Vector3.mk (-1) 0 0; Vector3.mk 0 1 0;
        Vector3.mk 0 (-1) 0; Vector3.mk 0 0 1; Vector3.mk 0 0 (-1) ]
      (Vector3.mk 0 0 0).

(** How far face [f] of a piece, turned as the piece is, points towards the
    world direction [d]. *)
Definition spec_alignment (cubie : Cubie) (d f : nat) : Q :=
  Vector3.dot
    (Vector3.applyQuaternion (spec_direction f) (quaternion cubie))
    (spec_direction d).

(** The face a piece shows towards the world direction [d]: the first of
    its six faces whose rotated normal no other face exceeds in dot product
    with the direction. *)
Definition spec_facing (cubie : Cubie) (d : nat) : nat :=
  match
    find (fun f =>
            forallb (fun f' =>
                       Qle_bool (spec_alignment cubie d f')
                                (spec_alignment cubie d f))
                    (seq 0 6))
         (seq 0 6)
  with
  | Some f => f
  | None => 0%nat
  end.

(** The colour a piece shows towards the world direction [d]. *)
Definition spec_facingColor (cubie : Cubie) (d : nat) : Z :=
  getHex (nth (spec_facing cubie d) (material cubie)
              (MeshLambertMaterial COLORS_black)).

(** For each of the six directions, all pieces of its boundary layer show
    the same colour towards it (nothing to check for an empty layer). *)
Definition spec_solved (this : RubiksCube) : Prop :=
  forall d, (d < 6)%nat ->
  forall c1 c2,
    In c1 (cubies this) -> In c2 (cubies this) ->
    on_boundary (size this) (gridPosition c1) d = true ->
    on_boundary (size this) (gridPosition c2) d = true ->
    spec_facingColor c1 d = spec_facingColor c2 d.




(** The render coordinate of a piece along an axis. *)
Definition render_coordinate (axis : string) (cubie : Cubie) : option Q :=
  if (axis =? "x")%string then Some (Vector3.x (position cubie))
  else if (axis =? "y")%string then Some (Vector3.y (position cubie))
  else if (axis =? "z")%string then Some (Vector3.z (position cubie))
  else None.

(** The render coordinate of the layer with index [layerIndex]. *)
Definition layer_position (this : RubiksCube) (layerIndex : Z) : Q :=
  ((inject_Z layerIndex - offset_of (size this)) * cubeSize this)%Q.

(** The same component, read from [userData]. *)
Definition coordinate (axis : string) (u : UserData.t) : option Z :=
  if (axis =? "x")%string then Some (UserData.x u)
  else if (axis =? "y")%string then Some (UserData.y u)
  else if (axis =? "z")%string then Some (UserData.z u)
  else None.

(** Selection as the specification words it: the pieces whose grid
    coordinate along [axis] is exactly [layerIndex]. *)
Definition spec_layer (this : RubiksCube) (axis : string) (layerIndex : Z)
  : list nat :=
  filter_indexes
    (fun cubie =>
       match coordinate axis (userData cubie) with
       | Some k => k =? layerIndex
       | None => false
       end)
    0%nat (cubies this).

(** A piece sits on the grid when its render position is the one its grid
    position stands for, [(coordinate - offset) * cubeSize] on each axis. *)
Definition on_grid (this : RubiksCube) (cubie : Cubie) : Prop :=
  let o := offset_of (size this) in
  let cs := cubeSize this in
  let p := position cubie in
  let u := userData cubie in
  (Vector3.x p == (inject_Z (UserData.x u) - o) * cs)%Q /\
  (Vector3.y p == (inject_Z (UserData.y u) - o) * cs)%Q /\
  (Vector3.z p == (inject_Z (UserData.z u) - o) * cs)%Q.

(** The arguments of a turn command: one of the three axes and a layer
    index of the cube. *)
Definition valid_turn (this : RubiksCube) (axis : string) (layer : Z)
  : Prop :=
  (axis = "x" \/ axis = "y" \/ axis = "z")%string /\
  0 <= layer <= size this - 1.

(** All grid coordinates of a piece are layer indexes of the cube. *)
Definition grid_in_range (this : RubiksCube) (cubie : Cubie) : Prop :=
  let u := userData cubie in
  0 <= UserData.x u <= size this - 1 /\
  0 <= UserData.y u <= size this - 1 /\
  0 <= UserData.z u <= size this - 1.

(** No turn is in progress and none is waiting. *)
Definition idle (s : State.t) : Prop :=
  State.isAnimating s = false /\ State.moveQueue s = [] /\
  State.awaiting s = None.

(** A call that is rejected without mutation leaves the state as it was. *)
Definition rejected_without_mutation (s : State.t) (axis : string)
  (layer direction : Z) (animate : bool) : Prop :=
  rotate s axis layer direction animate = s.

(** The logical mutation of one turn: what a [rotate] call that runs to its
    end does to the cube. *)
Definition turn (this : RubiksCube) (m : Move.t) : RubiksCube :=
  let cubiesInLayer := getCubiesInLayer this (Move.axis m) (Move.layer m) in
  let turned := applyRotation this (Move.axis m) (Move.direction m) in
  set_rotation Euler.zero
    (set_cubies
       (moveBackAll turned (Move.axis m) (Move.direction m) cubiesInLayer)
       turned).

(** A request, as a caller issues it: the turn and its [animate] flag. *)
Definition Request : Set := (Move.t * bool)%type.

Definition issue (s : State.t) (r : Request) : State.t :=
  rotate s (Move.axis (fst r)) (Move.layer (fst r)) (Move.direction (fst r))
         (snd r).

(** The turn [m] is in progress: its animation runs, the pieces it picked
    wait in the rotation group. *)
Definition in_progress (s : State.t) (m : Move.t) : Prop :=
  State.isAnimating s = true /\
  rotationGroup_rotation (State.currentPuzzle s) = Euler.zero /\
  State.awaiting s =
  Some (mkSuspended (Move.axis m) (Move.direction m)
          (getCubiesInLayer (State.currentPuzzle s)
                            (Move.axis m) (Move.layer m))
          0).

(** A request queued behind a turn in progress is executed with the flag it
    was issued with: once the turn in progress has completed, a request
    issued without animation has run to its end, one issued with animation
    is in progress. *)
Definition executed_per_own_flag (s : State.t) (r : Request) : Prop :=
  State.isAnimating (animationDone (issue s r)) = snd r.

(** The drag interpreter as the specification words it. *)
Inductive FaceClass : Set := FaceY | FaceX | FaceZ.

(** The first of Y, X, Z whose component of the normal has a magnitude
    above 0.5. *)
Definition spec_classify (normal : Vector3.t) : option FaceClass :=
  if Qgtb (Qabs (Vector3.y normal)) (1 # 2) then Some FaceY
  else if Qgtb (Qabs (Vector3.x normal)) (1 # 2) then Some FaceX
  else if Qgtb (Qabs (Vector3.z normal)) (1 # 2) then Some FaceZ
  else None.

Definition spec_dominant (cls : FaceClass) (normal : Vector3.t) : Q :=
  match cls with
  | FaceY => Vector3.y normal
  | FaceX => Vector3.x normal
  | FaceZ => Vector3.z normal
  end.

(** The fixed table: axis, layer and base direction by face class and drag
    orientation. *)
Definition spec_drag_table (cls : FaceClass) (horizontal : bool)
  (piece : UserData.t) (dx dy : Q) : string * Z * Z :=
  match cls, horizontal with
  | FaceY, true => ("z", UserData.z piece, if Qgtb dx 0 then 1 else -1)
  | FaceY, false => ("x", UserData.x piece, if Qgtb dy 0 then -1 else 1)
  | FaceX, true => ("y", UserData.y piece, if Qgtb dx 0 then -1 else 1)
  | FaceX, false => ("z", UserData.z piece, if Qgtb dy 0 then 1 else -1)
  | FaceZ, true => ("y", UserData.y piece, if Qgtb dx 0 then -1 else 1)
  | FaceZ, false => ("x", UserData.x piece, if Qgtb dy 0 then 1 else -1)
  end%string.

Definition spec_dragTurn (cls : FaceClass) (normal : Vector3.t)
  (piece : UserData.t) (dx dy : Q) : Move.t :=
  let horizontal := Qgtb (Qabs dx) (Qabs dy) in
  let '(axis, layer, base) := spec_drag_table cls horizontal piece dx dy in
  Move.mk axis layer
          (if Qltb (spec_dominant cls normal) 0 then - base else base).

(** The quarter turn on grid coordinates: the integer rotation of the two
    coordinates off the axis about the centre of the grid. *)
Definition quarter_cosZ (k : Z) : Z :=
  match k mod 4 with 0 => 1 | 2 => -1 | _ => 0 end.
Definition quarter_sinZ (k : Z) : Z :=
  match k mod 4 with 1 => 1 | 3 => -1 | _ => 0 end.

Definition spec_rotate_grid (n : Z) (axis : string) (d : Z) (g : Z * Z * Z)
  : Z * Z * Z :=
  let h := (n - 1) / 2 in
  let c := quarter_cosZ d in
  let s := quarter_sinZ d in
  let '(x, y, z) := g in
  if (axis =? "x")%string then
    (x, (y - h) * c - (z - h) * s + h, (y - h) * s + (z - h) * c + h)
  else if (axis =? "y")%string then
    ((x - h) * c + (z - h) * s + h, y, (z - h) * c - (x - h) * s + h)
  else if (axis =? "z")%string then
    ((x - h) * c - (y - h) * s + h, (x - h) * s + (y - h) * c + h, z)
  else g.

(** What one turn does to one piece. *)
Definition turn_piece (this : RubiksCube) (m : Move.t) (c : Cubie) : Cubie :=
  if inLayer this (Move.axis m) (Move.layer m) c
  then moveBack (applyRotation this (Move.axis m) (Move.direction m))
                (Move.axis m) (Move.direction m) c
  else c.

(** Two records of the same piece in the same place: equal grid position,
    origin, orientation and materials, and the same render position. *)
Definition same_piece (c' c : Cubie) : Prop :=
  userData c' = userData c /\
  quaternion c' = quaternion c /\
  material c' = material c /\
  (Vector3.x (position c') == Vector3.x (position c))%Q /\
  (Vector3.y (position c') == Vector3.y (position c))%Q /\
  (Vector3.z (position c') == Vector3.z (position c))%Q.

(** The boundary test of the face with index [d], as [isSolved] writes
    it on [userData]. *)
Definition boundary_test (n : Z) (d : nat) (u : UserData.t) : bool :=
  on_boundary n (UserData.x u, UserData.y u, UserData.z u) d.

(** Whether a grid position is in the layer of a turn. *)
Definition in_grid_layer (m : Move.t) (g : Z * Z * Z) : bool :=
  match grid_coordinate (Move.axis m) g with
  | Some k => k =? Move.layer m
  | None => false
  end.


(** ** Sessions *)

(** The states of a session on a cube of size [n], with everything the
    player can do to it: turns (also from the keyboard and from drags),
    ends of animation, scrambles and resets. *)
Inductive session (n : Z) : State.t -> Prop :=
| session_initial : session n (initial_state n)
| session_rotate s axis layer direction animate :
    session n s -> session n (rotate s axis layer direction animate)
| session_animationDone s :
    session n s -> session n (animationDone s)
| session_scramble random s moves :
    session n s -> session n (scramble random s moves)
| session_reset s :
    session n s -> session n (reset s)
| session_onKeyDown toUpperCase puzzleType s event :
    session n s -> session n (onKeyDown toUpperCase puzzleType s event)
| session_onMouseDown s event intersects :
    session n s -> session n (onMouseDown s event intersects)
| session_onMouseMove s event :
    session n s -> session n (onMouseMove s event)
| session_onMouseUp s :
    session n s -> session n (onMouseUp s).

(** What the engine keeps true of the state between two of its steps. *)
Record well_formed (n : Z) (s : State.t) : Prop := mkWellFormed {
  wf_idle :
    State.isAnimating s = false ->
    State.moveQueue s = [] /\ State.awaiting s = None;
  wf_busy :
    State.isAnimating s = true ->
    exists k,
      State.awaiting s = Some k /\ sus_startRotation k = 0 /\
      (sus_cubiesInLayer k = [] \/
       exists layer,
         sus_cubiesInLayer k =
         getCubiesInLayer (State.currentPuzzle s) (sus_axis k) layer);
  wf_timer :
    State.isTimerRunning s = true -> State.isSolved s = false;
  wf_interval : State.timerInterval s = State.isTimerRunning s;
  wf_moves : 0 <= State.moves s;
  wf_turns :
    exists ms, State.currentPuzzle s = fold_left turn ms (new_RubiksCube n)
}.

(** What a piece is made of: where it was created, its materials and its
    quaternion. *)
Definition make_of (cubie : Cubie)
  : Z * Z * Z * list Material * Quaternion.t :=
  (origin cubie, material cubie, quaternion cubie).

(** The opposite turn: same axis and layer, direction negated. *)
Definition opposite (m : Move.t) : Move.t :=
  Move.mk (Move.axis m) (Move.layer m) (- Move.direction m).

(** Reading a two-digit field of the timer display back. *)
Definition digit_value (c : Ascii.ascii) : Z :=
  Z.of_nat (Ascii.nat_of_ascii c) - 48.

Definition field_value (s : string) (i : nat) : option Z :=
  match String.get i s, String.get (S i) s with
  | Some a, Some b => Some (10 * digit_value a + digit_value b)
  | _, _ => None
  end.

(** The milliseconds a text [mm:ss.cc] stands for. *)
Definition read_timerDisplay (s : string) : option Z :=
  match field_value s 0, field_value s 3, field_value s 6 with
  | Some m, Some sec, Some c => Some (m * 60000 + sec * 1000 + c * 10)
  | _, _, _ => None
  end.

(** ** Grid positions under turns *)

(** Where a turn sends a grid position. *)
Definition turned_position (n : Z) (m : Move.t) (g : Z * Z * Z)
  : Z * Z * Z :=
  if in_grid_layer m g
  then spec_rotate_grid n (Move.axis m) (Move.direction m) g
  else g.

(** The grid invariant of a cube: every piece sits on the grid, inside the
    cube, and no two pieces share a grid position. *)
Definition grid_ok (this : RubiksCube) : Prop :=
  Forall (on_grid this) (cubies this) /\
  Forall (grid_in_range this) (cubies this) /\
  NoDup (map gridPosition (cubies this)).

(** The render position of a piece is a whole multiple of the piece size
    along every axis, as [updateCubiePosition] leaves it. *)
Definition snapped (this : RubiksCube) (c : Cubie) : Prop :=
  exists jx jy jz : Z,
    (Vector3.x (position c) == inject_Z jx * cubeSize this)%Q /\
    (Vector3.y (position c) == inject_Z jy * cubeSize this)%Q /\
    (Vector3.z (position c) == inject_Z jz * cubeSize this)%Q.

(** The two decimal digits of a number below 100. *)
Definition two_digits (k : nat) : string :=
  String (Ascii.ascii_of_nat (48 + k / 10))
         (String (Ascii.ascii_of_nat (48 + k mod 10)) EmptyString).

(** A position of the surface shell of the grid of size [n]. *)
Definition surface_position (n : Z) (g : Z * Z * Z) : Prop :=
  let '(x, y, z) := g in
  (0 <= x < n /\ 0 <= y < n /\ 0 <= z < n) /\ on_surface n x y z = true.

(** The occupied grid positions are exactly those of the surface shell. *)
Definition fills_surface (this : RubiksCube) : Prop :=
  forall g, In g (map gridPosition (cubies this)) <->
            surface_position (size this) g.


(** * Properties *)

(** ** Comparisons *)

Lemma Qltb_true (a b : Q) : Qltb a b = true <-> (a < b)%Q.
Proof.
  unfold Qltb. rewrite negb_true_iff. split.
  - intros H. apply Qnot_le_lt. intros Hle.
    apply Qle_bool_iff in Hle. congruence.
  - intros H. destruct (Qle_bool b a) eqn:E; [| reflexivity].
    apply Qle_bool_iff in E. exfalso. exact (Qlt_not_le _ _ H E).
Qed.

Lemma Qltb_false (a b : Q) : Qltb a b = false <-> (b <= a)%Q.
Proof.
  unfold Qltb. rewrite negb_false_iff. apply Qle_bool_iff.
Qed.

(** ** Construction (createCube, createCubie) *)

Lemma in_range (n x : Z) : In x (range n) <-> 0 <= x < n.
Proof.
  unfold range. rewrite in_map_iff. split.
  - intros [k [<- Hk]]. apply in_seq in Hk. lia.
  - intros H. exists (Z.to_nat x). split; [lia |]. apply in_seq. lia.
Qed.

Lemma NoDup_range (n : Z) : NoDup (range n).
Proof.
  unfold range. apply Injective_map_NoDup.
  - intros a b Hab. lia.
  - apply seq_NoDup.
Qed.

(** A [flat_map] whose blocks can be told apart by a key has no duplicate
    keys as soon as no block has. *)
Lemma NoDup_map_flat_map {A B K : Type} (key : B -> K) (proj : K -> A)
  (f : A -> list B) (l : list A) :
  NoDup l ->
  (forall a, NoDup (map key (f a))) ->
  (forall a b, In b (f a) -> proj (key b) = a) ->
  NoDup (map key (flat_map f l)).
Proof.
  intros Hl Hf Hproj. induction Hl as [| a l Hna Hl IH]; simpl.
  - constructor.
  - rewrite map_app. apply NoDup_app; [apply Hf | exact IH |].
    intros k Hk Hk'. apply in_map_iff in Hk as [b [<- Hb]].
    apply in_map_iff in Hk' as [b' [Hkey Hb']].
    apply in_flat_map in Hb' as [a' [Ha' Hb']].
    apply Hproj in Hb, Hb'. rewrite Hkey in Hb'. congruence.
Qed.

Lemma gridPosition_createCubie n cs x y z o :
  gridPosition (createCubie n cs x y z o) = (x, y, z).
Proof. reflexivity. Qed.

Lemma in_createCube (n : Z) (cs : Q) (c : Cubie) :
  In c (createCube n cs) <->
  exists x y z,
    (0 <= x < n /\ 0 <= y < n /\ 0 <= z < n) /\
    on_surface n x y z = true /\
    c = createCubie n cs x y z (offset_of n).
Proof.
  unfold createCube. split.
  - intros H.
    apply in_flat_map in H as [x [Hx H]].
    apply in_flat_map in H as [y [Hy H]].
    apply in_flat_map in H as [z [Hz H]].
    apply in_range in Hx, Hy, Hz.
    destruct (on_surface n x y z) eqn:E; simpl in H; [| contradiction].
    destruct H as [<- | []]. exists x, y, z. auto.
  - intros [x [y [z [[Hx [Hy Hz]] [E ->]]]]].
    apply in_flat_map. exists x. split; [now apply in_range |].
    apply in_flat_map. exists y. split; [now apply in_range |].
    apply in_flat_map. exists z. split; [now apply in_range |].
    rewrite E. now left.
Qed.

Lemma NoDup_createCube (n : Z) (cs : Q) :
  NoDup (map gridPosition (createCube n cs)).
Proof.
  unfold createCube.
  apply (NoDup_map_flat_map gridPosition (fun p => fst (fst p)));
    [apply NoDup_range | |].
  - intros x.
    apply (NoDup_map_flat_map gridPosition (fun p => snd (fst p)));
      [apply NoDup_range | |].
    + intros y.
      apply (NoDup_map_flat_map gridPosition (fun p => snd p));
        [apply NoDup_range | |].
      * intros z. destruct (on_surface n x y z); simpl; repeat constructor.
        intros [].
      * intros z c. destruct (on_surface n x y z); simpl; [| intros []].
        intros [<- | []]. reflexivity.
    + intros y c H. apply in_flat_map in H as [z [_ H]].
      destruct (on_surface n x y z); simpl in H; [| contradiction].
      destruct H as [<- | []]. reflexivity.
  - intros x c H. apply in_flat_map in H as [y [_ H]].
    apply in_flat_map in H as [z [_ H]].
    destruct (on_surface n x y z); simpl in H; [| contradiction].
    destruct H as [<- | []]. reflexivity.
Qed.

Lemma on_surface_spec (n x y z : Z) :
  on_surface n x y z = true <->
  x = 0 \/ x = n - 1 \/ y = 0 \/ y = n - 1 \/ z = 0 \/ z = n - 1.
Proof.
  unfold on_surface. rewrite !orb_true_iff, !Z.eqb_eq. tauto.
Qed.

Lemma stickerColor_createCubie n cs x y z o (faceIndex : nat) :
  (faceIndex < 6)%nat ->
  stickerColor (createCubie n cs x y z o) faceIndex =
  if on_boundary n (x, y, z) faceIndex
  then nth_error canonical_colors faceIndex
  else None.
Proof.
  intros H.
  do 6 (destruct faceIndex as [| faceIndex];
        [unfold stickerColor; simpl;
         match goal with |- context [?a =? ?b] => destruct (a =? b) end;
         reflexivity |]).
  lia.
Qed.

Lemma cubies_new_RubiksCube (n : Z) :
  cubies (new_RubiksCube n) = createCube n (cubeSize (new_RubiksCube n)).
Proof. reflexivity. Qed.

(** C4.  For a cube of size N the constructor makes exactly the pieces at
    the integer triples with every coordinate in [0, N-1] and at least one
    coordinate equal to 0 or N-1, each once; the face of a piece towards a
    direction carries the fixed colour of that direction when the piece lies
    on the boundary layer of that direction and no colour otherwise; the six
    colours are pairwise distinct and do not depend on N. *)
Theorem C4_createCube_surface_shell (N : Z) :
  let pieces := cubies (new_RubiksCube N) in
  NoDup (map gridPosition pieces) /\
  (forall x y z,
      In (x, y, z) (map gridPosition pieces) <->
      (0 <= x <= N - 1 /\ 0 <= y <= N - 1 /\ 0 <= z <= N - 1) /\
      (x = 0 \/ x = N - 1 \/ y = 0 \/ y = N - 1 \/ z = 0 \/ z = N - 1)) /\
  (forall c faceIndex,
      In c pieces -> (faceIndex < 6)%nat ->
      stickerColor c faceIndex =
      if on_boundary N (gridPosition c) faceIndex
      then nth_error canonical_colors faceIndex
      else None) /\
  NoDup canonical_colors /\ List.length canonical_colors = 6%nat.
Proof.
  intros pieces. subst pieces. rewrite cubies_new_RubiksCube.
  generalize (cubeSize (new_RubiksCube N)). intros cs.
  split; [apply NoDup_createCube |]. split; [| split; [| split]].
  - intros x y z. rewrite in_map_iff. split.
    + intros [c [Hg Hc]]. apply in_createCube in Hc.
      destruct Hc as [x' [y' [z' [Hr [Hs ->]]]]].
      rewrite gridPosition_createCubie in Hg. inversion Hg; subst.
      apply on_surface_spec in Hs. split; [lia | exact Hs].
    + intros [Hr Hs].
      exists (createCubie N cs x y z (offset_of N)).
      split; [reflexivity |]. apply in_createCube.
      exists x, y, z. split; [lia |]. split; [| reflexivity].
      now apply on_surface_spec.
  - intros c faceIndex Hc Hi. apply in_createCube in Hc.
    destruct Hc as [x [y [z [_ [_ ->]]]]].
    rewrite gridPosition_createCubie. now apply stickerColor_createCubie.
  - unfold canonical_colors. repeat constructor; simpl; intuition discriminate.
  - reflexivity.
Qed.

(** ** What a turn leaves alone *)

Section Preserved.
(** A field of a mesh that [moveBack] does not write. *)
Context {X : Type} (g : Cubie -> X).
Hypothesis g_moveBack :
  forall this axis direction c, g (moveBack this axis direction c) = g c.

Lemma map_update_nth (f : Cubie -> Cubie) (i : nat) (l : list Cubie) :
  (forall c, g (f c) = g c) -> map g (update_nth i f l) = map g l.
Proof.
  intros Hf. revert i. induction l as [| a l IH]; intros [| i]; simpl;
    try reflexivity.
  - now rewrite Hf.
  - now rewrite IH.
Qed.

Lemma moveBackAll_preserves this axis direction sel :
  map g (moveBackAll this axis direction sel) = map g (cubies this).
Proof.
  unfold moveBackAll. generalize (cubies this) as cs.
  induction sel as [| i sel IH]; intros cs; simpl; [reflexivity |].
  rewrite IH. apply map_update_nth. intros c. apply g_moveBack.
Qed.

Let pieces (s : State.t) : list X := map g (cubies (State.currentPuzzle s)).

Lemma rotate_begin_preserves s axis layer direction :
  pieces (fst (rotate_begin s axis layer direction)) = pieces s.
Proof.
  unfold rotate_begin, pieces. simpl.
  destruct (negb (State.isTimerRunning s) && State.isSolved s); reflexivity.
Qed.

Lemma rotate_animated_preserves s axis layer direction :
  pieces (rotate_animated s axis layer direction) = pieces s.
Proof.
  unfold rotate_animated.
  destruct (State.isAnimating s); [reflexivity |].
  pose proof (rotate_begin_preserves s axis layer direction) as H.
  destruct (rotate_begin s axis layer direction) as [s1 sel]. exact H.
Qed.

Lemma rotate_end_preserves s axis direction sel :
  pieces (rotate_end s axis direction sel) = pieces s.
Proof.
  unfold rotate_end.
  set (this' := set_rotation _ _).
  assert (Hthis : map g (cubies this') = pieces s)
    by apply moveBackAll_preserves.
  set (s1 := if isSolved this' then _ else _).
  assert (H1 : pieces s1 = pieces s)
    by (subst s1; destruct (isSolved this'); exact Hthis).
  assert (Hq : State.moveQueue s1 = State.moveQueue s)
    by (subst s1; destruct (isSolved this'); reflexivity).
  destruct (State.moveQueue s1) as [| next rest]; [exact H1 |].
  rewrite rotate_animated_preserves. exact H1.
Qed.

Lemma rotate_preserves s axis layer direction animate :
  pieces (rotate s axis layer direction animate) = pieces s.
Proof.
  unfold rotate.
  destruct (State.isAnimating s); [reflexivity |].
  destruct animate; [apply rotate_animated_preserves |].
  pose proof (rotate_begin_preserves s axis layer direction) as H.
  destruct (rotate_begin s axis layer direction) as [s1 sel].
  rewrite rotate_end_preserves. exact H.
Qed.

Lemma animationDone_preserves s :
  pieces (animationDone s) = pieces s.
Proof.
  unfold animationDone. destruct (State.awaiting s) as [k |];
    [| reflexivity].
  now rewrite rotate_end_preserves.
Qed.

Lemma scramble_preserves random s moves :
  pieces (scramble random s moves) = pieces s.
Proof.
  unfold scramble.
  generalize (scramble_calls random (size (State.currentPuzzle s)) moves).
  intros calls. change (pieces (fold_left
    (fun s m => rotate s (Move.axis m) (Move.layer m) (Move.direction m)
                       false) calls s) = pieces s).
  revert s. induction calls as [| m calls IH]; intros s; simpl;
    [reflexivity |].
  rewrite IH. apply rotate_preserves.
Qed.

Lemma onMouseMove_preserves s event :
  pieces (onMouseMove s event) = pieces s.
Proof.
  unfold onMouseMove.
  destruct (State.isDragging s); [| reflexivity].
  destruct (State.selectedFace s) as [hit |]; [| reflexivity].
  destruct (State.dragStart s) as [start |]; [| reflexivity].
  destruct (_ || _); [| reflexivity].
  destruct (nth_error _ _) as [cubie |]; [| reflexivity].
  cbv zeta. change (pieces (State.set_drag false None ?t)) with (pieces t).
  apply rotate_preserves.
Qed.

Lemma onMouseDown_preserves s event intersects :
  pieces (onMouseDown s event intersects) = pieces s.
Proof.
  unfold onMouseDown. destruct (negb _); [reflexivity |].
  destruct intersects; reflexivity.
Qed.
End Preserved.

Lemma quaternion_moveBack this axis direction c :
  quaternion (moveBack this axis direction c) = quaternion c.
Proof. reflexivity. Qed.

Lemma material_moveBack this axis direction c :
  material (moveBack this axis direction c) = material c.
Proof. reflexivity. Qed.

Lemma quaternion_createCube n cs c :
  In c (createCube n cs) -> quaternion c = Quaternion.identity.
Proof.
  intros H. apply in_createCube in H.
  destruct H as [x [y [z [_ [_ ->]]]]]. reflexivity.
Qed.

(** No state of a session holds a piece whose quaternion is not the
    identity. *)
Lemma reachable_identity_quaternion s :
  reachable s ->
  Forall (fun c => quaternion c = Quaternion.identity)
         (cubies (State.currentPuzzle s)).
Proof.
  intros H.
  cut (forall q, In q (map quaternion (cubies (State.currentPuzzle s))) ->
                 q = Quaternion.identity).
  { intros Hq. apply Forall_forall. intros c Hc. apply Hq.
    now apply in_map. }
  induction H.
  - intros q Hq. apply in_map_iff in Hq as [c [<- Hc]].
    eapply quaternion_createCube. exact Hc.
  - rewrite (rotate_preserves quaternion quaternion_moveBack).
    exact IHreachable.
  - rewrite (animationDone_preserves quaternion quaternion_moveBack).
    exact IHreachable.
  - rewrite (scramble_preserves quaternion quaternion_moveBack).
    exact IHreachable.
  - rewrite (onMouseDown_preserves quaternion). exact IHreachable.
  - rewrite (onMouseMove_preserves quaternion quaternion_moveBack).
    exact IHreachable.
  - exact IHreachable.
Qed.

(** C1 (the code departs from the claim).  On a fresh cube of size 3 the
    turn [rotate('y', 2, 1, false)] carries the corner piece created at
    (2,2,2) to grid position (2,2,0), yet the piece's quaternion, like that
    of every other piece, is what it was before the turn: the identity.  The
    orientation of a turned piece records nothing of the turn. *)
Theorem C1_rotate_leaves_quaternion_untouched :
  let s0 := initial_state 3 in
  let s1 := rotate s0 "y" 2 1 false in
  let corner c :=
    let '(x, y, z) := origin c in (x =? 2) && (y =? 2) && (z =? 2) in
  map (fun c => (gridPosition c, quaternion c))
      (filter corner (cubies (State.currentPuzzle s1)))
  = [((2, 2, 0), Quaternion.identity)] /\
  map quaternion (cubies (State.currentPuzzle s1))
  = map quaternion (cubies (State.currentPuzzle s0)) /\
  Forall (fun c => quaternion c = Quaternion.identity)
         (cubies (State.currentPuzzle s1)).
Proof.
  cbv zeta. split; [vm_compute; reflexivity |]. split.
  - apply (rotate_preserves quaternion quaternion_moveBack).
  - apply reachable_identity_quaternion. repeat constructor.
Qed.

(** ** Solved check *)

Lemma getFaceColor_identity c d :
  quaternion c = Quaternion.identity -> (d < 6)%nat ->
  getFaceColor c d =
  getHex (nth d (material c) (MeshLambertMaterial COLORS_black)).
Proof.
  intros Hq Hd. unfold getFaceColor. rewrite Hq.
  do 6 (destruct d as [| d]; [reflexivity |]). lia.
Qed.

Lemma spec_facingColor_identity c d :
  quaternion c = Quaternion.identity -> (d < 6)%nat ->
  spec_facingColor c d =
  getHex (nth d (material c) (MeshLambertMaterial COLORS_black)).
Proof.
  intros Hq Hd. unfold spec_facingColor, spec_facing, spec_alignment.
  rewrite Hq.
  do 6 (destruct d as [| d]; [reflexivity |]). lia.
Qed.

Lemma uniform_spec (face : list Z) :
  uniform face = true <-> forall a b, In a face -> In b face -> a = b.
Proof.
  destruct face as [| firstColor face].
  - simpl. split; [intros _ a b [] | reflexivity].
  - unfold uniform. rewrite forallb_forall. split.
    + intros H a b Ha Hb. apply H in Ha, Hb. lia.
    + intros H c Hc. apply Z.eqb_eq. apply H; [exact Hc | now left].
Qed.

Lemma in_collect this test d color :
  In color (collect this test d) <->
  exists c, In c (cubies this) /\ test (userData c) = true /\
            color = getFaceColor c d.
Proof.
  unfold collect. rewrite in_map_iff. split.
  - intros [c [<- Hc]]. apply filter_In in Hc as [Hc Ht]. now exists c.
  - intros [c [Hc [Ht ->]]]. exists c. split; [reflexivity |].
    now apply filter_In.
Qed.

Lemma isSolved_faces this :
  isSolved this =
  forallb (fun d => uniform (collect this (boundary_test (size this) d) d))
          (seq 0 6).
Proof. reflexivity. Qed.

Lemma isSolved_identity this :
  Forall (fun c => quaternion c = Quaternion.identity) (cubies this) ->
  isSolved this = true <-> spec_solved this.
Proof.
  intros Hid. rewrite Forall_forall in Hid.
  rewrite isSolved_faces, forallb_forall. unfold spec_solved. split.
  - intros H d Hd c1 c2 H1 H2 Hb1 Hb2.
    assert (Hin : In d (seq 0 6)) by (apply in_seq; lia).
    apply H in Hin. rewrite uniform_spec in Hin.
    rewrite !spec_facingColor_identity by auto.
    rewrite <- !getFaceColor_identity by auto.
    apply Hin; apply in_collect;
      [exists c1 | exists c2]; (split; [assumption |]);
      (split; [assumption | reflexivity]).
  - intros H d Hd. apply in_seq in Hd. apply uniform_spec.
    intros a b Ha Hb.
    apply in_collect in Ha as [c1 [H1 [Hb1 ->]]].
    apply in_collect in Hb as [c2 [H2 [Hb2 ->]]].
    rewrite !getFaceColor_identity by (auto; lia).
    rewrite <- !spec_facingColor_identity by (auto; lia).
    apply H; auto. lia.
Qed.

(** In every state of a session the quaternion of every piece is the
    identity, and there [isSolved()] returns true exactly when, for each of
    the six directions, all pieces of the boundary layer show the same
    colour towards it. *)
Lemma isSolved_in_sessions (s : State.t) :
  reachable s ->
  isSolved (State.currentPuzzle s) = true <->
  spec_solved (State.currentPuzzle s).
Proof.
  intros H. apply isSolved_identity.
  now apply reachable_identity_quaternion.
Qed.



(** [bestIndex_of] is the nearest-direction rule: the entry it returns has
    the largest dot product, and is the first to have it. *)
Lemma best_fold (v : Vector3.t) (axes : list (Vector3.t * nat)) :
  forall (m : Q) (b : nat),
    (fold_left (nearer v) axes (Some m, b) = (Some m, b) /\
     forall e, In e axes -> (Vector3.dot v (fst e) <= m)%Q) \/
    (exists pre entry post,
        axes = pre ++ entry :: post /\
        fold_left (nearer v) axes (Some m, b)
        = (Some (Vector3.dot v (fst entry)), snd entry) /\
        (m < Vector3.dot v (fst entry))%Q /\
        (forall e, In e pre ->
                   (Vector3.dot v (fst e) < Vector3.dot v (fst entry))%Q) /\
        (forall e, In e post ->
                   (Vector3.dot v (fst e) <= Vector3.dot v (fst entry))%Q)).
Proof.
  induction axes as [| e rest IH]; intros m b.
  - left. split; [reflexivity | intros e []].
  - cbn [fold_left]. unfold nearer at 2 4. cbn [fst snd exceeds].
    unfold Qgtb.
    destruct (Qltb m (Vector3.dot v (fst e))) eqn:E.
    + apply Qltb_true in E.
      destruct (IH (Vector3.dot v (fst e)) (snd e))
        as [[Hr Hall] | [pre [entry [post [Hax [Hr [Hlt [Hpre Hpost]]]]]]]].
      * right. exists [], e, rest.
        split; [reflexivity |]. split; [exact Hr |]. split; [exact E |].
        split; [intros x [] | exact Hall].
      * right. exists (e :: pre), entry, post.
        split; [rewrite Hax; reflexivity |]. split; [exact Hr |].
        split; [now apply Qlt_trans with (Vector3.dot v (fst e)) |].
        split; [| exact Hpost].
        intros x [<- | Hx]; [exact Hlt | now apply Hpre].
    + apply Qltb_false in E.
      destruct (IH m b)
        as [[Hr Hall] | [pre [entry [post [Hax [Hr [Hlt [Hpre Hpost]]]]]]]].
      * left. split; [exact Hr |].
        intros x [<- | Hx]; [exact E | now apply Hall].
      * right. exists (e :: pre), entry, post.
        split; [rewrite Hax; reflexivity |]. split; [exact Hr |].
        split; [exact Hlt |]. split; [| exact Hpost].
        intros x [<- | Hx]; [| now apply Hpre].
        now apply Qle_lt_trans with m.
Qed.

Lemma bestIndex_of_first_largest (v : Vector3.t)
  (axes : list (Vector3.t * nat)) :
  axes <> [] ->
  exists pre entry post,
    axes = pre ++ entry :: post /\
    bestIndex_of v axes = snd entry /\
    (forall e, In e pre ->
               (Vector3.dot v (fst e) < Vector3.dot v (fst entry))%Q) /\
    (forall e, In e post ->
               (Vector3.dot v (fst e) <= Vector3.dot v (fst entry))%Q).
Proof.
  destruct axes as [| e rest]; [congruence | intros _].
  unfold bestIndex_of. cbn [fold_left]. unfold nearer at 2.
  cbn [fst snd exceeds].
  destruct (best_fold v rest (Vector3.dot v (fst e)) (snd e))
    as [[Hr Hall] | [pre [entry [post [Hax [Hr [Hlt [Hpre Hpost]]]]]]]];
    rewrite Hr.
  - exists [], e, rest.
    split; [reflexivity |]. split; [reflexivity |].
    split; [intros x [] | exact Hall].
  - exists (e :: pre), entry, post.
    split; [rewrite Hax; reflexivity |]. split; [reflexivity |].
    split; [| exact Hpost].
    intros x [<- | Hx]; [exact Hlt | now apply Hpre].
Qed.

(** Away from the identity the lookup of [getFaceColor] and the rule of the
    specification part: [getFaceColor] rotates the normal of the queried
    face and takes the sticker of the axis it lands on, the rule takes the
    sticker of the face that lands on the queried direction.  For the corner
    piece of a cube of size 3 created at (2,2,2), were it turned by a third
    of a turn about its diagonal, [getFaceColor] would report white towards
    +X where the piece shows blue.  No state of a session holds such a
    piece. *)
Remark getFaceColor_follows_the_face_not_the_direction :
  let corner := createCubie 3 1 2 2 2 (offset_of 3) in
  let turned :=
    mkCubie (position corner)
            (Quaternion.mk (1 # 2) (1 # 2) (1 # 2) (1 # 2))
            (material corner) (userData corner) in
  getFaceColor turned 0 = COLORS_white /\
  spec_facingColor turned 0 = COLORS_blue.
Proof. vm_compute. split; reflexivity. Qed.

(** ** Layer selection *)

(** The tolerance test of [getCubiesInLayer] on a coordinate that sits on
    the grid is the equality of the grid coordinate with the layer, as long
    as the pieces are not thinner than the tolerance. *)
Lemma within_threshold_on_grid (k l : Z) (o cs p : Q) :
  (layer_threshold <= cs)%Q ->
  (p == (inject_Z k - o) * cs)%Q ->
  Qltb (Math_abs (p - (inject_Z l - o) * cs)) layer_threshold = (k =? l).
Proof.
  unfold layer_threshold, Math_abs. intros Hcs Hp.
  assert (E : (p - (inject_Z l - o) * cs == inject_Z (k - l) * cs)%Q).
  { rewrite Hp. unfold Zminus. rewrite inject_Z_plus, inject_Z_opp. ring. }
  destruct (Z.eqb_spec k l) as [-> | Hne].
  - apply Qltb_true. rewrite E, Z.sub_diag. change (inject_Z 0) with 0%Q.
    apply Qabs_case; intros; lra.
  - apply Qltb_false. rewrite E.
    destruct (Z.lt_ge_cases (k - l) 0) as [Hneg | Hpos].
    + assert (H1 : (inject_Z (k - l) <= -1)%Q).
      { change (-1)%Q with (inject_Z (-1)). rewrite <- Zle_Qle. lia. }
      apply Qabs_case; intros; nra.
    + assert (H1 : (1 <= inject_Z (k - l))%Q).
      { change 1%Q with (inject_Z 1). rewrite <- Zle_Qle. lia. }
      apply Qabs_case; intros; nra.
Qed.

Lemma filter_indexes_ext {A : Type} (p q : A -> bool) (l : list A) :
  (forall a, In a l -> p a = q a) ->
  forall i, filter_indexes p i l = filter_indexes q i l.
Proof.
  induction l as [| a l IH]; intros H i; simpl; [reflexivity |].
  rewrite (H a) by now left.
  rewrite (IH (fun b Hb => H b (or_intror Hb))). reflexivity.
Qed.

Lemma inLayer_on_grid this axis layer c :
  (layer_threshold <= cubeSize this)%Q ->
  on_grid this c ->
  inLayer this axis layer c =
  match coordinate axis (userData c) with
  | Some k => k =? layer
  | None => false
  end.
Proof.
  intros Hcs [Hx [Hy Hz]]. unfold inLayer, coordinate.
  destruct (axis =? "x")%string;
    [now apply within_threshold_on_grid |].
  destruct (axis =? "y")%string;
    [now apply within_threshold_on_grid |].
  destruct (axis =? "z")%string;
    [now apply within_threshold_on_grid | reflexivity].
Qed.

(** On a cube whose pieces sit on the grid the tolerance test picks by grid
    coordinate. *)
Lemma getCubiesInLayer_on_grid this axis layer :
  (layer_threshold <= cubeSize this)%Q ->
  Forall (on_grid this) (cubies this) ->
  getCubiesInLayer this axis layer = spec_layer this axis layer.
Proof.
  intros Hcs Hgrid. unfold getCubiesInLayer, spec_layer.
  apply filter_indexes_ext. intros c Hc.
  rewrite Forall_forall in Hgrid. now apply inLayer_on_grid; [| apply Hgrid].
Qed.

(** The selection is the tolerance test on the render position, whatever
    the grid coordinates say. *)
Lemma In_filter_indexes {A : Type} (p : A -> bool) (l : list A) :
  forall i k,
    In k (filter_indexes p i l) <->
    exists a, (i <= k)%nat /\ nth_error l (k - i) = Some a /\ p a = true.
Proof.
  induction l as [| a l IH]; intros i k; simpl.
  - split; [intros [] | intros [a [_ [H _]]]].
    destruct (k - i)%nat; discriminate.
  - assert (Hcons :
      In k (filter_indexes p (S i) l) <->
      exists b, (i <= k)%nat /\ nth_error (a :: l) (k - i) = Some b /\
                p b = true /\ k <> i).
    { rewrite IH. split.
      - intros [b [Hle [Hn Hp]]]. exists b.
        replace (k - i)%nat with (S (k - S i)) by lia. simpl.
        repeat split; try assumption; lia.
      - intros [b [Hle [Hn [Hp Hne]]]]. exists b.
        replace (k - i)%nat with (S (k - S i)) in Hn by lia. simpl in Hn.
        repeat split; try assumption; lia. }
    destruct (p a) eqn:Ea.
    + simpl. rewrite Hcons. split.
      * intros [<- | [b [Hle [Hn [Hp _]]]]].
        -- exists a. rewrite Nat.sub_diag. auto.
        -- exists b. auto.
      * intros [b [Hle [Hn Hp]]].
        destruct (Nat.eq_dec i k) as [-> | Hne]; [now left | right].
        exists b. repeat split; try assumption. congruence.
    + rewrite Hcons. split.
      * intros [b [Hle [Hn [Hp _]]]]. exists b. auto.
      * intros [b [Hle [Hn Hp]]]. exists b. repeat split; try assumption.
        intros ->. rewrite Nat.sub_diag in Hn. simpl in Hn. congruence.
Qed.

(** The test of [getCubiesInLayer], in the words of the render position. *)
Lemma inLayer_tolerance this axis layer cubie :
  inLayer this axis layer cubie = true <->
  exists p, render_coordinate axis cubie = Some p /\
            (Qabs (p - layer_position this layer) < layer_threshold)%Q.
Proof.
  unfold inLayer, render_coordinate, layer_position, Math_abs.
  destruct (axis =? "x")%string;
    [| destruct (axis =? "y")%string;
       [| destruct (axis =? "z")%string]];
    try (rewrite Qltb_true; split;
         [intros H; eexists; split; [reflexivity | exact H]
         | intros [p [[= <-] H]]; exact H]).
  split; [discriminate | intros [p [H _]]; discriminate].
Qed.

(** C2 (amended).  The selection is a tolerance test on the render
    position, not a comparison of grid coordinates: along the axis, every
    piece picked lies within the tolerance of the position of the layer and
    every piece within the tolerance is picked (the tolerance is 0.01; it
    is stated here with a margin of a tenth on either side, 0.011 and
    0.009, inside which the rounding of the subtraction decides).  On a
    cube whose pieces all sit on the grid and are at least two tolerances
    wide, the pieces picked for an axis and an integer layer index are
    exactly those whose grid coordinate along the axis equals the index. *)
Theorem C2_selection_by_position_tolerance
  (this : RubiksCube) (axis : string) (layerIndex : Z) :
  (forall k,
      In k (getCubiesInLayer this axis layerIndex) ->
      exists cubie p,
        nth_error (cubies this) k = Some cubie /\
        render_coordinate axis cubie = Some p /\
        (Qabs (p - layer_position this layerIndex) <= 11 # 1000)%Q) /\
  (forall k cubie p,
      nth_error (cubies this) k = Some cubie ->
      render_coordinate axis cubie = Some p ->
      (Qabs (p - layer_position this layerIndex) <= 9 # 1000)%Q ->
      In k (getCubiesInLayer this axis layerIndex)) /\
  ((2 * layer_threshold <= cubeSize this)%Q ->
   Forall (on_grid this) (cubies this) ->
   getCubiesInLayer this axis layerIndex = spec_layer this axis layerIndex).
Proof.
  assert (Hpick : forall k,
             In k (getCubiesInLayer this axis layerIndex) <->
             exists cubie,
               nth_error (cubies this) k = Some cubie /\
               inLayer this axis layerIndex cubie = true).
  { intros k. unfold getCubiesInLayer. rewrite In_filter_indexes.
    rewrite Nat.sub_0_r. split.
    - intros [a [_ [Hn Hp]]]. now exists a.
    - intros [a [Hn Hp]]. exists a. repeat split; try assumption. lia. }
  split; [| split].
  - intros k Hk. apply Hpick in Hk. destruct Hk as [cubie [Hn Hp]].
    apply inLayer_tolerance in Hp. destruct Hp as [p [Hr Hlt]].
    exists cubie, p. repeat split; try assumption.
    unfold layer_threshold in Hlt.
    apply Qle_trans with (1 # 100)%Q; [now apply Qlt_le_weak |].
    unfold Qle. simpl. lia.
  - intros k cubie p Hn Hr Hle. apply Hpick. exists cubie.
    split; [exact Hn |]. apply inLayer_tolerance. exists p.
    split; [exact Hr |]. unfold layer_threshold.
    apply Qle_lt_trans with (9 # 1000)%Q; [exact Hle |].
    unfold Qlt. simpl. lia.
  - intros Hcs. apply getCubiesInLayer_on_grid.
    unfold layer_threshold in *.
    apply Qle_trans with (2 * (1 # 100))%Q; [| exact Hcs].
    unfold Qle. simpl. lia.
Qed.

Lemma on_grid_createCubie this x y z :
  on_grid this
    (createCubie (size this) (cubeSize this) x y z (offset_of (size this))).
Proof. unfold on_grid. simpl. repeat split; reflexivity. Qed.

Lemma on_grid_new_RubiksCube (n : Z) :
  Forall (on_grid (new_RubiksCube n)) (cubies (new_RubiksCube n)).
Proof.
  apply Forall_forall. intros c Hc. rewrite cubies_new_RubiksCube in Hc.
  apply in_createCube in Hc. destruct Hc as [x [y [z [_ [_ ->]]]]].
  apply (on_grid_createCubie (new_RubiksCube n)).
Qed.

Lemma C2_selection_by_position_tolerance_witness :
  (2 * layer_threshold <= cubeSize (new_RubiksCube 3))%Q /\
  Forall (on_grid (new_RubiksCube 3)) (cubies (new_RubiksCube 3)) /\
  getCubiesInLayer (new_RubiksCube 3) "y" 2 =
  spec_layer (new_RubiksCube 3) "y" 2.
Proof.
  assert (Hcs : (2 * layer_threshold <= cubeSize (new_RubiksCube 3))%Q)
    by (vm_compute; discriminate).
  split; [exact Hcs |]. split; [apply on_grid_new_RubiksCube |].
  apply (proj2 (proj2 (C2_selection_by_position_tolerance
                         (new_RubiksCube 3) "y" 2)) Hcs
               (on_grid_new_RubiksCube 3)).
Defined.

(** C2 (as stated, refuted).  After one turn of the bottom layer of a fresh
    cube of size 2 all eight pieces carry the grid coordinate 1 along y:
    the four of the top layer, at render position 0.5, and the four that
    were turned, which the rounding of [updateCubiePosition] has left at
    render position 0.  For the layer index 1 of the axis y the code picks
    the four pieces of the top layer only, where equality on the grid
    coordinate picks all eight. *)
Lemma C2_selection_not_by_grid_equality :
  let this := State.currentPuzzle (rotate (initial_state 2) "y" 0 1 false) in
  map (fun c => UserData.y (userData c)) (cubies this) =
    [1; 1; 1; 1; 1; 1; 1; 1] /\
  map (fun c => Qred (Vector3.y (position c))) (cubies this) =
    [0; 0; 1 # 2; 1 # 2; 0; 0; 1 # 2; 1 # 2]%Q /\
  spec_layer this "y" 1 = [0; 1; 2; 3; 4; 5; 6; 7]%nat /\
  getCubiesInLayer this "y" 1 = [2; 3; 6; 7]%nat /\
  getCubiesInLayer this "y" 1 <> spec_layer this "y" 1.
Proof.
  vm_compute. repeat split; try reflexivity. discriminate.
Qed.

(** ** Four equal quarter turns *)

(** C8 (the code departs from the claim).  On a fresh cube of size 2, the
    turn [rotate('y', 1, 1, false)] issued four times does not bring the
    four pieces of the layer back: [updateCubiePosition] rounds their
    position along y from 1/2 to 1 and sets their grid coordinate to 2, no
    later turn of the layer picks them any more, and after the four calls
    their grid coordinate along y is 2 where it was 1. *)
Theorem C8_four_turns_on_size_2_do_not_restore :
  let turn s := rotate s "y" 1 1 false in
  let s0 := initial_state 2 in
  let s1 := turn s0 in
  let s4 := turn (turn (turn s1)) in
  let grid_y s :=
    map (fun c => UserData.y (userData c)) (cubies (State.currentPuzzle s)) in
  let position_y s :=
    map (fun c => Qred (Vector3.y (position c)))
        (cubies (State.currentPuzzle s)) in
  getCubiesInLayer (State.currentPuzzle s0) "y" 1 = [2; 3; 6; 7]%nat /\
  grid_y s0 = [0; 0; 1; 1; 0; 0; 1; 1] /\
  position_y s0 =
    [-1 # 2; -1 # 2; 1 # 2; 1 # 2; -1 # 2; -1 # 2; 1 # 2; 1 # 2]%Q /\
  getCubiesInLayer (State.currentPuzzle s1) "y" 1 = [] /\
  grid_y s4 = [0; 0; 2; 2; 0; 0; 2; 2] /\
  position_y s4 = [-1 # 2; -1 # 2; 1; 1; -1 # 2; -1 # 2; 1; 1]%Q /\
  State.moves s4 = 4.
Proof. vm_compute. repeat split; reflexivity. Qed.

(** ** Invalid arguments *)

Lemma currentPuzzle_rotate_begin s axis layer direction :
  State.currentPuzzle (fst (rotate_begin s axis layer direction)) =
  State.currentPuzzle s.
Proof.
  unfold rotate_begin. simpl.
  destruct (negb (State.isTimerRunning s) && State.isSolved s); reflexivity.
Qed.

Lemma moves_rotate_begin s axis layer direction :
  State.moves (fst (rotate_begin s axis layer direction)) = State.moves s + 1.
Proof.
  unfold rotate_begin. simpl.
  destruct (negb (State.isTimerRunning s) && State.isSolved s); reflexivity.
Qed.

Lemma isTimerRunning_rotate_begin s axis layer direction :
  State.isTimerRunning (fst (rotate_begin s axis layer direction)) =
  State.isTimerRunning s || State.isSolved s.
Proof.
  unfold rotate_begin. simpl.
  destruct (State.isTimerRunning s) eqn:Et, (State.isSolved s) eqn:Es;
    simpl; rewrite ?Et; reflexivity.
Qed.

Lemma isAnimating_rotate_begin s axis layer direction :
  State.isAnimating (fst (rotate_begin s axis layer direction)) = true.
Proof.
  unfold rotate_begin. simpl.
  destruct (negb (State.isTimerRunning s) && State.isSolved s); reflexivity.
Qed.

Lemma awaiting_rotate_begin s axis layer direction :
  State.awaiting (fst (rotate_begin s axis layer direction)) =
  State.awaiting s.
Proof.
  unfold rotate_begin. simpl.
  destruct (negb (State.isTimerRunning s) && State.isSolved s); reflexivity.
Qed.

Lemma moveQueue_rotate_begin s axis layer direction :
  State.moveQueue (fst (rotate_begin s axis layer direction)) =
  State.moveQueue s.
Proof.
  unfold rotate_begin. simpl.
  destruct (negb (State.isTimerRunning s) && State.isSolved s); reflexivity.
Qed.

Lemma snd_rotate_begin s axis layer direction :
  snd (rotate_begin s axis layer direction) =
  getCubiesInLayer (State.currentPuzzle s) axis layer.
Proof.
  unfold rotate_begin. simpl.
  destruct (negb (State.isTimerRunning s) && State.isSolved s); reflexivity.
Qed.

(** The end of a turn on an empty queue: the state it leaves. *)
Lemma rotate_end_empty_queue s axis direction sel :
  State.moveQueue s = [] ->
  let this :=
    set_rotation Euler.zero
      (set_cubies (moveBackAll (State.currentPuzzle s) axis direction sel)
                  (State.currentPuzzle s)) in
  let s1 := State.set_isAnimating false (State.set_currentPuzzle this s) in
  rotate_end s axis direction sel =
  if isSolved this then stopTimer (State.set_isSolved true s1) else s1.
Proof.
  intros Hq. unfold rotate_end. cbv zeta.
  destruct (isSolved _); simpl; rewrite Hq; reflexivity.
Qed.

Lemma filter_indexes_false {A : Type} (l : list A) (i : nat) :
  filter_indexes (fun _ => false) i l = [].
Proof.
  revert i. induction l as [| a l IH]; intros i; simpl; [reflexivity |].
  apply IH.
Qed.

Lemma spec_layer_invalid this axis layer :
  Forall (grid_in_range this) (cubies this) ->
  ~ valid_turn this axis layer ->
  spec_layer this axis layer = [].
Proof.
  intros Hr Hinv. unfold spec_layer.
  assert (E : forall i,
    filter_indexes
      (fun cubie =>
         match coordinate axis (userData cubie) with
         | Some k => k =? layer
         | None => false
         end) i (cubies this)
    = filter_indexes (fun _ => false) i (cubies this)).
  { apply filter_indexes_ext. intros c Hc.
    rewrite Forall_forall in Hr. destruct (Hr c Hc) as [Hx [Hy Hz]].
    unfold coordinate.
    destruct (String.eqb_spec axis "x") as [-> | _].
    { apply Z.eqb_neq. intros E. apply Hinv. split; [auto | lia]. }
    destruct (String.eqb_spec axis "y") as [-> | _].
    { apply Z.eqb_neq. intros E. apply Hinv. split; [auto | lia]. }
    destruct (String.eqb_spec axis "z") as [-> | _]; [| reflexivity].
    apply Z.eqb_neq. intros E. apply Hinv. split; [auto | lia]. }
  rewrite E. apply filter_indexes_false.
Qed.

(** C9 (amended).  A [rotate] call with an unrecognized axis or with an
    integer layer index outside [0, N-1] is not rejected and signals
    nothing.  Issued when no turn is in progress, on a cube whose pieces
    sit on the grid and are at least two tolerances wide, it picks no piece
    and is accepted like any other turn: the turn is marked in progress,
    the move counter goes up by one and the timer is started when the
    solved flag is set.  With one of the axes x, y, z and a layer index out
    of range the call then runs to its end and moves no piece, at once
    without animation and at the end of the animation with it. *)
Theorem C9_invalid_turn_is_accepted
  (s : State.t) (axis : string) (layer direction : Z) :
  let this := State.currentPuzzle s in
  idle s ->
  (2 * layer_threshold <= cubeSize this)%Q ->
  Forall (on_grid this) (cubies this) ->
  Forall (grid_in_range this) (cubies this) ->
  ~ valid_turn this axis layer ->
  getCubiesInLayer this axis layer = [] /\
  (let accepted := rotate_begin s axis layer direction in
   snd accepted = [] /\
   State.isAnimating (fst accepted) = true /\
   State.moves (fst accepted) = State.moves s + 1 /\
   State.isTimerRunning (fst accepted) =
     State.isTimerRunning s || State.isSolved s) /\
  ((axis = "x" \/ axis = "y" \/ axis = "z")%string ->
   (let s' := rotate s axis layer direction false in
    cubies (State.currentPuzzle s') = cubies this /\
    State.moves s' = State.moves s + 1 /\ idle s') /\
   (let s' := rotate s axis layer direction true in
    cubies (State.currentPuzzle s') = cubies this /\
    State.moves s' = State.moves s + 1 /\
    State.isAnimating s' = true /\
    State.isTimerRunning s' = State.isTimerRunning s || State.isSolved s /\
    cubies (State.currentPuzzle (animationDone s')) = cubies this)).
Proof.
  intros this [Hanim [Hq Haw]] Hcs2 Hgrid Hrange Hinv.
  assert (Hcs : (layer_threshold <= cubeSize this)%Q).
  { unfold layer_threshold in *.
    apply Qle_trans with (2 * (1 # 100))%Q; [| exact Hcs2].
    unfold Qle. simpl. lia. }
  assert (Hsel : getCubiesInLayer this axis layer = []).
  { rewrite getCubiesInLayer_on_grid by assumption.
    now apply spec_layer_invalid. }
  split; [exact Hsel |].
  pose proof (currentPuzzle_rotate_begin s axis layer direction) as Hcube.
  pose proof (moves_rotate_begin s axis layer direction) as Hmoves.
  pose proof (moveQueue_rotate_begin s axis layer direction) as Hqueue.
  pose proof (isTimerRunning_rotate_begin s axis layer direction) as Htimer.
  pose proof (isAnimating_rotate_begin s axis layer direction) as Hanim1.
  pose proof (awaiting_rotate_begin s axis layer direction) as Hawait.
  pose proof (snd_rotate_begin s axis layer direction) as Hsnd.
  fold this in Hsnd. rewrite Hsel in Hsnd. rewrite Hq in Hqueue.
  rewrite Haw in Hawait.
  split; [cbv zeta; auto |].
  intros _.
  destruct (rotate_begin s axis layer direction) as [s1 sel] eqn:Hbegin.
  simpl in Hcube, Hmoves, Hqueue, Hsnd, Htimer, Hanim1, Hawait. subst sel.
  split.
  - unfold rotate. rewrite Hanim, Hbegin.
    rewrite rotate_end_empty_queue by exact Hqueue. cbv zeta.
    unfold moveBackAll. simpl. rewrite Hcube. fold this.
    unfold idle.
    destruct (isSolved _); simpl; rewrite Hmoves, Hqueue, Hawait; auto.
  - unfold rotate, rotate_animated. rewrite Hanim, Hbegin.
    simpl. rewrite Hcube, Hmoves, Htimer, Hanim1. fold this.
    repeat (split; [reflexivity |]).
    unfold animationDone. simpl.
    rewrite rotate_end_empty_queue by exact Hqueue. cbv zeta.
    unfold moveBackAll. simpl. rewrite Hcube.
    destruct (isSolved _); reflexivity.
Qed.

Lemma grid_in_range_new_RubiksCube (n : Z) :
  Forall (grid_in_range (new_RubiksCube n)) (cubies (new_RubiksCube n)).
Proof.
  apply Forall_forall. intros c Hc. rewrite cubies_new_RubiksCube in Hc.
  apply in_createCube in Hc. destruct Hc as [x [y [z [Hr [_ ->]]]]].
  unfold grid_in_range. simpl. lia.
Qed.

Lemma idle_initial_state (n : Z) : idle (initial_state n).
Proof. repeat split. Qed.

Lemma C9_invalid_turn_is_accepted_witness :
  let s := initial_state 3 in
  let this := State.currentPuzzle s in
  (idle s /\ (2 * layer_threshold <= cubeSize this)%Q /\
   Forall (on_grid this) (cubies this) /\
   Forall (grid_in_range this) (cubies this) /\
   ~ valid_turn this "x" 5) /\
  State.moves (fst (rotate_begin s "x" 5 1)) = State.moves s + 1 /\
  State.moves (rotate s "x" 5 1 false) = State.moves s + 1.
Proof.
  cbv zeta.
  assert (Hcs : (2 * layer_threshold <=
                 cubeSize (State.currentPuzzle (initial_state 3)))%Q)
    by (vm_compute; discriminate).
  assert (Hinv : ~ valid_turn (State.currentPuzzle (initial_state 3)) "x" 5)
    by (intros [_ H]; simpl in H; lia).
  split.
  - split; [apply idle_initial_state |]. split; [exact Hcs |].
    split; [apply (on_grid_new_RubiksCube 3) |].
    split; [apply (grid_in_range_new_RubiksCube 3) | exact Hinv].
  - pose proof (C9_invalid_turn_is_accepted (initial_state 3) "x" 5 1
                  (idle_initial_state 3) Hcs (on_grid_new_RubiksCube 3)
                  (grid_in_range_new_RubiksCube 3) Hinv) as H.
    cbv zeta in H. destruct H as [_ [[_ [_ [Hm _]]] Hrun]].
    split; [exact Hm |].
    destruct (Hrun (or_introl eq_refl)) as [[_ [Hm' _]] _]. exact Hm'.
Defined.

(** C9 (as stated, refuted).  On a fresh cube of size 3 neither the call
    with layer index 5 nor the call with axis "w" leaves the state as it
    was: each is counted as a move. *)
Lemma C9_invalid_turn_not_rejected :
  ~ rejected_without_mutation (initial_state 3) "x" 5 1 false /\
  ~ rejected_without_mutation (initial_state 3) "w" 0 1 false /\
  State.moves (rotate (initial_state 3) "x" 5 1 false) = 1 /\
  State.moves (rotate (initial_state 3) "w" 0 1 false) = 1.
Proof.
  unfold rejected_without_mutation.
  repeat split; try reflexivity;
    intros H; apply (f_equal State.moves) in H; vm_compute in H;
    discriminate.
Qed.

(** A turn issued without animation on an idle session runs to its end. *)
Lemma rotate_now_idle s m :
  idle s ->
  let s' := rotate s (Move.axis m) (Move.layer m) (Move.direction m) false in
  idle s' /\
  State.currentPuzzle s' = turn (State.currentPuzzle s) m /\
  State.moves s' = State.moves s + 1.
Proof.
  intros [Hanim [Hq Haw]]. unfold rotate. rewrite Hanim.
  pose proof (currentPuzzle_rotate_begin s (Move.axis m) (Move.layer m)
                (Move.direction m)) as Hcube.
  pose proof (moves_rotate_begin s (Move.axis m) (Move.layer m)
                (Move.direction m)) as Hmoves.
  pose proof (moveQueue_rotate_begin s (Move.axis m) (Move.layer m)
                (Move.direction m)) as Hqueue.
  pose proof (awaiting_rotate_begin s (Move.axis m) (Move.layer m)
                (Move.direction m)) as Hawait.
  pose proof (snd_rotate_begin s (Move.axis m) (Move.layer m)
                (Move.direction m)) as Hsnd.
  rewrite Hq in Hqueue. rewrite Haw in Hawait.
  destruct (rotate_begin s _ _ _) as [s1 sel].
  simpl in Hcube, Hmoves, Hqueue, Hawait, Hsnd. subst sel.
  rewrite rotate_end_empty_queue by exact Hqueue. cbv zeta. simpl.
  rewrite Hcube. unfold idle, turn.
  destruct (isSolved _); simpl; rewrite Hmoves, Hqueue, Hawait; auto.
Qed.

(** ** The quarter turn on a cube of odd size *)

Lemma Math_round_grid (j : Z) (cs w : Q) :
  (0 < cs)%Q -> (w == inject_Z j * cs)%Q -> Math_round (w / cs) = j.
Proof.
  intros Hcs Hw. unfold Math_round.
  assert (E : (w / cs + (1 # 2) == inject_Z j + (1 # 2))%Q).
  { rewrite Hw. field. lra. }
  rewrite E.
  pose proof (Qfloor_le (inject_Z j + (1 # 2))) as H1.
  pose proof (Qlt_floor (inject_Z j + (1 # 2))) as H2.
  set (f := Qfloor (inject_Z j + (1 # 2))) in *.
  assert (Hlo : (inject_Z f < inject_Z (j + 1))%Q).
  { rewrite inject_Z_plus. change (inject_Z 1) with 1%Q. lra. }
  assert (Hhi : (inject_Z j < inject_Z (f + 1))%Q) by lra.
  rewrite <- Zlt_Qlt in Hlo, Hhi. lia.
Qed.

(** One coordinate through [updateCubiePosition], when the world position
    is [j] pieces from the centre and the centre is on the grid. *)
Lemma snap_to_grid (j h : Z) (cs o w : Q) :
  (0 < cs)%Q -> (o == inject_Z h)%Q -> (w == inject_Z j * cs)%Q ->
  let p' := (inject_Z (Math_round (w / cs)) * cs)%Q in
  let k' := Math_round (p' / cs + o) in
  k' = j + h /\ (p' == (inject_Z k' - o) * cs)%Q.
Proof.
  intros Hcs Ho Hw p' k'.
  assert (Hr : Math_round (w / cs) = j) by now apply Math_round_grid.
  assert (Hk : k' = j + h).
  { subst k' p'. rewrite Hr.
    assert (E : (inject_Z j * cs / cs + o == inject_Z (j + h) * cs / cs)%Q).
    { rewrite Ho, inject_Z_plus. field. lra. }
    unfold Math_round. rewrite E.
    apply (Math_round_grid (j + h) cs (inject_Z (j + h) * cs) Hcs).
    reflexivity. }
  split; [exact Hk |]. rewrite Hk. subst p'. rewrite Hr, Ho, inject_Z_plus.
  ring.
Qed.

Lemma quarter_cos_Z (d : Z) : quarter_cos d = inject_Z (quarter_cosZ d).
Proof.
  unfold quarter_cos, quarter_cosZ.
  destruct (d mod 4) as [| [[| |] | [| |] |] |]; reflexivity.
Qed.

Lemma quarter_sin_Z (d : Z) : quarter_sin d = inject_Z (quarter_sinZ d).
Proof.
  unfold quarter_sin, quarter_sinZ.
  destruct (d mod 4) as [| [[| |] | [| |] |] |]; reflexivity.
Qed.

Lemma offset_of_odd (h : Z) : (offset_of (2 * h + 1) == inject_Z h)%Q.
Proof.
  unfold offset_of. rewrite inject_Z_plus, inject_Z_mult.
  change (inject_Z 2) with 2%Q. change (inject_Z 1) with 1%Q. field.
Qed.

Lemma half_of_odd (h : Z) : (2 * h + 1 - 1) / 2 = h.
Proof.
  replace (2 * h + 1 - 1) with (h * 2) by lia. apply Z.div_mul. lia.
Qed.

Lemma updateCubiePosition_on_grid this c axis d (jx jy jz h : Z) :
  size this = 2 * h + 1 -> (0 < cubeSize this)%Q ->
  (Vector3.x (position c) == inject_Z jx * cubeSize this)%Q ->
  (Vector3.y (position c) == inject_Z jy * cubeSize this)%Q ->
  (Vector3.z (position c) == inject_Z jz * cubeSize this)%Q ->
  let c' := updateCubiePosition this c axis d in
  on_grid this c' /\ gridPosition c' = (jx + h, jy + h, jz + h).
Proof.
  intros Hn Hcs Hx Hy Hz c'.
  assert (Ho : (offset_of (size this) == inject_Z h)%Q)
    by (rewrite Hn; apply offset_of_odd).
  destruct (snap_to_grid jx h _ _ _ Hcs Ho Hx) as [Ekx Epx].
  destruct (snap_to_grid jy h _ _ _ Hcs Ho Hy) as [Eky Epy].
  destruct (snap_to_grid jz h _ _ _ Hcs Ho Hz) as [Ekz Epz].
  split.
  - unfold on_grid. subst c'. unfold updateCubiePosition. simpl.
    repeat split; assumption.
  - subst c'. unfold gridPosition, updateCubiePosition. simpl.
    rewrite Ekx, Eky, Ekz. reflexivity.
Qed.

Lemma world_position_on_grid this axis d c (h : Z) :
  size this = 2 * h + 1 ->
  rotationGroup_rotation this = Euler_set axis d Euler.zero ->
  on_grid this c ->
  let g' := spec_rotate_grid (size this) axis d (gridPosition c) in
  let w := getWorldPosition this c in
  (Vector3.x w == inject_Z (fst (fst g') - h) * cubeSize this)%Q /\
  (Vector3.y w == inject_Z (snd (fst g') - h) * cubeSize this)%Q /\
  (Vector3.z w == inject_Z (snd g' - h) * cubeSize this)%Q.
Proof.
  intros Hn Hrot [Hx [Hy Hz]].
  assert (Ho : (offset_of (size this) == inject_Z h)%Q)
    by (rewrite Hn; apply offset_of_odd).
  unfold getWorldPosition, spec_rotate_grid, gridPosition. rewrite Hrot, Hn.
  rewrite half_of_odd. unfold Euler_set, Euler.apply.
  destruct (axis =? "x")%string;
    [| destruct (axis =? "y")%string; [| destruct (axis =? "z")%string]];
    cbn [Euler.x Euler.y Euler.z Euler.zero Euler.rotX Euler.rotY Euler.rotZ
         Vector3.x Vector3.y Vector3.z fst snd];
    change (quarter_cos 0) with 1%Q; change (quarter_sin 0) with 0%Q;
    rewrite ?quarter_cos_Z, ?quarter_sin_Z;
    rewrite Hx, Hy, Hz, Ho; unfold Z.sub;
    repeat (rewrite inject_Z_plus || rewrite inject_Z_mult
            || rewrite inject_Z_opp);
    repeat split; ring.
Qed.

(** A piece on the grid of a cube of odd size is carried by [moveBack] to
    the grid position the integer quarter turn gives, and sits on the grid
    there. *)
Lemma moveBack_on_grid this axis d c (h : Z) :
  size this = 2 * h + 1 -> (0 < cubeSize this)%Q ->
  rotationGroup_rotation this = Euler_set axis d Euler.zero ->
  on_grid this c ->
  on_grid this (moveBack this axis d c) /\
  gridPosition (moveBack this axis d c) =
  spec_rotate_grid (size this) axis d (gridPosition c).
Proof.
  intros Hn Hcs Hrot Hgrid.
  destruct (world_position_on_grid this axis d c h Hn Hrot Hgrid)
    as [Hx [Hy Hz]].
  cbv zeta in Hx, Hy, Hz.
  unfold moveBack.
  destruct (updateCubiePosition_on_grid this
              (mkCubie (getWorldPosition this c) (quaternion c) (material c)
                       (userData c))
              axis d _ _ _ h Hn Hcs Hx Hy Hz) as [Hg Hp].
  split; [exact Hg |]. rewrite Hp.
  destruct (spec_rotate_grid (size this) axis d (gridPosition c)) as [[x y] z].
  simpl. f_equal; [f_equal |]; lia.
Qed.

Lemma update_nth_app {A : Type} (f : A -> A) (pre : list A) (a : A)
  (l : list A) :
  update_nth (List.length pre) f (pre ++ a :: l) = pre ++ f a :: l.
Proof.
  induction pre as [| b pre IH]; simpl; [reflexivity |]. now rewrite IH.
Qed.

(** Updating at the indexes of the elements that pass a test is mapping
    over the list. *)
Lemma fold_update_filter_indexes {A : Type} (p : A -> bool) (f : A -> A)
  (l : list A) :
  forall pre,
    fold_left (fun cs i => update_nth i f cs)
              (filter_indexes p (List.length pre) l) (pre ++ l)
    = pre ++ map (fun a => if p a then f a else a) l.
Proof.
  induction l as [| a l IH]; intros pre; simpl; [reflexivity |].
  destruct (p a); simpl.
  - rewrite update_nth_app.
    change (pre ++ f a :: l) with (pre ++ [f a] ++ l).
    rewrite app_assoc.
    replace (S (List.length pre)) with (List.length (pre ++ [f a]))
      by (rewrite length_app; simpl; lia).
    rewrite IH, <- app_assoc. reflexivity.
  - change (pre ++ a :: l) with (pre ++ [a] ++ l).
    rewrite app_assoc.
    replace (S (List.length pre)) with (List.length (pre ++ [a]))
      by (rewrite length_app; simpl; lia).
    rewrite IH, <- app_assoc. reflexivity.
Qed.

(** A turn acts piece by piece. *)
Lemma turn_by_piece this m :
  rotationGroup_rotation this = Euler.zero ->
  turn this m = set_cubies (map (turn_piece this m) (cubies this)) this.
Proof.
  intros Hrot. unfold turn, moveBackAll, getCubiesInLayer.
  change (cubies (applyRotation this (Move.axis m) (Move.direction m)))
    with (cubies this).
  pose proof (fold_update_filter_indexes
                (inLayer this (Move.axis m) (Move.layer m))
                (moveBack
                   (applyRotation this (Move.axis m) (Move.direction m))
                   (Move.axis m) (Move.direction m))
                (cubies this) []) as H.
  simpl in H. rewrite H.
  unfold set_rotation, set_cubies, applyRotation. simpl.
  rewrite <- Hrot. reflexivity.
Qed.

Lemma coordinate_gridPosition axis c :
  coordinate axis (userData c) = grid_coordinate axis (gridPosition c).
Proof. reflexivity. Qed.

Lemma grid_coordinate_rotate_grid n axis d g :
  grid_coordinate axis (spec_rotate_grid n axis d g) = grid_coordinate axis g.
Proof.
  destruct g as [[x y] z]. unfold spec_rotate_grid, grid_coordinate.
  destruct (axis =? "x")%string; [reflexivity |].
  destruct (axis =? "y")%string; [reflexivity |].
  destruct (axis =? "z")%string; reflexivity.
Qed.

(** The integer quarter turn has order 4. *)
Lemma rotate_grid_four n axis d g :
  let turn1 := spec_rotate_grid n axis d in
  turn1 (turn1 (turn1 (turn1 g))) = g.
Proof.
  cbv zeta. destruct g as [[x y] z]. unfold spec_rotate_grid.
  generalize ((n - 1) / 2). intros h.
  assert (E : d mod 4 = 0 \/ d mod 4 = 1 \/ d mod 4 = 2 \/ d mod 4 = 3)
    by (pose proof (Z.mod_pos_bound d 4 ltac:(lia)); lia).
  unfold quarter_cosZ, quarter_sinZ.
  destruct (axis =? "x")%string;
    [| destruct (axis =? "y")%string;
       [| destruct (axis =? "z")%string; [| reflexivity]]];
    destruct E as [-> | [-> | [-> | ->]]];
    rewrite !pair_equal_spec; repeat split; lia.
Qed.

Lemma turn_piece_on_grid this m c (h : Z) :
  size this = 2 * h + 1 -> (layer_threshold <= cubeSize this)%Q ->
  rotationGroup_rotation this = Euler.zero ->
  on_grid this c ->
  let c' := turn_piece this m c in
  on_grid this c' /\
  quaternion c' = quaternion c /\ material c' = material c /\
  origin c' = origin c /\
  gridPosition c' =
  if in_grid_layer m (gridPosition c)
  then spec_rotate_grid (size this) (Move.axis m) (Move.direction m)
                   (gridPosition c)
  else gridPosition c.
Proof.
  intros Hn Hcs Hrot Hgrid c'. subst c'. unfold turn_piece, in_grid_layer.
  rewrite (inLayer_on_grid this _ _ c Hcs Hgrid), coordinate_gridPosition.
  destruct (match grid_coordinate _ _ with Some _ => _ | None => _ end).
  - assert (Hpos : (0 < cubeSize this)%Q)
      by (unfold layer_threshold in Hcs; lra).
    assert (Hrot' :
      rotationGroup_rotation
        (applyRotation this (Move.axis m) (Move.direction m))
      = Euler_set (Move.axis m) (Move.direction m) Euler.zero)
      by (unfold applyRotation; simpl; now rewrite Hrot).
    destruct (moveBack_on_grid
                (applyRotation this (Move.axis m) (Move.direction m))
                (Move.axis m) (Move.direction m) c h Hn Hpos Hrot' Hgrid)
      as [Hg Hp].
    repeat split; try reflexivity.
    + apply Hg.
    + apply Hg.
    + apply Hg.
    + exact Hp.
  - repeat split; try reflexivity; apply Hgrid.
Qed.

Lemma in_grid_layer_rotate_grid n m g :
  in_grid_layer m (spec_rotate_grid n (Move.axis m) (Move.direction m) g) =
  in_grid_layer m g.
Proof.
  unfold in_grid_layer. now rewrite grid_coordinate_rotate_grid.
Qed.

Lemma userData_by_grid_and_origin c' c :
  gridPosition c' = gridPosition c -> origin c' = origin c ->
  userData c' = userData c.
Proof.
  unfold gridPosition, origin.
  destruct (userData c'), (userData c). simpl. congruence.
Qed.

Lemma same_piece_on_grid this c' c :
  on_grid this c' -> on_grid this c ->
  userData c' = userData c -> quaternion c' = quaternion c ->
  material c' = material c ->
  same_piece c' c.
Proof.
  intros [Hx' [Hy' Hz']] [Hx [Hy Hz]] Hu Hq Hm. unfold same_piece.
  repeat (split; [assumption |]).
  rewrite Hx', Hy', Hz', Hx, Hy, Hz, Hu. repeat split; reflexivity.
Qed.

(** Four equal quarter turns bring a piece on the grid of a cube of odd
    size back. *)
Lemma turn_piece_four this m c (h : Z) :
  size this = 2 * h + 1 -> (layer_threshold <= cubeSize this)%Q ->
  rotationGroup_rotation this = Euler.zero ->
  on_grid this c ->
  same_piece
    (turn_piece this m (turn_piece this m (turn_piece this m
       (turn_piece this m c))))
    c.
Proof.
  intros Hn Hcs Hrot H0.
  destruct (turn_piece_on_grid this m c h Hn Hcs Hrot H0)
    as [H1 [Q1 [M1 [O1 G1]]]].
  destruct (turn_piece_on_grid this m _ h Hn Hcs Hrot H1)
    as [H2 [Q2 [M2 [O2 G2]]]].
  destruct (turn_piece_on_grid this m _ h Hn Hcs Hrot H2)
    as [H3 [Q3 [M3 [O3 G3]]]].
  destruct (turn_piece_on_grid this m _ h Hn Hcs Hrot H3)
    as [H4 [Q4 [M4 [O4 G4]]]].
  cbv zeta in *.
  apply (same_piece_on_grid this); try assumption; try congruence.
  apply userData_by_grid_and_origin; [| congruence].
  destruct (in_grid_layer m (gridPosition c)) eqn:E.
  - rewrite G1 in G2. rewrite !in_grid_layer_rotate_grid, E in G2.
    rewrite G2 in G3. rewrite !in_grid_layer_rotate_grid, E in G3.
    rewrite G3 in G4. rewrite !in_grid_layer_rotate_grid, E in G4.
    rewrite G4. apply rotate_grid_four.
  - rewrite G1 in G2. rewrite E in G2.
    rewrite G2 in G3. rewrite E in G3.
    rewrite G3 in G4. rewrite E in G4.
    exact G4.
Qed.

(** The order-4 property of the quarter turn holds on every cube of odd
    size whose pieces sit on the grid: the same turn applied four times
    brings every piece back to its grid position, orientation and place. *)
Lemma four_turns_restore_on_odd_size this m :
  Z.odd (size this) = true -> (layer_threshold <= cubeSize this)%Q ->
  rotationGroup_rotation this = Euler.zero ->
  Forall (on_grid this) (cubies this) ->
  Forall2 same_piece
    (cubies (turn (turn (turn (turn this m) m) m) m)) (cubies this).
Proof.
  intros Hodd Hcs Hrot Hgrid.
  assert (Hn : exists h, size this = 2 * h + 1).
  { apply Zodd_bool_iff in Hodd. now apply Zodd_ex_iff in Hodd. }
  destruct Hn as [h Hn].
  rewrite (turn_by_piece this m Hrot).
  rewrite (turn_by_piece (set_cubies _ this) m Hrot).
  rewrite (turn_by_piece (set_cubies _ (set_cubies _ this)) m Hrot).
  rewrite (turn_by_piece
             (set_cubies _ (set_cubies _ (set_cubies _ this))) m Hrot).
  cbn [cubies set_cubies]. rewrite !map_map.
  induction Hgrid as [| c l Hc Hl IH]; simpl; constructor.
  - apply (turn_piece_four this m c h Hn Hcs Hrot Hc).
  - exact IH.
Qed.

(** Issued without animation on an idle session, on a cube of odd size whose
    pieces sit on the grid, the same [rotate] call four times brings every
    piece back. *)
Lemma rotate_four_times_on_odd_size s m :
  idle s ->
  Z.odd (size (State.currentPuzzle s)) = true ->
  (layer_threshold <= cubeSize (State.currentPuzzle s))%Q ->
  rotationGroup_rotation (State.currentPuzzle s) = Euler.zero ->
  Forall (on_grid (State.currentPuzzle s)) (cubies (State.currentPuzzle s)) ->
  let once s :=
    rotate s (Move.axis m) (Move.layer m) (Move.direction m) false in
  Forall2 same_piece
    (cubies (State.currentPuzzle (once (once (once (once s))))))
    (cubies (State.currentPuzzle s)).
Proof.
  intros H0 Hodd Hcs Hrot Hgrid once. subst once. cbv beta.
  destruct (rotate_now_idle s m H0) as [H1 [C1 _]].
  destruct (rotate_now_idle _ m H1) as [H2 [C2 _]].
  destruct (rotate_now_idle _ m H2) as [H3 [C3 _]].
  destruct (rotate_now_idle _ m H3) as [_ [C4 _]].
  cbv zeta in C1, C2, C3, C4. rewrite C4, C3, C2, C1.
  now apply four_turns_restore_on_odd_size.
Qed.

(** ** Timer *)

Lemma currentPuzzle_rotate_end_empty_queue s axis direction sel :
  State.moveQueue s = [] ->
  State.currentPuzzle (rotate_end s axis direction sel) =
  set_rotation Euler.zero
    (set_cubies (moveBackAll (State.currentPuzzle s) axis direction sel)
                (State.currentPuzzle s)).
Proof.
  intros Hq. rewrite rotate_end_empty_queue by exact Hq. cbv zeta.
  destruct (isSolved _); reflexivity.
Qed.

Lemma isTimerRunning_rotate_end s axis direction sel :
  State.moveQueue s = [] ->
  State.isTimerRunning (rotate_end s axis direction sel) =
  if isSolved (State.currentPuzzle (rotate_end s axis direction sel))
  then false
  else State.isTimerRunning s.
Proof.
  intros Hq. rewrite currentPuzzle_rotate_end_empty_queue by exact Hq.
  rewrite rotate_end_empty_queue by exact Hq. cbv zeta.
  destruct (isSolved _); reflexivity.
Qed.

(** C10 (amended).  The timer is started when a turn is accepted while the
    timer is not running and the solved flag is set, whoever issued the
    turn, and it is stopped when the solved check at the end of a turn
    succeeds.  So for a turn issued when nothing is in progress: an animated
    turn has the timer running from its acceptance, if the flag was set or
    the timer ran already; at the end of the turn, animated or not, the
    timer is off if the cube is solved and is as it was at acceptance
    otherwise; and a scramble of one turn leaves the timer as that turn,
    issued without animation, leaves it. *)
Theorem C10_timer_started_by_any_accepted_turn
  (random : nat -> Q) (s : State.t) (axis : string) (layer direction : Z) :
  idle s ->
  let started := State.isTimerRunning s || State.isSolved s in
  let s1 := rotate s axis layer direction true in
  let s2 := rotate s axis layer direction false in
  State.isTimerRunning s1 = started /\
  State.isTimerRunning (animationDone s1) =
    (if isSolved (State.currentPuzzle (animationDone s1))
     then false else started) /\
  State.isTimerRunning s2 =
    (if isSolved (State.currentPuzzle s2) then false else started) /\
  (let m := scramble_move random (size (State.currentPuzzle s)) 0 in
   let s3 := rotate s (Move.axis m) (Move.layer m) (Move.direction m) false in
   State.isTimerRunning (scramble random s (Some 1)) =
   State.isTimerRunning s3).
Proof.
  intros [Hanim [Hq Haw]] started s1 s2.
  cut (State.isTimerRunning s1 = started /\
       State.isTimerRunning (animationDone s1) =
         (if isSolved (State.currentPuzzle (animationDone s1))
          then false else started) /\
       State.isTimerRunning s2 =
         (if isSolved (State.currentPuzzle s2) then false else started)).
  { intros [H1 [H2 H3]]. repeat (split; [assumption |]). reflexivity. }
  pose proof (isTimerRunning_rotate_begin s axis layer direction) as Htimer.
  pose proof (moveQueue_rotate_begin s axis layer direction) as Hqueue.
  rewrite Hq in Hqueue. fold started in Htimer.
  subst s1 s2. unfold rotate, rotate_animated. rewrite Hanim.
  destruct (rotate_begin s axis layer direction) as [sb sel].
  simpl in Htimer, Hqueue.
  split; [exact Htimer |]. split.
  - unfold animationDone. simpl.
    rewrite isTimerRunning_rotate_end by exact Hqueue.
    simpl. rewrite Htimer. reflexivity.
  - rewrite isTimerRunning_rotate_end by exact Hqueue.
    simpl. rewrite Htimer. reflexivity.
Qed.

Lemma C10_timer_started_by_any_accepted_turn_witness :
  idle (initial_state 3) /\
  State.isTimerRunning (rotate (initial_state 3) "x" 0 1 true) = true.
Proof.
  split; [apply idle_initial_state |].
  apply (C10_timer_started_by_any_accepted_turn
           (fun _ => 0%Q) (initial_state 3) "x" 0 1 (idle_initial_state 3)).
Defined.

(** C10 (as stated, refuted).  On a fresh, solved cube of size 3 with the
    timer off, a default scramble whose first draw is the turn (x, 0, +1)
    and whose other draws are (y, 1, -1) ends with the timer running: the
    first turn the scramble issued started it. *)
Lemma C10_scramble_starts_timer :
  let random (n : nat) : Q := if (n <? 3)%nat then 0%Q else (1 # 2)%Q in
  let s0 := initial_state 3 in
  State.isSolved s0 = true /\
  State.isTimerRunning s0 = false /\
  State.isTimerRunning (scramble random s0 None) = true /\
  State.isTimerRunning (scramble random s0 (Some 1)) = true.
Proof. vm_compute. repeat split; reflexivity. Qed.

(** ** The queue of turns *)

Lemma rotate_while_animating s axis layer direction animate :
  State.isAnimating s = true ->
  rotate s axis layer direction animate =
  State.set_moveQueue
    (State.moveQueue s ++ [Move.mk axis layer direction]) s.
Proof.
  intros H. unfold rotate. rewrite H. reflexivity.
Qed.

Lemma in_progress_set_moveQueue s m q :
  in_progress s m -> in_progress (State.set_moveQueue q s) m.
Proof. intros H. exact H. Qed.

(** Requests issued while a turn is in progress are appended to the queue,
    in the order of issue; nothing else changes. *)
Lemma issue_all_while_animating (rs : list Request) (s : State.t) :
  State.isAnimating s = true ->
  fold_left issue rs s =
  State.set_moveQueue (State.moveQueue s ++ map fst rs) s.
Proof.
  revert s. induction rs as [| [[a l d] animate] rs IH]; intros s H; simpl.
  - rewrite app_nil_r. now destruct s.
  - unfold issue at 2. simpl. rewrite rotate_while_animating by exact H.
    rewrite IH by exact H. simpl. rewrite <- app_assoc. reflexivity.
Qed.

(** An animated request on an idle state puts its turn in progress. *)
Lemma rotate_animated_starts s m :
  State.isAnimating s = false ->
  rotationGroup_rotation (State.currentPuzzle s) = Euler.zero ->
  let s' :=
    rotate_animated s (Move.axis m) (Move.layer m) (Move.direction m) in
  in_progress s' m /\
  State.currentPuzzle s' = State.currentPuzzle s /\
  State.moveQueue s' = State.moveQueue s /\
  State.moves s' = State.moves s + 1.
Proof.
  intros Hanim Hrot. unfold rotate_animated. rewrite Hanim.
  pose proof (currentPuzzle_rotate_begin s (Move.axis m) (Move.layer m)
                (Move.direction m)) as Hcube.
  pose proof (moves_rotate_begin s (Move.axis m) (Move.layer m)
                (Move.direction m)) as Hmoves.
  pose proof (moveQueue_rotate_begin s (Move.axis m) (Move.layer m)
                (Move.direction m)) as Hqueue.
  pose proof (isAnimating_rotate_begin s (Move.axis m) (Move.layer m)
                (Move.direction m)) as Hanim1.
  pose proof (snd_rotate_begin s (Move.axis m) (Move.layer m)
                (Move.direction m)) as Hsnd.
  destruct (rotate_begin s _ _ _) as [s1 sel].
  simpl in Hcube, Hmoves, Hqueue, Hanim1, Hsnd. subst sel.
  unfold in_progress. simpl. rewrite Hcube, Hrot, Hanim1.
  repeat split; try assumption.
  unfold Euler_get. simpl.
  destruct (Move.axis m =? "x")%string; [reflexivity |].
  destruct (Move.axis m =? "y")%string; [reflexivity |].
  destruct (Move.axis m =? "z")%string; reflexivity.
Qed.

Lemma turn_rotation_zero this m :
  rotationGroup_rotation (turn this m) = Euler.zero.
Proof. reflexivity. Qed.

(** The end of the animation of the turn in progress: its mutation is
    applied; with an empty queue the session is idle again, otherwise the
    head of the queue is taken and put in progress. *)
Lemma animationDone_in_progress s m :
  in_progress s m ->
  let s' := animationDone s in
  State.currentPuzzle s' = turn (State.currentPuzzle s) m /\
  match State.moveQueue s with
  | [] => idle s' /\ State.moves s' = State.moves s
  | next :: rest =>
      in_progress s' next /\ State.moveQueue s' = rest /\
      State.moves s' = State.moves s + 1
  end.
Proof.
  intros [Hanim [Hrot Haw]]. unfold animationDone. rewrite Haw. simpl.
  rewrite Hrot. unfold rotate_end.
  set (this' := set_rotation Euler.zero _).
  assert (Hturn : this' = turn (State.currentPuzzle s) m).
  { subst this'. unfold turn, applyRotation. rewrite Hrot. reflexivity. }
  set (s1 := if isSolved this' then _ else _).
  assert (H1 : State.currentPuzzle s1 = this' /\
               State.isAnimating s1 = false /\
               State.moveQueue s1 = State.moveQueue s /\
               State.awaiting s1 = None /\
               State.moves s1 = State.moves s).
  { subst s1. destruct (isSolved this'); simpl; auto. }
  destruct H1 as [Hc [Ha [Hq [Hw Hm]]]]. rewrite Hq.
  destruct (State.moveQueue s) as [| next rest].
  - rewrite Hc. split; [exact Hturn |]. unfold idle. auto.
  - assert (Ha' : State.isAnimating (State.set_moveQueue rest s1) = false)
      by exact Ha.
    assert (Hr' : rotationGroup_rotation
                    (State.currentPuzzle (State.set_moveQueue rest s1))
                  = Euler.zero)
      by (simpl; rewrite Hc; reflexivity).
    destruct (rotate_animated_starts _ next Ha' Hr') as [Hp [Hc' [Hq' Hm']]].
    cbv zeta in Hp, Hc', Hq', Hm'. simpl in Hc', Hq', Hm'.
    rewrite Hc'. rewrite Hc. split; [exact Hturn |].
    split; [exact Hp |]. split; [exact Hq' |]. rewrite Hm'. now rewrite Hm.
Qed.

(** With a turn in progress and [q] waiting, [k] ends of animation apply the
    first [k] of the turns, in order, and leave the others waiting. *)
Lemma drain (q : list Move.t) :
  forall (s : State.t) (m : Move.t) (k : nat),
    in_progress s m -> State.moveQueue s = q ->
    (k <= S (List.length q))%nat ->
    let s' := Nat.iter k animationDone s in
    State.currentPuzzle s' =
      fold_left turn (firstn k (m :: q)) (State.currentPuzzle s) /\
    State.moveQueue s' = skipn k q /\
    State.moves s' = State.moves s + Z.of_nat (Nat.min k (List.length q)) /\
    ((k <= List.length q)%nat ->
     exists cur, nth_error (m :: q) k = Some cur /\ in_progress s' cur) /\
    (k = S (List.length q) -> idle s').
Proof.
  induction q as [| next rest IH]; intros s m k Hp Hq Hk.
  - destruct k as [| k].
    + simpl. split; [reflexivity |]. split; [assumption |].
      split; [lia |]. split; [| discriminate].
      intros _. exists m. split; [reflexivity | exact Hp].
    + assert (k = 0%nat) by (simpl in Hk; lia). subst k. simpl.
      destruct (animationDone_in_progress s m Hp) as [Hc Hrest].
      rewrite Hq in Hrest. destruct Hrest as [Hidle Hm].
      split; [exact Hc |]. split; [apply Hidle |].
      split; [rewrite Hm; simpl; lia |].
      split; [intros Hle; simpl in Hle; lia | intros _; exact Hidle].
  - destruct k as [| k].
    + simpl. split; [reflexivity |]. split; [assumption |].
      split; [lia |]. split; [| discriminate].
      intros _. exists m. split; [reflexivity | exact Hp].
    + rewrite Nat.iter_succ_r.
      destruct (animationDone_in_progress s m Hp) as [Hc Hrest].
      rewrite Hq in Hrest. destruct Hrest as [Hp' [Hq' Hm']].
      simpl in Hk.
      destruct (IH (animationDone s) next k Hp' Hq' ltac:(lia))
        as [Hc2 [Hq2 [Hm2 [Hcur Hidle]]]].
      cbv zeta in Hc2, Hq2, Hm2, Hcur, Hidle.
      split; [| split; [| split; [| split]]].
      * rewrite Hc2, Hc. reflexivity.
      * exact Hq2.
      * rewrite Hm2, Hm'. simpl List.length.
        rewrite <- Nat.succ_min_distr. lia.
      * intros Hle. simpl in Hle. apply Hcur. lia.
      * intros E. apply Hidle. simpl in E. lia.
Qed.

(** C5 (amended).  A request issued while a turn is in progress is appended
    to the queue and returns without touching a piece.  The queue entry
    keeps the axis, the layer and the direction, not the [animate] flag:
    every queued request is later taken from the head of the queue and
    executed animated.  After [k] ends of animation exactly the first [k]
    of the turns (the one in progress, then the queued ones in the order of
    issue) have been applied to the cube, each once, the next one is in
    progress and the others wait; after the last, nothing is left. *)
Theorem C5_queued_turns_run_in_order_animated
  (s : State.t) (m0 : Move.t) (rs : list Request) (k : nat) :
  in_progress s m0 ->
  let s2 := fold_left issue rs s in
  let waiting := State.moveQueue s ++ map fst rs in
  let s' := Nat.iter k animationDone s2 in
  (k <= S (List.length waiting))%nat ->
  State.moveQueue s2 = waiting /\
  State.currentPuzzle s2 = State.currentPuzzle s /\
  State.currentPuzzle s' =
    fold_left turn (firstn k (m0 :: waiting)) (State.currentPuzzle s) /\
  State.moveQueue s' = skipn k waiting /\
  ((k <= List.length waiting)%nat ->
   exists cur, nth_error (m0 :: waiting) k = Some cur /\ in_progress s' cur) /\
  (k = S (List.length waiting) -> idle s').
Proof.
  intros Hp s2 waiting s' Hk.
  assert (H2 : s2 = State.set_moveQueue waiting s)
    by (subst s2; apply issue_all_while_animating, Hp).
  assert (Hp2 : in_progress s2 m0)
    by (rewrite H2; apply in_progress_set_moveQueue, Hp).
  assert (Hq2 : State.moveQueue s2 = waiting) by (rewrite H2; reflexivity).
  assert (Hc2 : State.currentPuzzle s2 = State.currentPuzzle s)
    by (rewrite H2; reflexivity).
  destruct (drain waiting s2 m0 k Hp2 Hq2 Hk) as [Hd1 [Hd2 [_ [Hd3 Hd4]]]].
  cbv zeta in Hd1, Hd2, Hd3, Hd4. rewrite Hc2 in Hd1.
  fold s' in Hd1, Hd2, Hd3, Hd4.
  repeat (split; [assumption |]). assumption.
Qed.

Lemma C5_queued_turns_run_in_order_animated_witness :
  let m0 := Move.mk "y" 2 1 in
  let s := issue (initial_state 3) (m0, true) in
  let rs := [(Move.mk "x" 0 1, false); (Move.mk "z" 1 (-1), true)] in
  in_progress s m0 /\
  State.currentPuzzle (Nat.iter 3 animationDone (fold_left issue rs s)) =
  fold_left turn (m0 :: map fst rs) (State.currentPuzzle s) /\
  idle (Nat.iter 3 animationDone (fold_left issue rs s)).
Proof.
  cbv zeta.
  assert (Hp : in_progress (issue (initial_state 3) (Move.mk "y" 2 1, true))
                           (Move.mk "y" 2 1)).
  { apply (rotate_animated_starts (initial_state 3) (Move.mk "y" 2 1));
      reflexivity. }
  split; [exact Hp |].
  destruct (C5_queued_turns_run_in_order_animated
              (issue (initial_state 3) (Move.mk "y" 2 1, true))
              (Move.mk "y" 2 1)
              [(Move.mk "x" 0 1, false); (Move.mk "z" 1 (-1), true)] 3
              Hp (le_n 3)) as [_ [_ [Hcube [_ [_ Hidle]]]]].
  split; [exact Hcube | exact (Hidle eq_refl)].
Defined.

(** C5 (as stated, refuted).  On a fresh cube of size 3 with the turn
    (y, 2, +1) in progress, the request (x, 0, +1) issued with
    [animate = false] is not executed at once when the turn in progress
    completes: it is in progress itself, animated, its mutation not yet
    applied. *)
Lemma C5_queued_flag_not_kept :
  let s1 := rotate (initial_state 3) "y" 2 1 true in
  let r := (Move.mk "x" 0 1, false) in
  ~ executed_per_own_flag s1 r /\
  State.isAnimating (animationDone (issue s1 r)) = true /\
  State.currentPuzzle (animationDone (issue s1 r)) =
  turn (State.currentPuzzle (initial_state 3)) (Move.mk "y" 2 1).
Proof.
  cbv zeta. split; [| split].
  - unfold executed_per_own_flag. vm_compute. discriminate.
  - vm_compute. reflexivity.
  - vm_compute. reflexivity.
Qed.

(** ** scramble *)

Lemma length_scramble_calls random n :
  List.length (scramble_calls random n None) = Z.to_nat (Z.max 20 (n * 5)).
Proof.
  unfold scramble_calls, Math_max. now rewrite length_map, length_seq.
Qed.

Lemma Qfloor_scaled_range (r : Q) (n : Z) :
  (0 <= r)%Q -> (r < 1)%Q -> 0 < n ->
  0 <= Math_floor (r * inject_Z n) <= n - 1.
Proof.
  intros H0 H1 Hn. unfold Math_floor.
  assert (Hq : (0 < inject_Z n)%Q).
  { change 0%Q with (inject_Z 0). now rewrite <- Zlt_Qlt. }
  split.
  - change 0 with (Qfloor 0). apply Qfloor_resp_le. nra.
  - assert (H : Qfloor (r * inject_Z n) < n); [| lia].
    rewrite Zlt_Qlt. apply Qle_lt_trans with (r * inject_Z n)%Q.
    + apply Qfloor_le.
    + nra.
Qed.

(** Each turn a scramble generates from draws in [0, 1) has one of the
    three axes, a layer index of the cube and a direction +1 or -1. *)
Lemma scramble_move_valid random n i :
  (forall k, (0 <= random k)%Q /\ (random k < 1)%Q) -> 0 < n ->
  let m := scramble_move random n i in
  In (Move.axis m) scramble_axes /\
  0 <= Move.layer m <= n - 1 /\
  In (Move.direction m) scramble_directions.
Proof.
  intros Hr Hn. unfold scramble_move.
  cbn [Move.axis Move.layer Move.direction].
  destruct (Hr (3 * i)%nat) as [Ha0 Ha1].
  destruct (Hr (3 * i + 1)%nat) as [Hl0 Hl1].
  destruct (Hr (3 * i + 2)%nat) as [Hd0 Hd1].
  pose proof (Qfloor_scaled_range _ 3 Ha0 Ha1 ltac:(lia)) as Ha.
  pose proof (Qfloor_scaled_range _ n Hl0 Hl1 Hn) as Hl.
  pose proof (Qfloor_scaled_range _ 2 Hd0 Hd1 ltac:(lia)) as Hd.
  change (inject_Z 3) with 3%Q in Ha. change (inject_Z 2) with 2%Q in Hd.
  split; [| split; [exact Hl |]].
  - assert (E : Math_floor (random (3 * i)%nat * 3) = 0 \/
                Math_floor (random (3 * i)%nat * 3) = 1 \/
                Math_floor (random (3 * i)%nat * 3) = 2) by lia.
    destruct E as [-> | [-> | ->]]; simpl; auto.
  - assert (E : Math_floor (random (3 * i + 2)%nat * 2) = 0 \/
                Math_floor (random (3 * i + 2)%nat * 2) = 1) by lia.
    destruct E as [-> | ->]; simpl; auto.
Qed.

(** A scramble run while nothing is in progress executes each of its turns
    on the spot, in order, and leaves the counter at 0, the solved flag
    unset and nothing waiting. *)
Lemma scramble_idle random s moves :
  idle s ->
  let s' := scramble random s moves in
  idle s' /\ State.moves s' = 0 /\ State.isSolved s' = false /\
  State.currentPuzzle s' =
  fold_left turn (scramble_calls random (size (State.currentPuzzle s)) moves)
            (State.currentPuzzle s).
Proof.
  intros Hidle. unfold scramble.
  generalize (scramble_calls random (size (State.currentPuzzle s)) moves).
  intros calls.
  cut (idle (fold_left (fun s m =>
              rotate s (Move.axis m) (Move.layer m) (Move.direction m) false)
              calls s) /\
       State.currentPuzzle (fold_left (fun s m =>
              rotate s (Move.axis m) (Move.layer m) (Move.direction m) false)
              calls s) = fold_left turn calls (State.currentPuzzle s)).
  { intros [Hi Hc]. cbv zeta. simpl. repeat split; try apply Hi. exact Hc. }
  revert s Hidle. induction calls as [| m calls IH]; intros s Hidle; simpl.
  - split; [exact Hidle | reflexivity].
  - destruct (rotate_now_idle s m Hidle) as [Hi [Hc _]].
    cbv zeta in Hi, Hc. destruct (IH _ Hi) as [Hi' Hc'].
    split; [exact Hi' |]. rewrite Hc', Hc. reflexivity.
Qed.

(** C6 (the code departs from the claim).  On a fresh cube of size 3 with a
    player's turn in progress, a default scramble generates its 20 turns,
    but every one of them is queued, none is executed, and the counter is
    set to 0 before any of them runs; as the queue drains each of the 20
    turns is counted, and the displayed total ends at 20. *)
Theorem C6_scramble_during_a_turn_is_counted :
  let random (n : nat) : Q := 0%Q in
  let s1 := rotate (initial_state 3) "y" 2 1 true in
  let s2 := scramble random s1 None in
  let s3 := Nat.iter 21 animationDone s2 in
  List.length (scramble_calls random 3 None) = 20%nat /\
  State.isAnimating s1 = true /\
  State.moves s2 = 0 /\ State.isSolved s2 = false /\
  State.moveQueue s2 = scramble_calls random 3 None /\
  State.currentPuzzle s2 = State.currentPuzzle (initial_state 3) /\
  idle s3 /\ State.moves s3 = 20.
Proof. vm_compute. repeat split; reflexivity. Qed.

(** ** The drag interpreter *)

Lemma dragTurn_spec (cls : FaceClass) (normal : Vector3.t)
  (piece : UserData.t) (dx dy : Q) :
  spec_classify normal = Some cls ->
  dragTurn normal piece dx dy = spec_dragTurn cls normal piece dx dy.
Proof.
  unfold spec_classify, dragTurn, spec_dragTurn, Math_abs, sign_if.
  destruct (Qgtb (Qabs (Vector3.y normal)) (1 # 2)).
  { intros [= <-]. simpl.
    destruct (Qgtb (Qabs dx) (Qabs dy)), (Qltb (Vector3.y normal) 0),
      (Qgtb dx 0), (Qgtb dy 0); reflexivity. }
  destruct (Qgtb (Qabs (Vector3.x normal)) (1 # 2)).
  { intros [= <-]. simpl.
    destruct (Qgtb (Qabs dx) (Qabs dy)), (Qltb (Vector3.x normal) 0),
      (Qgtb dx 0), (Qgtb dy 0); reflexivity. }
  destruct (Qgtb (Qabs (Vector3.z normal)) (1 # 2)); [| discriminate].
  intros [= <-]. simpl.
  destruct (Qgtb (Qabs dx) (Qabs dy)), (Qltb (Vector3.z normal) 0),
    (Qgtb dx 0), (Qgtb dy 0); reflexivity.
Qed.

(** A normal of unit length always has a class. *)
Lemma spec_classify_unit_normal (normal : Vector3.t) :
  (Vector3.dot normal normal == 1)%Q -> spec_classify normal <> None.
Proof.
  unfold Vector3.dot, spec_classify, Qgtb. intros Hunit.
  destruct (Qltb (1 # 2) (Qabs (Vector3.y normal))) eqn:Ey; [discriminate |].
  destruct (Qltb (1 # 2) (Qabs (Vector3.x normal))) eqn:Ex; [discriminate |].
  destruct (Qltb (1 # 2) (Qabs (Vector3.z normal))) eqn:Ez; [discriminate |].
  exfalso. apply Qltb_false in Ex, Ey, Ez.
  revert Ex Ey Ez.
  apply Qabs_case; intros; revert Ey Ez;
    apply Qabs_case; intros; revert Ez;
    apply Qabs_case; intros; nra.
Qed.

(** C7.  A drag on a hit face that exceeds 30 pixels along x or along y
    produces one turn command, issued once: with the world normal of the
    face classed as Y, X or Z by the first component above 0.5 in magnitude,
    and the drag horizontal when |dx| > |dy|, the axis, the layer (the grid
    coordinate of the hit piece along the axis) and the base direction are
    those of the fixed table, and the direction is negated when the
    dominant component of the normal is negative.  The gesture ends there:
    further moves of the pointer produce nothing. *)
Theorem C7_drag_produces_the_table_turn
  (s : State.t) (event : MouseEvent) (hit : Intersection)
  (start : Q * Q) (cubie : Cubie) (cls : FaceClass) :
  State.isDragging s = true ->
  State.selectedFace s = Some hit ->
  State.dragStart s = Some start ->
  nth_error (cubies (State.currentPuzzle s)) (object hit) = Some cubie ->
  let dx := (clientX event - fst start)%Q in
  let dy := (clientY event - snd start)%Q in
  let normal :=
    Vector3.applyQuaternion (face_normal hit) (quaternion cubie) in
  (30 < Qabs dx)%Q \/ (30 < Qabs dy)%Q ->
  spec_classify normal = Some cls ->
  onMouseMove s event =
  State.set_drag false None
    (issue s (spec_dragTurn cls normal (userData cubie) dx dy, true)) /\
  forall event', onMouseMove (onMouseMove s event) event' = onMouseMove s event.
Proof.
  intros Hdrag Hface Hstart Hcubie dx dy normal Hfar Hcls.
  assert (H : onMouseMove s event =
              State.set_drag false None
                (issue s (spec_dragTurn cls normal (userData cubie) dx dy,
                          true))).
  { unfold onMouseMove. rewrite Hdrag, Hface, Hstart, Hcubie.
    fold dx dy.
    assert (E : Qgtb (Math_abs dx) drag_threshold
                || Qgtb (Math_abs dy) drag_threshold = true).
    { apply orb_true_iff. unfold Qgtb, Math_abs, drag_threshold.
      destruct Hfar as [H | H]; [left | right]; now apply Qltb_true. }
    rewrite E. cbv zeta. fold normal.
    rewrite (dragTurn_spec cls normal (userData cubie) dx dy Hcls).
    reflexivity. }
  split; [exact H |]. intros event'. rewrite H. reflexivity.
Qed.

Lemma C7_drag_produces_the_table_turn_witness :
  let hit := mkHit (Vector3.mk 0 1 0) 8 in
  let s := onMouseDown (initial_state 3) (mkEvent 0 100 100) [hit] in
  let event := mkEvent 0 140 110 in
  ((30 < Qabs (140 - 100))%Q \/ (30 < Qabs (110 - 100))%Q) /\
  spec_classify (Vector3.mk 0 1 0) = Some FaceY /\
  onMouseMove s event =
  State.set_drag false None (issue s (Move.mk "z" 2 1, true)).
Proof.
  cbv zeta.
  assert (Hfar : (30 < Qabs (140 - 100))%Q \/ (30 < Qabs (110 - 100))%Q)
    by (left; reflexivity).
  split; [exact Hfar |]. split; [reflexivity |].
  exact (proj1 (C7_drag_produces_the_table_turn
           (onMouseDown (initial_state 3) (mkEvent 0 100 100)
                        [mkHit (Vector3.mk 0 1 0) 8])
           (mkEvent 0 140 110) (mkHit (Vector3.mk 0 1 0) 8) (100, 100)%Q
           (createCubie 3 1 0 2 2 (offset_of 3)) FaceY
           eq_refl eq_refl eq_refl eq_refl Hfar eq_refl)).
Defined.

(** ** What every session keeps *)

Lemma rotation_fold_turn (ms : list Move.t) (this : RubiksCube) :
  rotationGroup_rotation this = Euler.zero ->
  rotationGroup_rotation (fold_left turn ms this) = Euler.zero.
Proof.
  revert this. induction ms as [| m ms IH]; intros this H; simpl;
    [exact H | now apply IH].
Qed.

Lemma size_fold_turn (ms : list Move.t) (this : RubiksCube) :
  size (fold_left turn ms this) = size this /\
  cubeSize (fold_left turn ms this) = cubeSize this.
Proof.
  revert this. induction ms as [| m ms IH]; intros this; simpl;
    [split; reflexivity | apply (IH (turn this m))].
Qed.

Lemma fold_turn_snoc (ms : list Move.t) (m : Move.t) (this : RubiksCube) :
  fold_left turn (ms ++ [m]) this = turn (fold_left turn ms this) m.
Proof. now rewrite fold_left_app. Qed.

(** A turn that picked nothing leaves the cube as it is. *)
Lemma rotate_end_cube_nothing_picked (this : RubiksCube) axis direction e :
  rotationGroup_rotation this = Euler.zero ->
  set_rotation Euler.zero
    (set_cubies (moveBackAll (set_rotation e this) axis direction [])
                (set_rotation e this))
  = this.
Proof. intros H. destruct this. simpl in *. now subst. Qed.

Lemma rotate_end_cube_turn (this : RubiksCube) (m : Move.t) :
  rotationGroup_rotation this = Euler.zero ->
  let e := Euler_set (Move.axis m) (0 + Move.direction m)
                     (rotationGroup_rotation this) in
  set_rotation Euler.zero
    (set_cubies
       (moveBackAll (set_rotation e this) (Move.axis m) (Move.direction m)
          (getCubiesInLayer this (Move.axis m) (Move.layer m)))
       (set_rotation e this))
  = turn this m.
Proof. intros H. reflexivity. Qed.

Lemma Euler_get_zero axis : Euler_get axis Euler.zero = 0.
Proof.
  unfold Euler_get.
  destruct (axis =? "x")%string; [reflexivity |].
  destruct (axis =? "y")%string; [reflexivity |].
  destruct (axis =? "z")%string; reflexivity.
Qed.

(** A turn accepted with animation on a state where none is in progress. *)
Lemma well_formed_start n t axis layer direction :
  State.isAnimating t = false ->
  (State.isTimerRunning t = true -> State.isSolved t = false) ->
  State.timerInterval t = State.isTimerRunning t ->
  0 <= State.moves t ->
  (exists ms, State.currentPuzzle t = fold_left turn ms (new_RubiksCube n)) ->
  well_formed n (rotate_animated t axis layer direction).
Proof.
  intros Hanim Htimer Hitv Hmoves [ms Hms].
  assert (Hrot : rotationGroup_rotation (State.currentPuzzle t) = Euler.zero)
    by (rewrite Hms; now apply rotation_fold_turn).
  unfold rotate_animated. rewrite Hanim.
  destruct t as [cube anim q mv run itv sol drag ds sf aw].
  simpl in *. subst anim itv. unfold rotate_begin. simpl.
  destruct run, sol; simpl;
    (constructor; simpl;
     [ discriminate
     | intros _; eexists; split; [reflexivity |]; simpl;
       split; [rewrite Hrot; apply Euler_get_zero |];
       right; exists layer; reflexivity
     | try discriminate; auto
     | reflexivity
     | lia
     | exists ms; exact Hms ]).
Qed.

(** The end of a turn, given what it makes of the cube. *)
Lemma well_formed_end n s axis direction sel ms :
  State.awaiting s = None ->
  (State.isTimerRunning s = true -> State.isSolved s = false) ->
  State.timerInterval s = State.isTimerRunning s ->
  0 <= State.moves s ->
  set_rotation Euler.zero
    (set_cubies (moveBackAll (State.currentPuzzle s) axis direction sel)
                (State.currentPuzzle s))
  = fold_left turn ms (new_RubiksCube n) ->
  well_formed n (rotate_end s axis direction sel).
Proof.
  intros Haw Htimer Hitv Hmoves Hcube. unfold rotate_end. rewrite Hcube.
  set (this := fold_left turn ms (new_RubiksCube n)).
  destruct s as [cube anim q mv run itv sol drag ds sf aw].
  simpl in *. subst aw itv.
  destruct (isSolved this); simpl; destruct q as [| next rest]; simpl.
  - constructor; simpl; try discriminate; auto. now exists ms.
  - apply well_formed_start; simpl; try discriminate; auto. now exists ms.
  - constructor; simpl; try discriminate; auto. now exists ms.
  - apply well_formed_start; simpl; auto. now exists ms.
Qed.

Lemma well_formed_rotate n s axis layer direction animate :
  well_formed n s -> well_formed n (rotate s axis layer direction animate).
Proof.
  intros [Hidle Hbusy Htimer Hitv Hmoves [ms Hms]].
  unfold rotate. destruct (State.isAnimating s) eqn:Hanim.
  - constructor; simpl; auto.
    + intros E. congruence.
    + now exists ms.
  - destruct animate.
    + apply well_formed_start; auto. now exists ms.
    + destruct (Hidle eq_refl) as [Hq Haw].
      destruct s as [cube anim q mv run itv sol drag ds sf aw].
      simpl in *. subst anim q aw itv cube. unfold rotate_begin. simpl.
      destruct run, sol; simpl;
        apply (well_formed_end n _ _ _ _ (ms ++ [Move.mk axis layer direction]));
        simpl; try discriminate; auto; try lia;
        rewrite fold_turn_snoc; reflexivity.
Qed.

Lemma well_formed_animationDone n s :
  well_formed n s -> well_formed n (animationDone s).
Proof.
  intros H. pose proof H as [Hidle Hbusy Htimer Hitv Hmoves [ms Hms]].
  unfold animationDone. destruct (State.awaiting s) as [k |] eqn:Haw;
    [| exact H].
  destruct (State.isAnimating s) eqn:Hanim;
    [| destruct (Hidle eq_refl) as [_ E]; congruence].
  destruct (Hbusy eq_refl) as [k' [Hk [Hstart Hsel]]].
  injection Hk as <-.
  assert (Hrot : rotationGroup_rotation (State.currentPuzzle s) = Euler.zero)
    by (rewrite Hms; now apply rotation_fold_turn).
  destruct k as [axis direction sel start]. simpl in *. subst start.
  destruct Hsel as [-> | [layer ->]].
  - apply (well_formed_end n _ _ _ _ ms); simpl; auto.
    rewrite rotate_end_cube_nothing_picked by exact Hrot. exact Hms.
  - apply (well_formed_end n _ _ _ _ (ms ++ [Move.mk axis layer direction]));
      simpl; auto.
    rewrite fold_turn_snoc, <- Hms.
    apply (rotate_end_cube_turn (State.currentPuzzle s)
             (Move.mk axis layer direction) Hrot).
Qed.

Lemma well_formed_scramble n random s moves :
  well_formed n s -> well_formed n (scramble random s moves).
Proof.
  intros H. unfold scramble.
  generalize (scramble_calls random (size (State.currentPuzzle s)) moves).
  intros calls.
  assert (Hfold : well_formed n
    (fold_left (fun s m =>
       rotate s (Move.axis m) (Move.layer m) (Move.direction m) false)
       calls s)).
  { revert s H. induction calls as [| m calls IH]; intros s H; simpl;
      [exact H | apply IH, well_formed_rotate, H]. }
  destruct Hfold as [Hidle Hbusy Htimer Hitv Hmoves Hturns].
  constructor; simpl; auto. lia.
Qed.

Lemma new_RubiksCube_again (n : Z) (ms : list Move.t) :
  let this := fold_left turn ms (new_RubiksCube n) in
  set_cubies (createCube (size this) (cubeSize this)) this = new_RubiksCube n.
Proof.
  intros this.
  destruct (size_fold_turn ms (new_RubiksCube n)) as [Hs Hc].
  pose proof (rotation_fold_turn ms (new_RubiksCube n) eq_refl) as Hr.
  fold this in Hs, Hc, Hr. destruct this as [sz cs pieces rot].
  simpl in *. subst. reflexivity.
Qed.

Lemma well_formed_reset n s : well_formed n s -> well_formed n (reset s).
Proof.
  intros [Hidle Hbusy Htimer Hitv Hmoves [ms Hms]].
  unfold reset, resetTimer, stopTimer. constructor; simpl.
  - intros E. destruct (Hidle E) as [Hq Haw]. rewrite Haw. auto.
  - intros E. destruct (Hbusy E) as [k [Hk [Hstart _]]].
    exists (forget_pieces k). rewrite Hk. simpl. auto.
  - discriminate.
  - reflexivity.
  - lia.
  - exists []. rewrite Hms. apply new_RubiksCube_again.
Qed.

Lemma well_formed_set_drag n dragging face s :
  well_formed n s -> well_formed n (State.set_drag dragging face s).
Proof. intros [? ? ? ? ? ?]. constructor; auto. Qed.

Lemma well_formed_onMouseDown n s event intersects :
  well_formed n s -> well_formed n (onMouseDown s event intersects).
Proof.
  intros H. unfold onMouseDown. destruct (negb _); [exact H |].
  destruct intersects; [exact H |]. apply well_formed_set_drag.
  destruct H. constructor; auto.
Qed.

Lemma well_formed_onMouseMove n s event :
  well_formed n s -> well_formed n (onMouseMove s event).
Proof.
  intros H. unfold onMouseMove.
  destruct (State.isDragging s); [| exact H].
  destruct (State.selectedFace s); [| exact H].
  destruct (State.dragStart s); [| exact H].
  destruct (_ || _); [| exact H].
  destruct (nth_error _ _); [| exact H].
  apply well_formed_set_drag, well_formed_rotate, H.
Qed.

Lemma well_formed_onKeyDown n toUpperCase puzzleType s event :
  well_formed n s ->
  well_formed n (onKeyDown toUpperCase puzzleType s event).
Proof.
  intros H. unfold onKeyDown.
  destruct (negb _); [exact H |]. cbv zeta.
  repeat match goal with
         | |- well_formed _ (if ?b then _ else _) => destruct b
         end;
    try exact H; apply well_formed_rotate, H.
Qed.

Lemma well_formed_initial n : well_formed n (initial_state n).
Proof.
  constructor; simpl; auto; try discriminate; try lia. now exists [].
Qed.

(** Every state of a session is well formed. *)
Lemma session_well_formed n s : session n s -> well_formed n s.
Proof.
  induction 1.
  - apply well_formed_initial.
  - now apply well_formed_rotate.
  - now apply well_formed_animationDone.
  - now apply well_formed_scramble.
  - now apply well_formed_reset.
  - now apply well_formed_onKeyDown.
  - now apply well_formed_onMouseDown.
  - now apply well_formed_onMouseMove.
  - now apply well_formed_set_drag.
Qed.

Lemma reachable_session s : reachable s -> exists n, session n s.
Proof.
  induction 1 as [n | s a l d an _ [n IH] | s _ [n IH] | r s m _ [n IH]
                  | s e i _ [n IH] | s e _ [n IH] | s _ [n IH]];
    exists n; try (constructor; assumption).
Qed.

Lemma currentPuzzle_rotate_animated s axis layer direction :
  State.currentPuzzle (rotate_animated s axis layer direction) =
  State.currentPuzzle s.
Proof.
  unfold rotate_animated. destruct (State.isAnimating s); [reflexivity |].
  pose proof (currentPuzzle_rotate_begin s axis layer direction) as H.
  destruct (rotate_begin s axis layer direction). exact H.
Qed.

Lemma rotate_animated_accepted t axis layer direction :
  State.isAnimating t = false ->
  State.moveQueue (rotate_animated t axis layer direction) =
  State.moveQueue t /\
  State.isAnimating (rotate_animated t axis layer direction) = true.
Proof.
  intros H. unfold rotate_animated. rewrite H.
  pose proof (moveQueue_rotate_begin t axis layer direction) as Hq.
  pose proof (isAnimating_rotate_begin t axis layer direction) as Ha.
  destruct (rotate_begin t axis layer direction) as [s2 sel2].
  simpl in *. split; assumption.
Qed.

(** The end of a turn takes the head of the queue, and only the head. *)
Lemma moveQueue_rotate_end s axis direction sel :
  State.moveQueue (rotate_end s axis direction sel) = tl (State.moveQueue s) /\
  State.isAnimating (rotate_end s axis direction sel) =
  match State.moveQueue s with [] => false | _ :: _ => true end.
Proof.
  unfold rotate_end.
  set (this := set_rotation Euler.zero _).
  set (s1 := if isSolved this then _ else _).
  assert (H1 : State.moveQueue s1 = State.moveQueue s /\
               State.isAnimating s1 = false)
    by (subst s1; destruct (isSolved this); split; reflexivity).
  destruct H1 as [Hq Ha]. rewrite Hq.
  destruct (State.moveQueue s) as [| next rest]; [split; auto |].
  apply (rotate_animated_accepted (State.set_moveQueue rest s1)).
  exact Ha.
Qed.

(** X1.  In every state of a session a request waits in the queue only
    while a turn is in progress, a turn is in progress exactly when a
    suspended [rotate] waits for the end of its animation, and that end
    takes the head of the queue, and nothing but the head, and puts it in
    progress: no request is stranded. *)
Theorem X1_no_request_is_stranded (n : Z) (s : State.t) :
  session n s ->
  (State.moveQueue s <> [] -> State.isAnimating s = true) /\
  (State.isAnimating s = true <-> State.awaiting s <> None) /\
  (forall next rest,
      State.moveQueue s = next :: rest ->
      State.moveQueue (animationDone s) = rest /\
      State.isAnimating (animationDone s) = true).
Proof.
  intros H. apply session_well_formed in H.
  destruct H as [Hidle Hbusy _ _ _ _].
  assert (Hq : State.moveQueue s <> [] -> State.isAnimating s = true).
  { intros Hne. destruct (State.isAnimating s); [reflexivity |].
    destruct (Hidle eq_refl) as [E _]. contradiction. }
  split; [exact Hq |]. split; [split |].
  - intros E. destruct (Hbusy E) as [k [Hk _]]. congruence.
  - intros Hne. destruct (State.isAnimating s); [reflexivity |].
    destruct (Hidle eq_refl) as [_ E]. contradiction.
  - intros next rest Hnext.
    assert (E : State.isAnimating s = true) by (apply Hq; congruence).
    destruct (Hbusy E) as [k [Hk _]].
    unfold animationDone. rewrite Hk.
    destruct (moveQueue_rotate_end
                (State.set_awaiting None
                   (State.set_currentPuzzle
                      (set_rotation
                         (Euler_set (sus_axis k)
                            (sus_startRotation k + sus_direction k)
                            (rotationGroup_rotation (State.currentPuzzle s)))
                         (State.currentPuzzle s)) s))
                (sus_axis k) (sus_direction k) (sus_cubiesInLayer k))
      as [H1 H2].
    simpl in H1, H2. rewrite Hnext in H1, H2. split; assumption.
Qed.

Lemma X1_no_request_is_stranded_witness :
  let s := rotate (rotate (initial_state 3) "y" 2 1 true) "x" 0 1 true in
  session 3 s /\ State.moveQueue s = [Move.mk "x" 0 1] /\
  State.moveQueue (animationDone s) = [] /\
  State.isAnimating (animationDone s) = true.
Proof.
  cbv zeta.
  assert (H : session 3
    (rotate (rotate (initial_state 3) "y" 2 1 true) "x" 0 1 true))
    by (repeat constructor).
  split; [exact H |]. split; [reflexivity |].
  exact (proj2 (proj2 (X1_no_request_is_stranded 3 _ H))
               (Move.mk "x" 0 1) [] eq_refl).
Defined.

(** X2.  In every state of a session the timer runs only while the solved
    flag is unset, and an interval is registered exactly while the timer
    runs. *)
Theorem X2_timer_runs_only_while_unsolved (n : Z) (s : State.t) :
  session n s ->
  (State.isTimerRunning s = true -> State.isSolved s = false) /\
  State.timerInterval s = State.isTimerRunning s.
Proof.
  intros H. apply session_well_formed in H.
  destruct H as [_ _ Htimer Hitv _ _]. split; assumption.
Qed.

Lemma X2_timer_runs_only_while_unsolved_witness :
  let s := rotate (initial_state 3) "y" 2 1 false in
  session 3 s /\ State.isTimerRunning s = true /\ State.isSolved s = false.
Proof.
  cbv zeta.
  assert (H : session 3 (rotate (initial_state 3) "y" 2 1 false))
    by (repeat constructor).
  split; [exact H |].
  assert (E : State.isTimerRunning (rotate (initial_state 3) "y" 2 1 false)
              = true) by (vm_compute; reflexivity).
  split; [exact E |].
  exact (proj1 (X2_timer_runs_only_while_unsolved 3 _ H) E).
Defined.

Lemma make_of_moveBack this axis direction c :
  make_of (moveBack this axis direction c) = make_of c.
Proof. reflexivity. Qed.

Lemma make_of_fold_turn (ms : list Move.t) (this : RubiksCube) :
  map make_of (cubies (fold_left turn ms this)) = map make_of (cubies this).
Proof.
  revert this. induction ms as [| m ms IH]; intros this; simpl;
    [reflexivity |].
  rewrite IH. unfold turn. simpl.
  apply (moveBackAll_preserves make_of make_of_moveBack
           (applyRotation this (Move.axis m) (Move.direction m))).
Qed.

(** X3.  In every state of a session the pieces of the cube, in the order
    of [cubies], are made of what they were created with: the same origin,
    the same six materials, the identity quaternion.  No turn, scramble or
    reset adds, removes, recolours or reorients a piece. *)
Theorem X3_pieces_keep_their_make (n : Z) (s : State.t) :
  session n s ->
  map make_of (cubies (State.currentPuzzle s)) =
  map make_of (cubies (new_RubiksCube n)) /\
  List.length (cubies (State.currentPuzzle s)) =
  List.length (cubies (new_RubiksCube n)).
Proof.
  intros H. apply session_well_formed in H.
  destruct H as [_ _ _ _ _ [ms Hms]].
  assert (E : map make_of (cubies (State.currentPuzzle s)) =
              map make_of (cubies (new_RubiksCube n)))
    by (rewrite Hms; apply make_of_fold_turn).
  split; [exact E |].
  apply (f_equal (@List.length _)) in E. now rewrite !length_map in E.
Qed.

Lemma X3_pieces_keep_their_make_witness :
  let s := reset (rotate (initial_state 3) "x" 1 (-1) false) in
  session 3 s /\
  List.length (cubies (State.currentPuzzle s)) = 26%nat.
Proof.
  cbv zeta.
  assert (H : session 3 (reset (rotate (initial_state 3) "x" 1 (-1) false)))
    by (repeat constructor).
  split; [exact H |].
  exact (proj2 (X3_pieces_keep_their_make 3 _ H)).
Defined.

(** ** Solved check, fresh cubes and reset *)

Lemma isSolved_pairwise (this : RubiksCube) :
  isSolved this = true <->
  forall d, (d < 6)%nat ->
  forall c1 c2,
    In c1 (cubies this) -> In c2 (cubies this) ->
    on_boundary (size this) (gridPosition c1) d = true ->
    on_boundary (size this) (gridPosition c2) d = true ->
    getFaceColor c1 d = getFaceColor c2 d.
Proof.
  rewrite isSolved_faces, forallb_forall. split.
  - intros H d Hd c1 c2 H1 H2 Hb1 Hb2.
    assert (Hin : In d (seq 0 6)) by (apply in_seq; lia).
    apply H in Hin. rewrite uniform_spec in Hin.
    apply Hin; apply in_collect;
      [exists c1 | exists c2]; (split; [assumption |]);
      (split; [assumption | reflexivity]).
  - intros H d Hd. apply in_seq in Hd. apply uniform_spec.
    intros a b Ha Hb.
    apply in_collect in Ha as [c1 [H1 [Hb1 ->]]].
    apply in_collect in Hb as [c2 [H2 [Hb2 ->]]].
    apply H; auto. lia.
Qed.

Lemma getFaceColor_createCubie n cs x y z o (d : nat) :
  (d < 6)%nat ->
  getFaceColor (createCubie n cs x y z o) d =
  if on_boundary n (x, y, z) d then nth d canonical_colors 0
  else COLORS_black.
Proof.
  intros Hd. rewrite getFaceColor_identity by (auto; reflexivity).
  do 6 (destruct d as [| d];
        [simpl;
         match goal with |- context [?a =? ?b] => destruct (a =? b) end;
         reflexivity |]).
  lia.
Qed.

Lemma getFaceColor_by_make c c0 d :
  make_of c = make_of c0 -> getFaceColor c d = getFaceColor c0 d.
Proof.
  intros E. unfold getFaceColor.
  pose proof (f_equal (fun t => snd (fst t)) E) as Hm.
  pose proof (f_equal snd E) as Hq. simpl in Hm, Hq.
  now rewrite Hm, Hq.
Qed.

(** The colour a piece made by [createCube] shows towards a direction is
    the colour of that direction if the piece was created on the boundary
    layer of the direction, and black otherwise. *)
Lemma getFaceColor_by_origin n cs (pieces : list Cubie) c (d : nat) :
  map make_of pieces = map make_of (createCube n cs) ->
  In c pieces -> (d < 6)%nat ->
  getFaceColor c d =
  if on_boundary n (origin c) d then nth d canonical_colors 0
  else COLORS_black.
Proof.
  intros Hmake Hc Hd.
  assert (Hin : In (make_of c) (map make_of (createCube n cs)))
    by (rewrite <- Hmake; now apply in_map).
  apply in_map_iff in Hin as [c0 [E H0]].
  apply in_createCube in H0. destruct H0 as [x [y [z [_ [_ ->]]]]].
  rewrite (getFaceColor_by_make c _ d (eq_sym E)).
  rewrite getFaceColor_createCubie by exact Hd.
  apply (f_equal (fun t => fst (fst t))) in E. simpl in E.
  rewrite <- E. reflexivity.
Qed.

Lemma canonical_not_black (d : nat) :
  (d < 6)%nat -> nth d canonical_colors 0 <> COLORS_black.
Proof.
  intros Hd. do 6 (destruct d as [| d]; [discriminate |]). lia.
Qed.

(** A cube whose pieces are those [createCube] makes is solved. *)
Lemma isSolved_createCube (this : RubiksCube) cs :
  cubies this = createCube (size this) cs -> isSolved this = true.
Proof.
  intros Hc. apply isSolved_pairwise. intros d Hd c1 c2 H1 H2 Hb1 Hb2.
  rewrite Hc in H1, H2.
  apply in_createCube in H1. destruct H1 as [x1 [y1 [z1 [_ [_ ->]]]]].
  apply in_createCube in H2. destruct H2 as [x2 [y2 [z2 [_ [_ ->]]]]].
  rewrite !getFaceColor_createCubie by exact Hd.
  rewrite gridPosition_createCubie in Hb1, Hb2. now rewrite Hb1, Hb2.
Qed.

(** X4.  A freshly constructed cube of any size is solved. *)
Theorem X4_fresh_cube_is_solved (n : Z) : isSolved (new_RubiksCube n) = true.
Proof.
  apply (isSolved_createCube _ (cubeSize (new_RubiksCube n))). reflexivity.
Qed.

(** X5.  Whatever the state, [reset] leaves a cube with freshly made pieces
    for which [isSolved()] holds, the move counter at 0, the solved flag set
    and the timer stopped; it leaves the queue of waiting turns and the flag
    of a turn in progress as they were. *)
Theorem X5_reset_gives_a_solved_cube (s : State.t) :
  let s' := reset s in
  let this := State.currentPuzzle s in
  cubies (State.currentPuzzle s') = createCube (size this) (cubeSize this) /\
  isSolved (State.currentPuzzle s') = true /\
  State.moves s' = 0 /\ State.isSolved s' = true /\
  State.isTimerRunning s' = false /\
  State.moveQueue s' = State.moveQueue s /\
  State.isAnimating s' = State.isAnimating s.
Proof.
  cbv zeta. split; [reflexivity |]. split; [| repeat split].
  apply (isSolved_createCube _ (cubeSize (State.currentPuzzle s))).
  reflexivity.
Qed.

(** X6.  In every state of a session [isSolved()] compares where the
    pieces come from: it holds exactly when, for each of the six
    directions, the pieces now in the boundary layer of the direction were
    either all created in that boundary layer or all created outside it. *)
Theorem X6_isSolved_compares_origins (n : Z) (s : State.t) :
  session n s ->
  let this := State.currentPuzzle s in
  isSolved this = true <->
  forall d, (d < 6)%nat ->
  forall c1 c2,
    In c1 (cubies this) -> In c2 (cubies this) ->
    on_boundary n (gridPosition c1) d = true ->
    on_boundary n (gridPosition c2) d = true ->
    on_boundary n (origin c1) d = on_boundary n (origin c2) d.
Proof.
  intros H this. apply session_well_formed in H.
  destruct H as [_ _ _ _ _ [ms Hms]].
  assert (Hsize : size this = n)
    by (subst this; rewrite Hms; apply size_fold_turn).
  assert (Hmake : map make_of (cubies this) =
                  map make_of (createCube n (cubeSize (new_RubiksCube n))))
    by (subst this; rewrite Hms; apply make_of_fold_turn).
  rewrite isSolved_pairwise, Hsize.
  split; intros Hall d Hd c1 c2 H1 H2 Hb1 Hb2;
    specialize (Hall d Hd c1 c2 H1 H2 Hb1 Hb2);
    rewrite (getFaceColor_by_origin n _ _ c1 d Hmake H1 Hd) in *;
    rewrite (getFaceColor_by_origin n _ _ c2 d Hmake H2 Hd) in *.
  - pose proof (canonical_not_black d Hd) as Hne.
    destruct (on_boundary n (origin c1) d), (on_boundary n (origin c2) d);
      congruence.
  - now rewrite Hall.
Qed.

Lemma X6_isSolved_compares_origins_witness :
  let s := rotate (initial_state 3) "z" 0 1 false in
  let this := State.currentPuzzle s in
  session 3 s /\
  (isSolved this = true <->
   forall d, (d < 6)%nat ->
   forall c1 c2,
     In c1 (cubies this) -> In c2 (cubies this) ->
     on_boundary 3 (gridPosition c1) d = true ->
     on_boundary 3 (gridPosition c2) d = true ->
     on_boundary 3 (origin c1) d = on_boundary 3 (origin c2) d).
Proof.
  cbv zeta.
  assert (H : session 3 (rotate (initial_state 3) "z" 0 1 false))
    by (repeat constructor).
  split; [exact H |].
  exact (X6_isSolved_compares_origins 3 _ H).
Defined.

(** ** Turns on a cube of odd size *)

Lemma quarter_cases (d : Z) :
  (quarter_cosZ d = 1 /\ quarter_sinZ d = 0) \/
  (quarter_cosZ d = 0 /\ quarter_sinZ d = 1) \/
  (quarter_cosZ d = -1 /\ quarter_sinZ d = 0) \/
  (quarter_cosZ d = 0 /\ quarter_sinZ d = -1).
Proof.
  unfold quarter_cosZ, quarter_sinZ.
  assert (E : d mod 4 = 0 \/ d mod 4 = 1 \/ d mod 4 = 2 \/ d mod 4 = 3)
    by (pose proof (Z.mod_pos_bound d 4 ltac:(lia)); lia).
  destruct E as [-> | [-> | [-> | ->]]]; auto.
Qed.

(** The addition formulas of the quarter turns. *)
Lemma quarter_add (d1 d2 : Z) :
  quarter_cosZ (d1 + d2) =
    quarter_cosZ d1 * quarter_cosZ d2 - quarter_sinZ d1 * quarter_sinZ d2 /\
  quarter_sinZ (d1 + d2) =
    quarter_sinZ d1 * quarter_cosZ d2 + quarter_cosZ d1 * quarter_sinZ d2.
Proof.
  unfold quarter_cosZ, quarter_sinZ. rewrite Z.add_mod by lia.
  assert (E1 : d1 mod 4 = 0 \/ d1 mod 4 = 1 \/ d1 mod 4 = 2 \/ d1 mod 4 = 3)
    by (pose proof (Z.mod_pos_bound d1 4 ltac:(lia)); lia).
  assert (E2 : d2 mod 4 = 0 \/ d2 mod 4 = 1 \/ d2 mod 4 = 2 \/ d2 mod 4 = 3)
    by (pose proof (Z.mod_pos_bound d2 4 ltac:(lia)); lia).
  destruct E1 as [-> | [-> | [-> | ->]]];
    destruct E2 as [-> | [-> | [-> | ->]]]; split; reflexivity.
Qed.

Lemma spec_rotate_grid_add n axis d1 d2 g :
  spec_rotate_grid n axis d2 (spec_rotate_grid n axis d1 g) =
  spec_rotate_grid n axis (d1 + d2) g.
Proof.
  destruct g as [[x y] z]. unfold spec_rotate_grid.
  destruct (quarter_add d1 d2) as [-> ->].
  generalize ((n - 1) / 2) (quarter_cosZ d1) (quarter_sinZ d1)
             (quarter_cosZ d2) (quarter_sinZ d2).
  intros h c1 s1 c2 s2.
  destruct (axis =? "x")%string;
    [| destruct (axis =? "y")%string;
       [| destruct (axis =? "z")%string; [| reflexivity]]];
    rewrite !pair_equal_spec; repeat split; ring.
Qed.

Lemma spec_rotate_grid_zero n axis d g :
  d mod 4 = 0 -> spec_rotate_grid n axis d g = g.
Proof.
  intros E. destruct g as [[x y] z].
  unfold spec_rotate_grid, quarter_cosZ, quarter_sinZ. rewrite E.
  destruct (axis =? "x")%string;
    [| destruct (axis =? "y")%string;
       [| destruct (axis =? "z")%string; [| reflexivity]]];
    rewrite !pair_equal_spec; repeat split; ring.
Qed.

Lemma spec_rotate_grid_injective n axis d g1 g2 :
  spec_rotate_grid n axis d g1 = spec_rotate_grid n axis d g2 -> g1 = g2.
Proof.
  intros E.
  rewrite <- (spec_rotate_grid_zero n axis (d + - d) g1)
    by (now replace (d + - d) with 0 by lia).
  rewrite <- (spec_rotate_grid_zero n axis (d + - d) g2)
    by (now replace (d + - d) with 0 by lia).
  rewrite <- !spec_rotate_grid_add. now rewrite E.
Qed.

(** On a grid of odd size the quarter turn keeps positions inside it. *)
Lemma spec_rotate_grid_in_range (h : Z) axis d x y z :
  0 <= x <= 2 * h -> 0 <= y <= 2 * h -> 0 <= z <= 2 * h ->
  let '(x', y', z') := spec_rotate_grid (2 * h + 1) axis d (x, y, z) in
  0 <= x' <= 2 * h /\ 0 <= y' <= 2 * h /\ 0 <= z' <= 2 * h.
Proof.
  intros Hx Hy Hz. unfold spec_rotate_grid. rewrite half_of_odd.
  destruct (quarter_cases d) as [[-> ->] | [[-> ->] | [[-> ->] | [-> ->]]]];
    (destruct (axis =? "x")%string;
     [| destruct (axis =? "y")%string;
        [| destruct (axis =? "z")%string]]); lia.
Qed.

Lemma turned_position_injective n m g1 g2 :
  turned_position n m g1 = turned_position n m g2 -> g1 = g2.
Proof.
  unfold turned_position.
  destruct (in_grid_layer m g1) eqn:E1, (in_grid_layer m g2) eqn:E2;
    intros E.
  - now apply spec_rotate_grid_injective in E.
  - rewrite <- E, in_grid_layer_rotate_grid in E2. congruence.
  - rewrite E, in_grid_layer_rotate_grid in E1. congruence.
  - exact E.
Qed.

Lemma turn_keeps_grid this m :
  Z.odd (size this) = true -> (layer_threshold <= cubeSize this)%Q ->
  rotationGroup_rotation this = Euler.zero ->
  grid_ok this -> grid_ok (turn this m).
Proof.
  intros Hodd Hcs Hrot [Hgrid [Hrange Hnodup]].
  assert (Hn : exists h, size this = 2 * h + 1).
  { apply Zodd_bool_iff in Hodd. now apply Zodd_ex_iff in Hodd. }
  destruct Hn as [h Hn].
  rewrite (turn_by_piece this m Hrot).
  assert (Hpos : map gridPosition (map (turn_piece this m) (cubies this)) =
                 map (turned_position (size this) m)
                     (map gridPosition (cubies this))).
  { rewrite !map_map. apply map_ext_in. intros c Hc.
    rewrite Forall_forall in Hgrid.
    apply (turn_piece_on_grid this m c h Hn Hcs Hrot (Hgrid c Hc)). }
  unfold grid_ok. cbn [cubies set_cubies]. split; [| split].
  - apply Forall_forall. intros c' Hc'. apply in_map_iff in Hc'.
    destruct Hc' as [c [<- Hc]]. rewrite Forall_forall in Hgrid.
    apply (turn_piece_on_grid this m c h Hn Hcs Hrot (Hgrid c Hc)).
  - apply Forall_forall. intros c' Hc'. apply in_map_iff in Hc'.
    destruct Hc' as [c [<- Hc]]. rewrite Forall_forall in Hgrid, Hrange.
    destruct (turn_piece_on_grid this m c h Hn Hcs Hrot (Hgrid c Hc))
      as [_ [_ [_ [_ Hg]]]].
    specialize (Hrange c Hc). unfold grid_in_range in *.
    cbn [size set_cubies]. rewrite Hn in *.
    unfold gridPosition in Hg. cbv zeta in Hg.
    destruct Hrange as [Hx [Hy Hz]].
    pose proof (spec_rotate_grid_in_range h (Move.axis m) (Move.direction m)
                  (UserData.x (userData c)) (UserData.y (userData c))
                  (UserData.z (userData c))
                  ltac:(lia) ltac:(lia) ltac:(lia)) as HR.
    destruct (in_grid_layer m _).
    + destruct (spec_rotate_grid _ _ _ _) as [[x' y'] z'].
      injection Hg as -> -> ->. lia.
    + injection Hg as -> -> ->. lia.
  - rewrite Hpos. apply Injective_map_NoDup; [| exact Hnodup].
    intros g1 g2. apply turned_position_injective.
Qed.

Lemma grid_ok_new_RubiksCube (n : Z) : grid_ok (new_RubiksCube n).
Proof.
  split; [apply on_grid_new_RubiksCube |].
  split; [apply grid_in_range_new_RubiksCube |].
  rewrite cubies_new_RubiksCube. apply NoDup_createCube.
Qed.

Lemma grid_ok_fold_turn (ms : list Move.t) (this : RubiksCube) :
  Z.odd (size this) = true -> (layer_threshold <= cubeSize this)%Q ->
  rotationGroup_rotation this = Euler.zero ->
  grid_ok this -> grid_ok (fold_left turn ms this).
Proof.
  revert this. induction ms as [| m ms IH]; intros this Hodd Hcs Hrot Hok;
    simpl; [exact Hok |].
  apply IH; try assumption; try reflexivity.
  now apply turn_keeps_grid.
Qed.

(** In a session on a cube of odd size the grid invariant always holds. *)
Lemma session_grid_ok n s :
  session n s -> Z.odd n = true ->
  (layer_threshold <= cubeSize (new_RubiksCube n))%Q ->
  grid_ok (State.currentPuzzle s) /\
  size (State.currentPuzzle s) = n /\
  cubeSize (State.currentPuzzle s) = cubeSize (new_RubiksCube n) /\
  rotationGroup_rotation (State.currentPuzzle s) = Euler.zero.
Proof.
  intros H Hodd Hcs. apply session_well_formed in H.
  destruct H as [_ _ _ _ _ [ms Hms]]. rewrite Hms.
  split; [apply grid_ok_fold_turn; auto; apply grid_ok_new_RubiksCube |].
  split; [apply size_fold_turn |]. split; [apply size_fold_turn |].
  now apply rotation_fold_turn.
Qed.

Lemma threshold_below_cubeSize (n : Z) :
  n <= 1000 -> (layer_threshold <= cubeSize (new_RubiksCube n))%Q.
Proof.
  intros Hn. unfold new_RubiksCube, layer_threshold. cbn [cubeSize].
  destruct (10 <? n) eqn:E.
  - apply Z.ltb_lt in E.
    apply Qle_shift_div_l; [change 0%Q with (inject_Z 0);
                            rewrite <- Zlt_Qlt; lia |].
    unfold Qle, Qmult, inject_Z. cbn [Qnum Qden]. lia.
  - unfold Qle. cbn [Qnum Qden]. lia.
Qed.

(** Two turns of the same layer about the same axis, piece by piece. *)
Lemma turn_piece_twice this axis layer d1 d2 c (h : Z) :
  size this = 2 * h + 1 -> (layer_threshold <= cubeSize this)%Q ->
  rotationGroup_rotation this = Euler.zero ->
  on_grid this c ->
  same_piece
    (turn_piece this (Move.mk axis layer d2)
       (turn_piece this (Move.mk axis layer d1) c))
    (turn_piece this (Move.mk axis layer (d1 + d2)) c).
Proof.
  intros Hn Hcs Hrot H0.
  destruct (turn_piece_on_grid this (Move.mk axis layer d1) c h
              Hn Hcs Hrot H0) as [H1 [Q1 [M1 [O1 G1]]]].
  destruct (turn_piece_on_grid this (Move.mk axis layer d2) _ h
              Hn Hcs Hrot H1) as [H2 [Q2 [M2 [O2 G2]]]].
  destruct (turn_piece_on_grid this (Move.mk axis layer (d1 + d2)) c h
              Hn Hcs Hrot H0) as [H12 [Q12 [M12 [O12 G12]]]].
  cbv zeta in *.
  apply (same_piece_on_grid this); try assumption; try congruence.
  apply userData_by_grid_and_origin; [| congruence].
  rewrite G2, G12, G1.
  assert (L : forall d g,
             in_grid_layer (Move.mk axis layer d) g =
             in_grid_layer (Move.mk axis layer d1) g) by reflexivity.
  rewrite (L d2), (L (d1 + d2)). cbn [Move.axis Move.direction].
  destruct (in_grid_layer (Move.mk axis layer d1) (gridPosition c)) eqn:E.
  - pose proof (in_grid_layer_rotate_grid (size this)
                  (Move.mk axis layer d1) (gridPosition c)) as E'.
    cbn [Move.axis Move.direction] in E'. rewrite E', E.
    apply spec_rotate_grid_add.
  - now rewrite E.
Qed.

Lemma Forall2_map_same {A B : Type} (R : B -> B -> Prop) (P : A -> Prop)
  (f g : A -> B) (l : list A) :
  (forall a, P a -> R (f a) (g a)) -> Forall P l ->
  Forall2 R (map f l) (map g l).
Proof.
  intros H Hl. induction Hl as [| a l Ha Hl IH]; simpl; constructor; auto.
Qed.

(** Turns of one layer about one axis add up. *)
Lemma turn_twice this axis layer d1 d2 :
  Z.odd (size this) = true -> (layer_threshold <= cubeSize this)%Q ->
  rotationGroup_rotation this = Euler.zero ->
  Forall (on_grid this) (cubies this) ->
  Forall2 same_piece
    (cubies (turn (turn this (Move.mk axis layer d1))
                  (Move.mk axis layer d2)))
    (cubies (turn this (Move.mk axis layer (d1 + d2)))).
Proof.
  intros Hodd Hcs Hrot Hgrid.
  assert (Hn : exists h, size this = 2 * h + 1).
  { apply Zodd_bool_iff in Hodd. now apply Zodd_ex_iff in Hodd. }
  destruct Hn as [h Hn].
  rewrite (turn_by_piece this (Move.mk axis layer d1) Hrot).
  rewrite (turn_by_piece (set_cubies _ this) (Move.mk axis layer d2) Hrot).
  rewrite (turn_by_piece this (Move.mk axis layer (d1 + d2)) Hrot).
  cbn [cubies set_cubies]. rewrite map_map.
  apply (Forall2_map_same same_piece (on_grid this)); [| exact Hgrid].
  intros c Hc. apply (turn_piece_twice this axis layer d1 d2 c h); assumption.
Qed.

(** A turn by a multiple of four quarter turns moves nothing. *)
Lemma turn_full this m :
  Move.direction m mod 4 = 0 ->
  Z.odd (size this) = true -> (layer_threshold <= cubeSize this)%Q ->
  rotationGroup_rotation this = Euler.zero ->
  Forall (on_grid this) (cubies this) ->
  Forall2 same_piece (cubies (turn this m)) (cubies this).
Proof.
  intros Hd Hodd Hcs Hrot Hgrid.
  assert (Hn : exists h, size this = 2 * h + 1).
  { apply Zodd_bool_iff in Hodd. now apply Zodd_ex_iff in Hodd. }
  destruct Hn as [h Hn].
  rewrite (turn_by_piece this m Hrot). cbn [cubies set_cubies].
  rewrite <- (map_id (cubies this)) at 2.
  apply (Forall2_map_same same_piece (on_grid this)); [| exact Hgrid].
  intros c Hc.
  destruct (turn_piece_on_grid this m c h Hn Hcs Hrot Hc)
    as [H1 [Q1 [M1 [O1 G1]]]].
  cbv zeta in *.
  apply (same_piece_on_grid this); try assumption.
  apply userData_by_grid_and_origin; [| assumption].
  rewrite G1. destruct (in_grid_layer m _); [| reflexivity].
  now apply spec_rotate_grid_zero.
Qed.

Lemma same_piece_trans a b c :
  same_piece a b -> same_piece b c -> same_piece a c.
Proof.
  intros [U1 [Q1 [M1 [X1 [Y1 Z1]]]]] [U2 [Q2 [M2 [X2 [Y2 Z2]]]]].
  unfold same_piece. rewrite U1, Q1, M1, X1, Y1, Z1.
  repeat split; assumption.
Qed.

Lemma Forall2_same_piece_trans l1 : forall l2 l3,
  Forall2 same_piece l1 l2 -> Forall2 same_piece l2 l3 ->
  Forall2 same_piece l1 l3.
Proof.
  induction l1 as [| a l1 IH]; intros l2 l3 H12 H23.
  - inversion H12; subst. inversion H23; subst. constructor.
  - inversion H12; subst. inversion H23; subst. constructor.
    + eapply same_piece_trans; eassumption.
    + eapply IH; eassumption.
Qed.

(** X7.  In a session on a cube of odd size up to 1000, whatever the player
    has done, every piece sits exactly on the grid: its render position is
    the one its grid coordinates give.  So [getCubiesInLayer], which tests
    render positions, always picks exactly the pieces whose grid coordinate
    along the axis is the layer index. *)
Theorem X7_odd_sessions_stay_on_grid (n : Z) (s : State.t) :
  session n s -> Z.odd n = true -> n <= 1000 ->
  let this := State.currentPuzzle s in
  Forall (on_grid this) (cubies this) /\
  forall axis layer,
    getCubiesInLayer this axis layer = spec_layer this axis layer.
Proof.
  intros H Hodd Hn this.
  destruct (session_grid_ok n s H Hodd (threshold_below_cubeSize n Hn))
    as [[Hgrid _] [_ [Hcs _]]].
  split; [exact Hgrid |].
  intros axis layer. apply getCubiesInLayer_on_grid; [| exact Hgrid].
  subst this. rewrite Hcs. now apply threshold_below_cubeSize.
Qed.

Lemma X7_odd_sessions_stay_on_grid_witness :
  let s := rotate (initial_state 3) "x" 2 1 false in
  let this := State.currentPuzzle s in
  Forall (on_grid this) (cubies this) /\
  forall axis layer,
    getCubiesInLayer this axis layer = spec_layer this axis layer.
Proof.
  apply (X7_odd_sessions_stay_on_grid 3).
  - apply session_rotate. apply session_initial.
  - reflexivity.
  - lia.
Defined.

(** X8.  In an idle session on a cube of odd size up to 1000, two turns of
    the same layer about the same axis, issued without animation, leave
    every piece where the single turn by the sum of the two directions
    leaves it. *)
Theorem X8_turns_of_one_layer_add_up (n : Z) (s : State.t)
  (axis : string) (layer d1 d2 : Z) :
  session n s -> idle s -> Z.odd n = true -> n <= 1000 ->
  Forall2 same_piece
    (cubies (State.currentPuzzle
               (rotate (rotate s axis layer d1 false) axis layer d2 false)))
    (cubies (State.currentPuzzle (rotate s axis layer (d1 + d2) false))).
Proof.
  intros H Hidle Hodd Hn.
  destruct (session_grid_ok n s H Hodd (threshold_below_cubeSize n Hn))
    as [[Hgrid _] [Hsize [Hcs Hrot]]].
  destruct (rotate_now_idle s (Move.mk axis layer d1) Hidle) as [H1 [C1 _]].
  destruct (rotate_now_idle _ (Move.mk axis layer d2) H1) as [_ [C2 _]].
  destruct (rotate_now_idle s (Move.mk axis layer (d1 + d2)) Hidle)
    as [_ [C12 _]].
  cbv zeta in C1, C2, C12. cbn [Move.axis Move.layer Move.direction] in *.
  rewrite C2, C1, C12. apply turn_twice; try assumption.
  - now rewrite Hsize.
  - rewrite Hcs. now apply threshold_below_cubeSize.
Qed.

Lemma X8_turns_of_one_layer_add_up_witness :
  let s := initial_state 3 in
  Forall2 same_piece
    (cubies (State.currentPuzzle
               (rotate (rotate s "y" 0 1 false) "y" 0 1 false)))
    (cubies (State.currentPuzzle (rotate s "y" 0 (1 + 1) false))).
Proof.
  apply (X8_turns_of_one_layer_add_up 3).
  - apply session_initial.
  - apply idle_initial_state.
  - reflexivity.
  - lia.
Defined.

(** X9.  In an idle session on a cube of odd size up to 1000, a turn
    followed by the opposite turn (same axis and layer, direction negated),
    both issued without animation, brings every piece back to its grid
    position, orientation, materials and place. *)
Theorem X9_opposite_turn_undoes (n : Z) (s : State.t) (m : Move.t) :
  session n s -> idle s -> Z.odd n = true -> n <= 1000 ->
  let s1 := rotate s (Move.axis m) (Move.layer m) (Move.direction m) false in
  let s2 := rotate s1 (Move.axis (opposite m)) (Move.layer (opposite m))
                   (Move.direction (opposite m)) false in
  Forall2 same_piece (cubies (State.currentPuzzle s2))
                     (cubies (State.currentPuzzle s)).
Proof.
  intros H Hidle Hodd Hn s1 s2. subst s1 s2.
  destruct (session_grid_ok n s H Hodd (threshold_below_cubeSize n Hn))
    as [[Hgrid _] [Hsize [Hcs Hrot]]].
  assert (Hodd' : Z.odd (size (State.currentPuzzle s)) = true)
    by now rewrite Hsize.
  assert (Hcs' : (layer_threshold <= cubeSize (State.currentPuzzle s))%Q)
    by (rewrite Hcs; now apply threshold_below_cubeSize).
  destruct (rotate_now_idle s m Hidle) as [H1 [C1 _]].
  destruct (rotate_now_idle _ (opposite m) H1) as [_ [C2 _]].
  cbv zeta in C1, C2. rewrite C2, C1.
  destruct m as [axis layer d]. unfold opposite.
  cbn [Move.axis Move.layer Move.direction].
  eapply Forall2_same_piece_trans.
  - apply turn_twice; assumption.
  - apply turn_full; try assumption.
    cbn [Move.direction]. now replace (d + - d) with 0 by lia.
Qed.

Lemma X9_opposite_turn_undoes_witness :
  let s := initial_state 3 in
  let m := Move.mk "z" 1 1 in
  let s1 := rotate s (Move.axis m) (Move.layer m) (Move.direction m) false in
  let s2 := rotate s1 (Move.axis (opposite m)) (Move.layer (opposite m))
                   (Move.direction (opposite m)) false in
  Forall2 same_piece (cubies (State.currentPuzzle s2))
                     (cubies (State.currentPuzzle s)).
Proof.
  apply (X9_opposite_turn_undoes 3).
  - apply session_initial.
  - apply idle_initial_state.
  - reflexivity.
  - lia.
Defined.

(** ** Reset while a turn is in progress *)

(** X10.  [reset] does not cancel what is going on: called while a turn is
    in progress with turns waiting, it leaves the queue, and when the
    animation ends the interrupted turn moves no piece of the new cube, the
    next waiting turn is put in progress on the freshly made pieces, the
    timer starts again and the move counter shows 1. *)
Theorem X10_reset_keeps_the_queue (s : State.t) (m next : Move.t)
  (rest : list Move.t) :
  in_progress s m -> State.moveQueue s = next :: rest ->
  let this := State.currentPuzzle s in
  let s' := animationDone (reset s) in
  cubies (State.currentPuzzle s') = createCube (size this) (cubeSize this) /\
  in_progress s' next /\ State.moveQueue s' = rest /\
  State.moves s' = 1 /\ State.isTimerRunning s' = true /\
  State.isSolved s' = false.
Proof.
  intros [Ha [Hrot Haw]] Hq this s'. subst s' this.
  destruct s as [cube anim queue moves running interval solved dragging
                   dragStart face aw].
  cbn [State.isAnimating State.currentPuzzle State.awaiting State.moveQueue]
    in Ha, Hrot, Haw, Hq. subst anim aw queue.
  unfold reset, resetTimer, stopTimer, animationDone, forget_pieces.
  cbn [State.currentPuzzle State.awaiting State.set_currentPuzzle
       State.set_awaiting State.set_isSolved State.set_moves State.set_timer
       option_map sus_axis sus_direction sus_cubiesInLayer sus_startRotation
       State.isAnimating State.moveQueue State.moves State.isTimerRunning
       State.timerInterval State.isSolved State.isDragging State.dragStart
       State.selectedFace].
  unfold rotate_end.
  cbn [State.currentPuzzle State.awaiting State.set_currentPuzzle
       State.set_awaiting State.set_isSolved State.set_moves State.set_timer
       State.set_isAnimating State.set_moveQueue
       State.isAnimating State.moveQueue State.moves State.isTimerRunning
       State.timerInterval State.isSolved State.isDragging State.dragStart
       State.selectedFace].
  unfold moveBackAll at 1 2. cbn [fold_left].
  set (fresh := set_rotation Euler.zero _).
  assert (Hfresh : cubies fresh = createCube (size cube) (cubeSize cube))
    by reflexivity.
  assert (Hsolved : isSolved fresh = true)
    by (apply (isSolved_createCube fresh (cubeSize cube)); exact Hfresh).
  rewrite Hsolved. unfold stopTimer.
  cbn [State.currentPuzzle State.awaiting State.set_currentPuzzle
       State.set_awaiting State.set_isSolved State.set_moves State.set_timer
       State.set_isAnimating State.set_moveQueue
       State.isAnimating State.moveQueue State.moves State.isTimerRunning
       State.timerInterval State.isSolved State.isDragging State.dragStart
       State.selectedFace].
  unfold rotate_animated, rotate_begin, startTimer, in_progress.
  cbn [State.currentPuzzle State.awaiting State.set_currentPuzzle
       State.set_awaiting State.set_isSolved State.set_moves State.set_timer
       State.set_isAnimating State.set_moveQueue
       State.isAnimating State.moveQueue State.moves State.isTimerRunning
       State.timerInterval State.isSolved State.isDragging State.dragStart
       State.selectedFace negb andb].
  repeat split; try reflexivity.
  subst fresh. cbn [rotationGroup_rotation set_rotation].
  now rewrite Euler_get_zero.
Qed.

Lemma X10_reset_keeps_the_queue_witness :
  let s := rotate (rotate (initial_state 3) "x" 0 1 true) "y" 2 1 true in
  let this := State.currentPuzzle s in
  let s' := animationDone (reset s) in
  cubies (State.currentPuzzle s') = createCube (size this) (cubeSize this) /\
  in_progress s' (Move.mk "y" 2 1) /\ State.moveQueue s' = [] /\
  State.moves s' = 1 /\ State.isTimerRunning s' = true /\
  State.isSolved s' = false.
Proof.
  apply (X10_reset_keeps_the_queue _ (Move.mk "x" 0 1)).
  - repeat split.
  - reflexivity.
Defined.

(** ** Animated turns and the keyboard *)

(** An animated turn issued on an idle session, once its animation has
    ended, leaves the state an unanimated turn leaves at once. *)
Lemma animated_turn_outcome (s : State.t) (axis : string)
  (layer direction : Z) :
  idle s -> rotationGroup_rotation (State.currentPuzzle s) = Euler.zero ->
  animationDone (rotate s axis layer direction true) =
  rotate s axis layer direction false.
Proof.
  intros [Hanim [Hq Haw]] Hrot.
  destruct s as [cube anim queue moves running interval solved dragging
                   dragStart face aw].
  cbn [State.isAnimating State.currentPuzzle State.awaiting State.moveQueue]
    in Hanim, Hq, Haw, Hrot. subst anim aw queue.
  unfold rotate, rotate_animated, rotate_begin.
  cbn [State.isAnimating State.set_isAnimating State.isTimerRunning
       State.isSolved].
  destruct (negb running && solved);
    unfold animationDone, startTimer, applyRotation;
    cbn [State.currentPuzzle State.awaiting State.set_currentPuzzle
         State.set_awaiting State.set_isSolved State.set_moves
         State.set_timer State.set_isAnimating State.set_moveQueue
         State.isAnimating State.moveQueue State.moves State.isTimerRunning
         State.timerInterval State.isSolved State.isDragging State.dragStart
         State.selectedFace sus_axis sus_direction sus_cubiesInLayer
         sus_startRotation];
    rewrite Hrot, Euler_get_zero, Z.add_0_l; reflexivity.
Qed.

(** X11.  The [animate] flag changes when a turn takes effect, not what it
    does: in an idle session, an animated [rotate] followed by the end of
    its animation leaves exactly the state the same [rotate] without
    animation leaves at once (cube, counters, timer and flags). *)
Theorem X11_animation_does_not_change_the_outcome (n : Z) (s : State.t)
  (axis : string) (layer direction : Z) :
  session n s -> idle s ->
  animationDone (rotate s axis layer direction true) =
  rotate s axis layer direction false.
Proof.
  intros H Hidle. apply animated_turn_outcome; [exact Hidle |].
  apply session_well_formed in H. destruct H as [_ _ _ _ _ [ms ->]].
  now apply rotation_fold_turn.
Qed.

Lemma X11_animation_does_not_change_the_outcome_witness :
  animationDone (rotate (initial_state 3) "x" 1 (-1) true) =
  rotate (initial_state 3) "x" 1 (-1) false.
Proof.
  apply (X11_animation_does_not_change_the_outcome 3).
  - apply session_initial.
  - apply idle_initial_state.
Defined.

(** What a key does on a cube of size [n], whatever the state: nothing, or
    one animated turn whose direction Shift negates. *)
Lemma onKeyDown_cases (toUpperCase : string -> string)
  (puzzleType k : string) (n : Z) :
  (forall s shift,
      size (State.currentPuzzle s) = n ->
      onKeyDown toUpperCase puzzleType s (mkKey shift k) = s) \/
  exists axis layer sign,
    (axis = "x" \/ axis = "y" \/ axis = "z")%string /\
    (layer = 0 \/ layer = n - 1 \/ (layer = n / 2 /\ 3 <= n)) /\
    (sign = 1 \/ sign = -1) /\
    forall s shift,
      size (State.currentPuzzle s) = n ->
      onKeyDown toUpperCase puzzleType s (mkKey shift k) =
      rotate s axis layer (sign * (if shift then -1 else 1)) true.
Proof.
  unfold onKeyDown. cbn [key shiftKey].
  destruct (negb (puzzleType =? "cube")%string); [now left |].
  destruct (toUpperCase k =? "U")%string.
  { right. exists "y"%string, (n - 1), 1. repeat split; auto;
      intros s shift <-; f_equal; lia. }
  destruct (toUpperCase k =? "D")%string.
  { right. exists "y"%string, 0, (-1). repeat split; auto;
      intros s shift <-; f_equal; lia. }
  destruct (toUpperCase k =? "R")%string.
  { right. exists "x"%string, (n - 1), 1. repeat split; auto;
      intros s shift <-; f_equal; lia. }
  destruct (toUpperCase k =? "L")%string.
  { right. exists "x"%string, 0, (-1). repeat split; auto;
      intros s shift <-; f_equal; lia. }
  destruct (toUpperCase k =? "F")%string.
  { right. exists "z"%string, (n - 1), 1. repeat split; auto;
      intros s shift <-; f_equal; lia. }
  destruct (toUpperCase k =? "B")%string.
  { right. exists "z"%string, 0, (-1). repeat split; auto;
      intros s shift <-; f_equal; lia. }
  destruct (toUpperCase k =? "M")%string.
  { destruct (3 <=? n) eqn:E.
    - apply Z.leb_le in E. right. exists "x"%string, (n / 2), (-1).
      repeat split; auto;
        intros s shift Hs; rewrite Hs; apply Z.leb_le in E; rewrite E;
        f_equal; lia.
    - left. intros s shift Hs. rewrite Hs, E. reflexivity. }
  destruct (toUpperCase k =? "E")%string.
  { destruct (3 <=? n) eqn:E.
    - apply Z.leb_le in E. right. exists "y"%string, (n / 2), (-1).
      repeat split; auto;
        intros s shift Hs; rewrite Hs; apply Z.leb_le in E; rewrite E;
        f_equal; lia.
    - left. intros s shift Hs. rewrite Hs, E. reflexivity. }
  destruct (toUpperCase k =? "S")%string.
  { destruct (3 <=? n) eqn:E.
    - apply Z.leb_le in E. right. exists "z"%string, (n / 2), 1.
      repeat split; auto;
        intros s shift Hs; rewrite Hs; apply Z.leb_le in E; rewrite E;
        f_equal; lia.
    - left. intros s shift Hs. rewrite Hs, E. reflexivity. }
  now left.
Qed.

(** X12.  On a cube of size at least 1 a key press does nothing or issues
    exactly one animated turn, and that turn is always valid: its axis is
    x, y or z, its layer is a layer index of the cube, and its direction is
    +1 or -1. *)
Theorem X12_keys_issue_valid_turns (toUpperCase : string -> string)
  (puzzleType : string) (s : State.t) (event : KeyboardEvent) :
  1 <= size (State.currentPuzzle s) ->
  onKeyDown toUpperCase puzzleType s event = s \/
  exists axis layer direction,
    valid_turn (State.currentPuzzle s) axis layer /\
    (direction = 1 \/ direction = -1) /\
    onKeyDown toUpperCase puzzleType s event =
    rotate s axis layer direction true.
Proof.
  intros Hn. destruct event as [shift k].
  destruct (onKeyDown_cases toUpperCase puzzleType k
              (size (State.currentPuzzle s)))
    as [H | [axis [layer [sign [Ha [Hl [Hs H]]]]]]];
    [left; now apply H |].
  right. exists axis, layer, (sign * (if shift then -1 else 1)).
  split; [split; [exact Ha |] |].
  - destruct Hl as [-> | [-> | [-> H3]]]; try lia.
    split; [apply Z.div_pos; lia |].
    assert (size (State.currentPuzzle s) / 2 < size (State.currentPuzzle s))
      by (apply Z.div_lt; lia). lia.
  - split; [| now apply H]. destruct shift; lia.
Qed.

Lemma X12_keys_issue_valid_turns_witness :
  let s := initial_state 3 in
  let event := mkKey true "M" in
  onKeyDown (fun k => k) "cube" s event = s \/
  exists axis layer direction,
    valid_turn (State.currentPuzzle s) axis layer /\
    (direction = 1 \/ direction = -1) /\
    onKeyDown (fun k => k) "cube" s event =
    rotate s axis layer direction true.
Proof.
  apply (X12_keys_issue_valid_turns (fun k => k) "cube" (initial_state 3)).
  simpl. lia.
Defined.

(** X13.  Shift inverts a key: in an idle session on a cube of odd size up
    to 1000, pressing a key and then the same key with Shift held, each
    animation run to its end, brings every piece back to its grid
    position, orientation, materials and place. *)
Theorem X13_shift_undoes_a_key (n : Z) (toUpperCase : string -> string)
  (puzzleType : string) (s : State.t) (k : string) :
  session n s -> idle s -> Z.odd n = true -> n <= 1000 ->
  let press shift t :=
    animationDone (onKeyDown toUpperCase puzzleType t (mkKey shift k)) in
  Forall2 same_piece
    (cubies (State.currentPuzzle (press true (press false s))))
    (cubies (State.currentPuzzle s)).
Proof.
  intros H Hidle Hodd Hn press. subst press. cbv beta.
  destruct (session_grid_ok n s H Hodd (threshold_below_cubeSize n Hn))
    as [[Hgrid _] [Hsize [Hcs Hrot]]].
  assert (Hodd' : Z.odd (size (State.currentPuzzle s)) = true)
    by now rewrite Hsize.
  assert (Hcs' : (layer_threshold <= cubeSize (State.currentPuzzle s))%Q)
    by (rewrite Hcs; now apply threshold_below_cubeSize).
  assert (Hstill : animationDone s = s).
  { unfold animationDone. destruct Hidle as [_ [_ ->]]. reflexivity. }
  destruct (onKeyDown_cases toUpperCase puzzleType k n)
    as [E | [axis [layer [sign [_ [_ [_ E]]]]]]].
  - rewrite (E s false Hsize), Hstill, (E s true Hsize), Hstill.
    clear. induction (cubies (State.currentPuzzle s)); constructor;
      [repeat split; reflexivity | assumption].
  - rewrite (E s false Hsize).
    rewrite (animated_turn_outcome s axis layer _ Hidle Hrot).
    destruct (rotate_now_idle s (Move.mk axis layer (sign * 1)) Hidle)
      as [H1 [C1 _]].
    cbv zeta in H1, C1. cbn [Move.axis Move.layer Move.direction] in H1, C1.
    set (s1 := rotate s axis layer (sign * 1) false) in *.
    assert (Hsize1 : size (State.currentPuzzle s1) = n)
      by (rewrite C1; exact Hsize).
    assert (Hrot1 : rotationGroup_rotation (State.currentPuzzle s1) =
                    Euler.zero) by (rewrite C1; reflexivity).
    rewrite (E s1 true Hsize1).
    rewrite (animated_turn_outcome s1 axis layer _ H1 Hrot1).
    destruct (rotate_now_idle s1 (Move.mk axis layer (sign * -1)) H1)
      as [_ [C2 _]].
    cbv zeta in C2. cbn [Move.axis Move.layer Move.direction] in C2.
    rewrite C2, C1.
    eapply Forall2_same_piece_trans.
    + apply turn_twice; assumption.
    + apply turn_full; try assumption.
      cbn [Move.direction].
      now replace (sign * 1 + sign * -1) with 0 by lia.
Qed.

Lemma X13_shift_undoes_a_key_witness :
  let s := initial_state 3 in
  let press shift t :=
    animationDone (onKeyDown (fun k => k) "cube" t (mkKey shift "R")) in
  Forall2 same_piece
    (cubies (State.currentPuzzle (press true (press false s))))
    (cubies (State.currentPuzzle s)).
Proof.
  apply (X13_shift_undoes_a_key 3).
  - apply session_initial.
  - apply idle_initial_state.
  - reflexivity.
  - lia.
Defined.

(** ** What a turn leaves alone *)

Lemma nth_error_turn this m i c :
  rotationGroup_rotation this = Euler.zero ->
  nth_error (cubies this) i = Some c ->
  nth_error (cubies (turn this m)) i = Some (turn_piece this m c).
Proof.
  intros Hrot Hc. rewrite (turn_by_piece this m Hrot).
  cbn [cubies set_cubies]. rewrite nth_error_map, Hc. reflexivity.
Qed.

Lemma picked_iff this axis layer i :
  In i (getCubiesInLayer this axis layer) <->
  exists c, nth_error (cubies this) i = Some c /\
            inLayer this axis layer c = true.
Proof.
  unfold getCubiesInLayer. rewrite In_filter_indexes.
  rewrite Nat.sub_0_r. split.
  - intros [a [_ H]]. now exists a.
  - intros [a H]. exists a. split; [lia | exact H].
Qed.

(** X14.  A turn touches only its layer: in an idle session, a [rotate]
    without animation keeps the number of pieces, and every piece that
    [getCubiesInLayer] does not pick stays exactly as it was (position,
    orientation, materials, grid position). *)
Theorem X14_turn_touches_only_its_layer (n : Z) (s : State.t)
  (axis : string) (layer direction : Z) :
  session n s -> idle s ->
  let this := State.currentPuzzle s in
  let this' :=
    State.currentPuzzle (rotate s axis layer direction false) in
  List.length (cubies this') = List.length (cubies this) /\
  forall i c,
    nth_error (cubies this) i = Some c ->
    ~ In i (getCubiesInLayer this axis layer) ->
    nth_error (cubies this') i = Some c.
Proof.
  intros H Hidle this this'. subst this this'.
  assert (Hrot : rotationGroup_rotation (State.currentPuzzle s) = Euler.zero).
  { apply session_well_formed in H. destruct H as [_ _ _ _ _ [ms ->]].
    now apply rotation_fold_turn. }
  destruct (rotate_now_idle s (Move.mk axis layer direction) Hidle)
    as [_ [C _]].
  cbv zeta in C. cbn [Move.axis Move.layer Move.direction] in C. rewrite C.
  split.
  - rewrite (turn_by_piece _ _ Hrot). cbn [cubies set_cubies].
    apply length_map.
  - intros i c Hc Hout.
    rewrite (nth_error_turn _ _ i c Hrot Hc). f_equal.
    unfold turn_piece. cbn [Move.axis Move.layer Move.direction].
    destruct (inLayer (State.currentPuzzle s) axis layer c) eqn:E;
      [| reflexivity].
    exfalso. apply Hout. apply picked_iff. now exists c.
Qed.

Lemma X14_turn_touches_only_its_layer_witness :
  let s := initial_state 3 in
  let this := State.currentPuzzle s in
  let this' := State.currentPuzzle (rotate s "x" 0 1 false) in
  List.length (cubies this') = List.length (cubies this) /\
  forall i c,
    nth_error (cubies this) i = Some c ->
    ~ In i (getCubiesInLayer this "x" 0) ->
    nth_error (cubies this') i = Some c.
Proof.
  apply (X14_turn_touches_only_its_layer 3).
  - apply session_initial.
  - apply idle_initial_state.
Defined.

(** ** Cubes of even size *)

Lemma snapped_updateCubiePosition this c axis d :
  snapped this (updateCubiePosition this c axis d).
Proof.
  unfold snapped, updateCubiePosition.
  cbn [position Vector3.x Vector3.y Vector3.z].
  eexists _, _, _. repeat split; reflexivity.
Qed.

(** On a cube of even size the layers lie half a piece away from every
    whole multiple of the piece size. *)
Lemma off_layer_on_even_size (h j l : Z) (cs p : Q) :
  (2 * layer_threshold <= cs)%Q ->
  (p == inject_Z j * cs)%Q ->
  Qltb (Math_abs (p - (inject_Z l - offset_of (2 * h)) * cs))
       layer_threshold = false.
Proof.
  unfold layer_threshold, Math_abs, offset_of. intros Hcs Hp.
  apply Qltb_false.
  assert (E : (p - (inject_Z l - (inject_Z (2 * h) - 1) / 2) * cs ==
               (inject_Z (j - l + h) - (1 # 2)) * cs)%Q).
  { rewrite Hp. unfold Z.sub.
    rewrite !inject_Z_plus, inject_Z_opp, inject_Z_mult.
    change (inject_Z 2) with 2%Q. field. }
  rewrite E.
  destruct (Z.lt_ge_cases (j - l + h) 1) as [Hneg | Hpos].
  - assert (Hk : (inject_Z (j - l + h) <= 0)%Q).
    { change 0%Q with (inject_Z 0). rewrite <- Zle_Qle. lia. }
    apply Qabs_case; intros; nra.
  - assert (Hk : (1 <= inject_Z (j - l + h))%Q).
    { change 1%Q with (inject_Z 1). rewrite <- Zle_Qle. lia. }
    apply Qabs_case; intros; nra.
Qed.

Lemma snapped_never_picked this c axis layer :
  Z.even (size this) = true -> (2 * layer_threshold <= cubeSize this)%Q ->
  snapped this c -> inLayer this axis layer c = false.
Proof.
  intros Heven Hcs [jx [jy [jz [Hx [Hy Hz]]]]].
  assert (Hn : exists h, size this = 2 * h).
  { apply Zeven_bool_iff in Heven. now apply Zeven_ex_iff in Heven. }
  destruct Hn as [h Hn].
  unfold inLayer. rewrite Hn.
  destruct (axis =? "x")%string;
    [now apply (off_layer_on_even_size h jx) |].
  destruct (axis =? "y")%string;
    [now apply (off_layer_on_even_size h jy) |].
  destruct (axis =? "z")%string;
    [now apply (off_layer_on_even_size h jz) |].
  reflexivity.
Qed.

(** A piece that is snapped and sits on a cube of even size stays as it
    is through every sequence of turns. *)
Lemma snapped_stays (ms : list Move.t) : forall this i c,
  Z.even (size this) = true -> (2 * layer_threshold <= cubeSize this)%Q ->
  rotationGroup_rotation this = Euler.zero ->
  nth_error (cubies this) i = Some c -> snapped this c ->
  nth_error (cubies (fold_left turn ms this)) i = Some c.
Proof.
  induction ms as [| m ms IH]; intros this i c Heven Hcs Hrot Hc Hsnap;
    simpl; [exact Hc |].
  apply IH; try assumption; try reflexivity.
  rewrite (nth_error_turn this m i c Hrot Hc). f_equal.
  unfold turn_piece.
  now rewrite (snapped_never_picked this c _ _ Heven Hcs Hsnap).
Qed.

(** X15.  On a cube of even size whose pieces are at least four tolerances
    wide (every cube of even size up to 250) a piece that has been turned
    once is stuck, wherever the turn has put it: [updateCubiePosition]
    leaves it at whole multiples of the piece size, half a piece away from
    every layer, so through every later sequence of turns it stays exactly
    as that turn left it and no layer of any axis picks it again. *)
Theorem X15_even_cube_turned_piece_is_stuck (this : RubiksCube)
  (m : Move.t) (ms : list Move.t) (i : nat) :
  Z.even (size this) = true ->
  (4 * layer_threshold <= cubeSize this)%Q ->
  rotationGroup_rotation this = Euler.zero ->
  In i (getCubiesInLayer this (Move.axis m) (Move.layer m)) ->
  let after := fold_left turn ms (turn this m) in
  nth_error (cubies after) i = nth_error (cubies (turn this m)) i /\
  forall axis layer, ~ In i (getCubiesInLayer after axis layer).
Proof.
  intros Heven Hcs4 Hrot Hin after. subst after.
  assert (Hcs : (2 * layer_threshold <= cubeSize this)%Q).
  { unfold layer_threshold in *.
    apply Qle_trans with (4 * (1 # 100))%Q; [| exact Hcs4].
    unfold Qle. simpl. lia. }
  apply picked_iff in Hin. destruct Hin as [c [Hc Hpick]].
  pose proof (nth_error_turn this m i c Hrot Hc) as Hc'.
  assert (Hsnap : snapped (turn this m) (turn_piece this m c)).
  { unfold turn_piece. rewrite Hpick. unfold moveBack.
    apply (snapped_updateCubiePosition
             (applyRotation this (Move.axis m) (Move.direction m))). }
  pose proof (snapped_stays ms (turn this m) i _ Heven Hcs eq_refl
                Hc' Hsnap) as Hafter.
  split; [now rewrite Hafter, Hc' |].
  intros axis layer Hin. apply picked_iff in Hin.
  destruct Hin as [c2 [Hc2 Hpick2]].
  rewrite Hafter in Hc2. injection Hc2 as <-.
  destruct (size_fold_turn ms (turn this m)) as [Hsize2 Hcs2].
  rewrite (snapped_never_picked (fold_left turn ms (turn this m))) in Hpick2;
    [discriminate | | |].
  - now rewrite Hsize2.
  - now rewrite Hcs2.
  - unfold snapped in *. now rewrite Hcs2.
Qed.

Lemma X15_even_cube_turned_piece_is_stuck_witness :
  let this := new_RubiksCube 2 in
  let m := Move.mk "x" 0 1 in
  let after := fold_left turn [Move.mk "y" 0 1] (turn this m) in
  nth_error (cubies after) 0 = nth_error (cubies (turn this m)) 0 /\
  forall axis layer, ~ In 0%nat (getCubiesInLayer after axis layer).
Proof.
  apply (X15_even_cube_turned_piece_is_stuck (new_RubiksCube 2)
           (Move.mk "x" 0 1)).
  - reflexivity.
  - vm_compute. discriminate.
  - reflexivity.
  - vm_compute. auto.
Defined.

(** ** Animation frames *)

Lemma animation_progress_range (elapsed : Z) :
  0 <= elapsed ->
  (0 <= animation_progress elapsed)%Q /\ (animation_progress elapsed <= 1)%Q /\
  (200 <= elapsed -> (animation_progress elapsed == 1)%Q) /\
  (elapsed < 200 ->
   (animation_progress elapsed == inject_Z elapsed / 200)%Q /\
   (animation_progress elapsed < 1)%Q).
Proof.
  intros H0. unfold animation_progress, Math_min, animation_duration.
  assert (Hq : (0 <= inject_Z elapsed)%Q).
  { change 0%Q with (inject_Z 0). rewrite <- Zle_Qle. exact H0. }
  assert (Hdiv : (0 <= inject_Z elapsed / 200)%Q).
  { apply Qle_shift_div_l; lra. }
  destruct (Qle_bool (inject_Z elapsed / 200) 1) eqn:E.
  - apply Qle_bool_iff in E.
    split; [exact Hdiv |]. split; [exact E |]. split.
    + intros H. assert (Hq2 : (200 <= inject_Z elapsed)%Q).
      { change 200%Q with (inject_Z 200). rewrite <- Zle_Qle. exact H. }
      apply Qle_antisym; [exact E |].
      apply Qle_shift_div_l; lra.
    + intros H. split; [reflexivity |].
      assert (Hq2 : (inject_Z elapsed < 200)%Q).
      { change 200%Q with (inject_Z 200). rewrite <- Zlt_Qlt. exact H. }
      apply Qlt_shift_div_r; lra.
  - split; [lra |]. split; [lra |]. split; [reflexivity |].
    intros H. exfalso.
    assert (Hq2 : (inject_Z elapsed < 200)%Q).
    { change 200%Q with (inject_Z 200). rewrite <- Zlt_Qlt. exact H. }
    assert (Hle : (inject_Z elapsed / 200 <= 1)%Q).
    { apply Qle_shift_div_r; lra. }
    apply Qle_bool_iff in Hle. congruence.
Qed.

Lemma animation_progress_monotone (e1 e2 : Z) :
  0 <= e1 <= e2 ->
  (animation_progress e1 <= animation_progress e2)%Q.
Proof.
  intros [H0 H12].
  destruct (animation_progress_range e1 H0) as [_ [Hle1 [_ Hlow1]]].
  destruct (animation_progress_range e2 ltac:(lia)) as [_ [_ [Hhigh2 Hlow2]]].
  destruct (Z.lt_ge_cases e2 200) as [Hlt | Hge].
  - destruct (Hlow1 ltac:(lia)) as [-> _].
    destruct (Hlow2 Hlt) as [-> _].
    assert (Hq : (inject_Z e1 <= inject_Z e2)%Q)
      by (rewrite <- Zle_Qle; exact H12).
    apply Qle_shift_div_l; [lra |].
    setoid_replace (inject_Z e1 / 200 * 200)%Q with (inject_Z e1)
      by field. exact Hq.
  - rewrite (Hhigh2 Hge). exact Hle1.
Qed.

Lemma cube_Q (x : Q) : (x ^ 3 == x * x * x)%Q.
Proof. simpl. ring. Qed.

(** X16.  The frames of a turn's animation: for a clock that does not run
    backwards the eased fraction of the angle never decreases and stays
    between 0 and 1, the animation resolves exactly on the first frame at
    or after 200 ms, and that frame leaves the rotation group exactly at
    the start rotation plus the full angle. *)
Theorem X16_animation_ends_on_target (startRotation angle : Q)
  (e1 e2 : Z) :
  0 <= e1 <= e2 ->
  (0 <= animation_eased e1)%Q /\
  (animation_eased e1 <= animation_eased e2)%Q /\
  (animation_eased e2 <= 1)%Q /\
  (snd (animateStep startRotation angle e1) = true <-> 200 <= e1) /\
  (200 <= e1 ->
   (fst (animateStep startRotation angle e1) == startRotation + angle)%Q).
Proof.
  intros [H0 H12].
  pose proof (animation_progress_monotone e1 e2 (conj H0 H12)) as Hmono.
  destruct (animation_progress_range e1 H0) as [Ha1 [Hb1 [Hhigh1 Hlow1]]].
  destruct (animation_progress_range e2 ltac:(lia)) as [Ha2 [Hb2 _]].
  unfold animateStep, animation_eased. cbn [fst snd].
  rewrite !cube_Q.
  set (p1 := animation_progress e1) in *.
  set (p2 := animation_progress e2) in *.
  assert (Hsq1 : (0 <= (1 - p1) * (1 - p1))%Q) by nra.
  assert (Hsq2 : (0 <= (1 - p2) * (1 - p2))%Q) by nra.
  assert (Hsq : ((1 - p2) * (1 - p2) <= (1 - p1) * (1 - p1))%Q) by nra.
  split; [nra |]. split; [nra |]. split; [nra |]. split.
  - rewrite negb_true_iff, Qltb_false. split.
    + intros Hp. destruct (Z.lt_ge_cases e1 200) as [Hlt | Hge];
        [| exact Hge].
      destruct (Hlow1 Hlt) as [_ Hlt1]. lra.
    + intros Hge. rewrite (Hhigh1 Hge). lra.
  - intros Hge. rewrite (Hhigh1 Hge). ring.
Qed.

Lemma X16_animation_ends_on_target_witness :
  (0 <= animation_eased 100)%Q /\
  (animation_eased 100 <= animation_eased 216)%Q /\
  (animation_eased 216 <= 1)%Q /\
  (snd (animateStep 0 1 100) = true <-> 200 <= 100) /\
  (200 <= 100 -> (fst (animateStep 0 1 100) == 0 + 1)%Q).
Proof.
  apply (X16_animation_ends_on_target 0 1 100 216). lia.
Defined.

(** ** Timer display *)

Lemma padStart_two_digits_nat (k : nat) :
  (k < 100)%nat ->
  padStart 2 (Ascii.ascii_of_nat 48) (String_of (Z.of_nat k)) = two_digits k.
Proof.
  intros Hk.
  assert (Hall : forallb (fun k =>
             String.eqb (padStart 2 (Ascii.ascii_of_nat 48)
                                  (String_of (Z.of_nat k)))
                        (two_digits k)) (seq 0 100) = true)
    by (vm_compute; reflexivity).
  rewrite forallb_forall in Hall.
  apply String.eqb_eq. apply Hall. apply in_seq. lia.
Qed.

Lemma padStart_two_digits (k : Z) :
  0 <= k < 100 ->
  padStart 2 (Ascii.ascii_of_nat 48) (String_of k) = two_digits (Z.to_nat k).
Proof.
  intros Hk. rewrite <- (Z2Nat.id k) at 1 by lia.
  apply padStart_two_digits_nat. lia.
Qed.

Lemma digit_value_ascii (d : nat) :
  (d < 10)%nat -> digit_value (Ascii.ascii_of_nat (48 + d)) = Z.of_nat d.
Proof.
  intros Hd. unfold digit_value.
  rewrite Ascii.nat_ascii_embedding by lia. lia.
Qed.

Lemma value_two_digits (k : nat) :
  (k < 100)%nat ->
  10 * digit_value (Ascii.ascii_of_nat (48 + k / 10)) +
  digit_value (Ascii.ascii_of_nat (48 + k mod 10)) = Z.of_nat k.
Proof.
  intros Hk.
  assert (H1 : (k / 10 < 10)%nat) by (apply Nat.Div0.div_lt_upper_bound; lia).
  assert (H2 : (k mod 10 < 10)%nat) by (apply Nat.mod_upper_bound; lia).
  rewrite !digit_value_ascii by assumption.
  pose proof (Nat.div_mod_eq k 10). lia.
Qed.

(** X17.  For less than 100 minutes of elapsed time the timer shows eight
    characters [mm:ss.cc], and reading the three two-digit fields back as
    minutes, seconds and hundredths gives the elapsed time with the last
    digit of the milliseconds dropped. *)
Theorem X17_timer_display_reads_back (timer : Z) :
  0 <= timer < 6000000 ->
  String.length (timerDisplay timer) = 8%nat /\
  String.get 2 (timerDisplay timer) = Some (Ascii.ascii_of_nat 58) /\
  String.get 5 (timerDisplay timer) = Some (Ascii.ascii_of_nat 46) /\
  read_timerDisplay (timerDisplay timer) = Some (timer - timer mod 10).
Proof.
  intros Ht. unfold timerDisplay. cbv zeta.
  rewrite !Z.rem_mod_nonneg by
    (try lia; apply Z.div_pos; lia).
  assert (Hm : 0 <= timer / 60000 < 100).
  { split; [apply Z.div_pos; lia | apply Z.div_lt_upper_bound; lia]. }
  assert (Hs : 0 <= (timer / 1000) mod 60 < 100).
  { pose proof (Z.mod_pos_bound (timer / 1000) 60 ltac:(lia)). lia. }
  assert (Hc : 0 <= timer mod 1000 / 10 < 100).
  { pose proof (Z.mod_pos_bound timer 1000 ltac:(lia)).
    split; [apply Z.div_pos; lia | apply Z.div_lt_upper_bound; lia]. }
  rewrite (padStart_two_digits _ Hm), (padStart_two_digits _ Hs),
    (padStart_two_digits _ Hc).
  unfold two_digits, read_timerDisplay, field_value.
  cbn [String.append String.length String.get].
  repeat split.
  rewrite !value_two_digits by lia. f_equal.
  rewrite !Z2Nat.id by lia.
  pose proof (Z.div_mod timer 60000 ltac:(lia)).
  pose proof (Z.div_mod timer 1000 ltac:(lia)).
  pose proof (Z.div_mod (timer / 1000) 60 ltac:(lia)).
  pose proof (Z.div_mod (timer mod 1000) 10 ltac:(lia)).
  pose proof (Z.div_mod timer 10 ltac:(lia)).
  pose proof (Z.mod_pos_bound timer 10 ltac:(lia)).
  pose proof (Z.mod_pos_bound timer 1000 ltac:(lia)).
  pose proof (Z.mod_pos_bound timer 60000 ltac:(lia)).
  pose proof (Z.mod_pos_bound (timer / 1000) 60 ltac:(lia)).
  pose proof (Z.mod_pos_bound (timer mod 1000) 10 ltac:(lia)).
  lia.
Qed.

Lemma X17_timer_display_reads_back_witness :
  String.length (timerDisplay 83456) = 8%nat /\
  String.get 2 (timerDisplay 83456) = Some (Ascii.ascii_of_nat 58) /\
  String.get 5 (timerDisplay 83456) = Some (Ascii.ascii_of_nat 46) /\
  read_timerDisplay (timerDisplay 83456) = Some (83456 - 83456 mod 10).
Proof.
  apply (X17_timer_display_reads_back 83456). lia.
Defined.

(** ** Drags *)





Lemma Qgtb_opp_zero (d : Q) :
  ~ (d == 0)%Q -> Qgtb (- d) 0 = negb (Qgtb d 0).
Proof.
  intros Hd. unfold Qgtb.
  destruct (Qltb 0 d) eqn:E.
  - apply Qltb_true in E. simpl. apply Qltb_false. lra.
  - apply Qltb_false in E. simpl. apply Qltb_true.
    destruct (Qlt_le_dec d 0) as [Hlt | Hge]; [lra |].
    exfalso. apply Hd. lra.
Qed.

(** X19.  A drag in the opposite direction gives the opposite turn: when
    the drag exceeds the threshold of 30 pixels along x or along y,
    negating both of its components keeps the axis and the layer and
    negates the direction. *)
Theorem X19_opposite_drag_gives_opposite_turn (faceNormal : Vector3.t)
  (u : UserData.t) (dx dy : Q) :
  Qgtb (Math_abs dx) drag_threshold || Qgtb (Math_abs dy) drag_threshold
    = true ->
  dragTurn faceNormal u (- dx) (- dy) = opposite (dragTurn faceNormal u dx dy).
Proof.
  intros Hover.
  assert (Hcase :
    (Qgtb (Math_abs dx) (Math_abs dy) = true /\ ~ (dx == 0)%Q) \/
    (Qgtb (Math_abs dx) (Math_abs dy) = false /\ ~ (dy == 0)%Q)).
  { apply orb_true_iff in Hover.
    unfold Qgtb, Math_abs, drag_threshold in *.
    rewrite !Qltb_true in Hover.
    pose proof (Qabs_nonneg dx) as Hx0. pose proof (Qabs_nonneg dy) as Hy0.
    destruct (Qltb (Qabs dy) (Qabs dx)) eqn:E.
    - left. split; [reflexivity |]. apply Qltb_true in E.
      intros H0. assert (Hz : (Qabs dx == 0)%Q) by (now rewrite H0). lra.
    - right. split; [reflexivity |]. apply Qltb_false in E.
      intros H0. assert (Hz : (Qabs dy == 0)%Q) by (now rewrite H0). lra. }
  unfold dragTurn, opposite, sign_if, Math_abs.
  assert (Ex : (Qabs (- dx) == Qabs dx)%Q) by apply Qabs_opp.
  assert (Ey : (Qabs (- dy) == Qabs dy)%Q) by apply Qabs_opp.
  assert (Eh : Qgtb (Qabs (- dx)) (Qabs (- dy)) = Qgtb (Qabs dx) (Qabs dy)).
  { unfold Qgtb, Qltb. f_equal.
    destruct (Qle_bool (Qabs dx) (Qabs dy)) eqn:E.
    - apply Qle_bool_iff. apply Qle_bool_iff in E. lra.
    - destruct (Qle_bool (Qabs (- dx)) (Qabs (- dy))) eqn:E'; [| reflexivity].
      apply Qle_bool_iff in E'.
      assert (E2 : (Qabs dx <= Qabs dy)%Q) by lra.
      apply Qle_bool_iff in E2. congruence. }
  rewrite Eh. unfold Math_abs in Hcase.
  destruct Hcase as [[Hh Hnz] | [Hh Hnz]]; rewrite Hh;
    rewrite (Qgtb_opp_zero _ Hnz);
    destruct (Qgtb (Qabs (Vector3.y faceNormal)) (1 # 2));
    [| destruct (Qgtb (Qabs (Vector3.x faceNormal)) (1 # 2)) | |
       destruct (Qgtb (Qabs (Vector3.x faceNormal)) (1 # 2))];
    cbn [Move.axis Move.layer Move.direction];
    destruct (Qltb _ 0), (Qgtb _ 0); reflexivity.
Qed.

Lemma X19_opposite_drag_gives_opposite_turn_witness :
  dragTurn (Vector3.mk 0 1 0) (UserData.mk 1 2 0 1 2 0) (- (40)) (- (5)) =
  opposite (dragTurn (Vector3.mk 0 1 0) (UserData.mk 1 2 0 1 2 0) 40 5).
Proof.
  apply (X19_opposite_drag_gives_opposite_turn
           (Vector3.mk 0 1 0) (UserData.mk 1 2 0 1 2 0) 40 5).
  reflexivity.
Defined.

(** ** Input handlers *)

Lemma currentPuzzle_rotate_animated_flag s axis layer direction :
  State.currentPuzzle (rotate s axis layer direction true) =
  State.currentPuzzle s.
Proof.
  unfold rotate. destruct (State.isAnimating s); [reflexivity |].
  apply currentPuzzle_rotate_animated.
Qed.

(** X20.  No input handler moves a piece itself: a key press, a pointer
    press, a pointer move and a pointer release leave the cube exactly as
    it is, whatever the state; the turns they issue take effect only when
    an animation ends. *)
Theorem X20_input_never_moves_a_piece_at_once
  (toUpperCase : string -> string) (puzzleType : string) (s : State.t)
  (keyEvent : KeyboardEvent) (event : MouseEvent)
  (intersects : list Intersection) :
  State.currentPuzzle (onKeyDown toUpperCase puzzleType s keyEvent) =
    State.currentPuzzle s /\
  State.currentPuzzle (onMouseDown s event intersects) =
    State.currentPuzzle s /\
  State.currentPuzzle (onMouseMove s event) = State.currentPuzzle s /\
  State.currentPuzzle (onMouseUp s) = State.currentPuzzle s.
Proof.
  split; [| split; [| split]].
  - destruct keyEvent as [shift k].
    destruct (onKeyDown_cases toUpperCase puzzleType k
                (size (State.currentPuzzle s)))
      as [E | [axis [layer [sign [_ [_ [_ E]]]]]]];
      rewrite E by reflexivity; [reflexivity |].
    apply currentPuzzle_rotate_animated_flag.
  - unfold onMouseDown. destruct (negb _); [reflexivity |].
    destruct intersects; reflexivity.
  - unfold onMouseMove.
    destruct (State.isDragging s); [| reflexivity].
    destruct (State.selectedFace s) as [hit |]; [| reflexivity].
    destruct (State.dragStart s) as [start |]; [| reflexivity].
    cbv zeta. destruct (_ || _); [| reflexivity].
    destruct (nth_error _ _); [| reflexivity].
    cbn [State.currentPuzzle State.set_drag].
    apply currentPuzzle_rotate_animated_flag.
  - reflexivity.
Qed.

(** ** The move counter and the queue *)

(** X21.  The move counter counts a turn when it starts, not when it is
    requested: requests issued while a turn is in progress leave the
    counter as it is, and each end of an animation that takes a waiting
    turn from the queue adds one. *)
Theorem X21_moves_are_counted_when_they_start
  (s : State.t) (m0 : Move.t) (rs : list Request) (k : nat) :
  in_progress s m0 ->
  let s2 := fold_left issue rs s in
  let waiting := State.moveQueue s ++ map fst rs in
  (k <= S (List.length waiting))%nat ->
  State.moves s2 = State.moves s /\
  State.moves (Nat.iter k animationDone s2) =
  State.moves s + Z.of_nat (Nat.min k (List.length waiting)).
Proof.
  intros Hp s2 waiting Hk. subst s2 waiting.
  pose proof Hp as [Hanim _].
  rewrite issue_all_while_animating by exact Hanim.
  split; [reflexivity |].
  destruct (drain (State.moveQueue s ++ map fst rs)
              (State.set_moveQueue (State.moveQueue s ++ map fst rs) s)
              m0 k (in_progress_set_moveQueue s m0 _ Hp) eq_refl Hk)
    as [_ [_ [Hm _]]].
  exact Hm.
Qed.

Lemma X21_moves_are_counted_when_they_start_witness :
  let s := rotate (initial_state 3) "x" 0 1 true in
  let rs := [(Move.mk "y" 0 1, true); (Move.mk "z" 2 (-1), false)] in
  let s2 := fold_left issue rs s in
  State.moves s2 = State.moves s /\
  State.moves (Nat.iter 2 animationDone s2) =
  State.moves s + Z.of_nat (Nat.min 2 (List.length ([] ++ map fst rs))).
Proof.
  apply (X21_moves_are_counted_when_they_start
           (rotate (initial_state 3) "x" 0 1 true) (Move.mk "x" 0 1)
           [(Move.mk "y" 0 1, true); (Move.mk "z" 2 (-1), false)] 2).
  - repeat split.
  - simpl. lia.
Defined.

Lemma scramble_as_requests random s moves :
  scramble random s moves =
  State.set_moves 0
    (State.set_isSolved false
       (fold_left issue
          (map (fun m => (m, false))
               (scramble_calls random (size (State.currentPuzzle s)) moves))
          s)).
Proof.
  unfold scramble. cbv zeta. do 2 f_equal.
  generalize (scramble_calls random (size (State.currentPuzzle s)) moves).
  intros calls. revert s.
  induction calls as [| m calls IH]; intros s; simpl; [reflexivity |].
  apply IH.
Qed.

(** X22.  A scramble called while a turn is in progress moves no piece at
    once: all of its turns wait in the queue behind the turns already
    waiting, and the counter it has set to 0 then counts every waiting
    turn as the animations end; when the last has ended the cube has had
    the turn in progress, the turns that waited and the turns of the
    scramble, in this order. *)
Theorem X22_scramble_during_a_turn_is_queued (random : nat -> Q)
  (s : State.t) (m0 : Move.t) (moves : option Z) :
  in_progress s m0 ->
  let this := State.currentPuzzle s in
  let waiting :=
    State.moveQueue s ++ scramble_calls random (size this) moves in
  let s2 := scramble random s moves in
  let s3 := Nat.iter (S (List.length waiting)) animationDone s2 in
  State.currentPuzzle s2 = this /\
  State.moveQueue s2 = waiting /\
  State.moves s2 = 0 /\
  idle s3 /\
  State.currentPuzzle s3 = fold_left turn (m0 :: waiting) this /\
  State.moves s3 = Z.of_nat (List.length waiting).
Proof.
  intros Hp this waiting s2 s3. subst this waiting s2 s3.
  pose proof Hp as [Hanim _].
  rewrite scramble_as_requests.
  rewrite issue_all_while_animating by exact Hanim.
  rewrite map_map. cbn [fst]. rewrite map_id.
  set (waiting := State.moveQueue s ++ scramble_calls random _ moves).
  set (s2 := State.set_moves 0 _).
  assert (Hp2 : in_progress s2 m0) by exact Hp.
  split; [reflexivity |]. split; [reflexivity |]. split; [reflexivity |].
  destruct (drain waiting s2 m0 (S (List.length waiting)) Hp2 eq_refl
              (le_n _)) as [Hc [_ [Hm [_ Hidle]]]].
  cbv zeta in Hc, Hm, Hidle.
  split; [now apply Hidle |]. split.
  - rewrite Hc. rewrite firstn_all2 by (simpl; lia). reflexivity.
  - rewrite Hm. subst s2. cbn [State.moves State.set_moves]. lia.
Qed.

Lemma X22_scramble_during_a_turn_is_queued_witness :
  let random (k : nat) : Q := (1 # 2)%Q in
  let s := rotate (initial_state 3) "x" 0 1 true in
  let this := State.currentPuzzle s in
  let waiting :=
    State.moveQueue s ++ scramble_calls random (size this) (Some 2) in
  let s2 := scramble random s (Some 2) in
  let s3 := Nat.iter (S (List.length waiting)) animationDone s2 in
  State.currentPuzzle s2 = this /\
  State.moveQueue s2 = waiting /\
  State.moves s2 = 0 /\
  idle s3 /\
  State.currentPuzzle s3 = fold_left turn (Move.mk "x" 0 1 :: waiting) this /\
  State.moves s3 = Z.of_nat (List.length waiting).
Proof.
  apply (X22_scramble_during_a_turn_is_queued
           (fun _ => (1 # 2)%Q) (rotate (initial_state 3) "x" 0 1 true)
           (Move.mk "x" 0 1) (Some 2)).
  repeat split.
Defined.

(** ** Undoing a turn on a solved cube *)

Lemma collect_same_piece (a b : RubiksCube) test d :
  Forall2 same_piece (cubies a) (cubies b) ->
  collect a test d = collect b test d.
Proof.
  unfold collect. intros H.
  induction H as [| c1 c2 l1 l2 [Hu [Hq [Hm _]]] _ IH]; [reflexivity |].
  simpl. rewrite Hu. destruct (test (userData c2)); [| exact IH].
  simpl. rewrite IH. f_equal. unfold getFaceColor. now rewrite Hq, Hm.
Qed.

Lemma isSolved_same_piece (a b : RubiksCube) :
  size a = size b -> Forall2 same_piece (cubies a) (cubies b) ->
  isSolved a = isSolved b.
Proof.
  intros Hsize H. unfold isSolved. cbv zeta. rewrite Hsize.
  now rewrite !(collect_same_piece a b) by exact H.
Qed.

(** What the solved check at the end of an unanimated turn leaves. *)
Lemma rotate_now_solved s m :
  idle s ->
  let s' := rotate s (Move.axis m) (Move.layer m) (Move.direction m) false in
  isSolved (State.currentPuzzle s') = true ->
  State.isSolved s' = true /\ State.isTimerRunning s' = false.
Proof.
  intros Hidle s'.
  destruct (rotate_now_idle s m Hidle) as [_ [Hc _]]. fold s' in Hc.
  intros Hsolved. subst s'. revert Hsolved.
  destruct Hidle as [Hanim [Hq Haw]]. unfold rotate. rewrite Hanim.
  pose proof (moveQueue_rotate_begin s (Move.axis m) (Move.layer m)
                (Move.direction m)) as Hqueue.
  destruct (rotate_begin s _ _ _) as [s1 sel].
  cbn [fst] in Hqueue. rewrite Hq in Hqueue.
  rewrite rotate_end_empty_queue by exact Hqueue. cbv zeta.
  cbn [State.currentPuzzle State.set_currentPuzzle].
  set (this' := set_rotation Euler.zero _).
  destruct (isSolved this') eqn:E.
  - intros _. split; reflexivity.
  - cbn [State.currentPuzzle State.set_currentPuzzle State.set_isAnimating].
    rewrite E. discriminate.
Qed.

(** X23.  Undoing a turn on a solved cube solves it again: in an idle
    session on a cube of odd size up to 1000 for which [isSolved()] holds,
    a turn followed by the opposite turn, both without animation, leaves a
    cube for which [isSolved()] holds, with the solved flag set and the
    timer stopped. *)
Theorem X23_undo_on_a_solved_cube_stops_the_timer (n : Z) (s : State.t)
  (m : Move.t) :
  session n s -> idle s -> Z.odd n = true -> n <= 1000 ->
  isSolved (State.currentPuzzle s) = true ->
  let s1 := rotate s (Move.axis m) (Move.layer m) (Move.direction m) false in
  let s2 := rotate s1 (Move.axis (opposite m)) (Move.layer (opposite m))
                   (Move.direction (opposite m)) false in
  isSolved (State.currentPuzzle s2) = true /\
  State.isSolved s2 = true /\ State.isTimerRunning s2 = false /\
  State.moves s2 = State.moves s + 2.
Proof.
  intros H Hidle Hodd Hn Hsolved s1 s2.
  destruct (session_grid_ok n s H Hodd (threshold_below_cubeSize n Hn))
    as [[Hgrid _] [Hsize [Hcs Hrot]]].
  assert (Hodd' : Z.odd (size (State.currentPuzzle s)) = true)
    by now rewrite Hsize.
  assert (Hcs' : (layer_threshold <= cubeSize (State.currentPuzzle s))%Q)
    by (rewrite Hcs; now apply threshold_below_cubeSize).
  destruct (rotate_now_idle s m Hidle) as [H1 [C1 M1]]. fold s1 in H1, C1, M1.
  destruct (rotate_now_idle s1 (opposite m) H1) as [_ [C2 M2]].
  fold s2 in C2, M2.
  assert (Hback : Forall2 same_piece (cubies (State.currentPuzzle s2))
                          (cubies (State.currentPuzzle s))).
  { rewrite C2, C1. destruct m as [axis layer d]. unfold opposite.
    cbn [Move.axis Move.layer Move.direction].
    eapply Forall2_same_piece_trans.
    - apply turn_twice; assumption.
    - apply turn_full; try assumption.
      cbn [Move.direction]. now replace (d + - d) with 0 by lia. }
  assert (Hs2 : isSolved (State.currentPuzzle s2) = true).
  { rewrite <- Hsolved. apply isSolved_same_piece; [| exact Hback].
    rewrite C2, C1. reflexivity. }
  split; [exact Hs2 |].
  destruct (rotate_now_solved s1 (opposite m) H1 Hs2) as [F T].
  fold s2 in F, T. split; [exact F |]. split; [exact T |]. lia.
Qed.

Lemma X23_undo_on_a_solved_cube_stops_the_timer_witness :
  let s := initial_state 3 in
  let m := Move.mk "y" 2 1 in
  let s1 := rotate s (Move.axis m) (Move.layer m) (Move.direction m) false in
  let s2 := rotate s1 (Move.axis (opposite m)) (Move.layer (opposite m))
                   (Move.direction (opposite m)) false in
  isSolved (State.currentPuzzle s2) = true /\
  State.isSolved s2 = true /\ State.isTimerRunning s2 = false /\
  State.moves s2 = State.moves s + 2.
Proof.
  apply (X23_undo_on_a_solved_cube_stops_the_timer 3).
  - apply session_initial.
  - apply idle_initial_state.
  - reflexivity.
  - lia.
  - apply (isSolved_createCube _ (cubeSize (new_RubiksCube 3))). reflexivity.
Defined.

(** ** The number of pieces *)

Lemma list_sum_constant {A : Type} (g : A -> nat) (b : nat) (l : list A) :
  (forall x, In x l -> g x = b) ->
  list_sum (map g l) = (List.length l * b)%nat.
Proof.
  induction l as [| a l IH]; intros H; simpl; [reflexivity |].
  rewrite (H a) by now left. rewrite IH; [reflexivity |].
  intros x Hx. apply H. now right.
Qed.

Lemma list_sum_cons_eq (a : nat) (l : list nat) :
  list_sum (a :: l) = (a + list_sum l)%nat.
Proof. reflexivity. Qed.

(** A sum over the layer indexes of a cube whose terms take one value on
    the two outer layers and another on the inner ones. *)
Lemma sum_outer_inner (n : Z) (g : Z -> nat) (a b : nat) :
  2 <= n ->
  (forall x, 0 <= x < n ->
             g x = if (x =? 0) || (x =? n - 1) then a else b) ->
  list_sum (map g (range n)) = (2 * a + Z.to_nat (n - 2) * b)%nat.
Proof.
  intros Hn Hg. unfold range.
  assert (E : Z.to_nat n = S (S (Z.to_nat (n - 2)))) by lia.
  rewrite E. set (k := Z.to_nat (n - 2)) in *.
  rewrite seq_S. cbn [seq]. rewrite <- seq_shift.
  rewrite !map_app, list_sum_app. cbn [map].
  rewrite !list_sum_cons_eq, !map_map. cbn [list_sum fold_right].
  rewrite (list_sum_constant _ b).
  - rewrite length_seq.
    rewrite (Hg (Z.of_nat 0)) by lia.
    rewrite (Hg (Z.of_nat (0 + S k))) by lia.
    replace (Z.of_nat 0 =? 0) with true by reflexivity.
    replace (Z.of_nat (0 + S k) =? n - 1) with true
      by (symmetry; apply Z.eqb_eq; lia).
    rewrite orb_true_r. cbn [orb]. lia.
  - intros x Hx. apply in_seq in Hx. rewrite Hg by lia.
    replace (Z.of_nat (S x) =? 0) with false
      by (symmetry; apply Z.eqb_neq; lia).
    replace (Z.of_nat (S x) =? n - 1) with false
      by (symmetry; apply Z.eqb_neq; lia).
    reflexivity.
Qed.

Lemma length_createCube (n : Z) (cs : Q) :
  2 <= n ->
  Z.of_nat (List.length (createCube n cs)) = n ^ 3 - (n - 2) ^ 3.
Proof.
  intros Hn. unfold createCube. cbv zeta.
  rewrite length_flat_map.
  rewrite (sum_outer_inner n _ (Z.to_nat (n * n))
             (Z.to_nat (4 * n - 4)) Hn).
  - nia.
  - intros x Hx. rewrite length_flat_map.
    destruct ((x =? 0) || (x =? n - 1)) eqn:Ex.
    + rewrite (sum_outer_inner n _ (Z.to_nat n) (Z.to_nat n) Hn); [nia |].
      intros y Hy. rewrite length_flat_map.
      rewrite (sum_outer_inner n _ 1%nat 1%nat Hn);
        [destruct ((y =? 0) || (y =? n - 1)); lia |].
      intros z Hz. unfold on_surface. rewrite Ex. cbn [orb].
      destruct ((z =? 0) || (z =? n - 1)); reflexivity.
    + rewrite (sum_outer_inner n _ (Z.to_nat n) 2%nat Hn); [nia |].
      intros y Hy. rewrite length_flat_map.
      destruct ((y =? 0) || (y =? n - 1)) eqn:Ey.
      * rewrite (sum_outer_inner n _ 1%nat 1%nat Hn); [lia |].
        intros z Hz. unfold on_surface.
        rewrite Ex. cbn [orb]. rewrite Ey. cbn [orb].
        destruct ((z =? 0) || (z =? n - 1)); reflexivity.
      * rewrite (sum_outer_inner n _ 1%nat 0%nat Hn); [lia |].
        intros z Hz. unfold on_surface.
        rewrite Ex. cbn [orb]. rewrite Ey. cbn [orb].
        destruct ((z =? 0) || (z =? n - 1)); reflexivity.
Qed.

(** X24.  A cube of size N >= 2 has N^3 - (N-2)^3 pieces, when it is made
    and after every [reset]: 8 for the 2x2x2, 26 for the 3x3x3. *)
Theorem X24_number_of_pieces (N : Z) (s : State.t) :
  2 <= N ->
  Z.of_nat (List.length (cubies (new_RubiksCube N))) = N ^ 3 - (N - 2) ^ 3 /\
  (size (State.currentPuzzle s) = N ->
   Z.of_nat (List.length (cubies (State.currentPuzzle (reset s)))) =
   N ^ 3 - (N - 2) ^ 3).
Proof.
  intros Hn. split.
  - rewrite cubies_new_RubiksCube. now apply length_createCube.
  - intros <-. unfold reset, resetTimer, stopTimer.
    cbn [State.currentPuzzle State.set_currentPuzzle State.set_awaiting
         State.set_isSolved State.set_moves State.set_timer cubies
         set_cubies].
    now apply length_createCube.
Qed.

Lemma X24_number_of_pieces_witness :
  Z.of_nat (List.length (cubies (new_RubiksCube 3))) = 3 ^ 3 - (3 - 2) ^ 3 /\
  (size (State.currentPuzzle (initial_state 3)) = 3 ->
   Z.of_nat (List.length
               (cubies (State.currentPuzzle (reset (initial_state 3))))) =
   3 ^ 3 - (3 - 2) ^ 3).
Proof.
  apply (X24_number_of_pieces 3 (initial_state 3)). lia.
Defined.

(** ** The pieces always fill the surface *)

Lemma turned_position_surface (h : Z) (m : Move.t) (g : Z * Z * Z) :
  surface_position (2 * h + 1) g ->
  surface_position (2 * h + 1) (turned_position (2 * h + 1) m g).
Proof.
  unfold turned_position. destruct (in_grid_layer m g); [| auto].
  destruct g as [[x y] z]. unfold surface_position, spec_rotate_grid.
  rewrite half_of_odd. unfold on_surface.
  rewrite !orb_true_iff, !Z.eqb_eq. intros [Hr Hs].
  destruct (quarter_cases (Move.direction m))
    as [[-> ->] | [[-> ->] | [[-> ->] | [-> ->]]]];
    (destruct (Move.axis m =? "x")%string;
     [| destruct (Move.axis m =? "y")%string;
        [| destruct (Move.axis m =? "z")%string]]);
    rewrite !orb_true_iff, !Z.eqb_eq; lia.
Qed.

Lemma turned_position_opposite n m g :
  turned_position n (opposite m) (turned_position n m g) = g /\
  turned_position n m (turned_position n (opposite m) g) = g.
Proof.
  assert (L : forall g, in_grid_layer (opposite m) g = in_grid_layer m g)
    by reflexivity.
  unfold turned_position. rewrite !L. cbn [opposite Move.axis Move.direction].
  split.
  - destruct (in_grid_layer m g) eqn:E.
    + rewrite in_grid_layer_rotate_grid, E, spec_rotate_grid_add.
      apply spec_rotate_grid_zero.
      now replace (Move.direction m + - Move.direction m) with 0 by lia.
    + now rewrite E.
  - destruct (in_grid_layer m g) eqn:E.
    + pose proof (in_grid_layer_rotate_grid n (opposite m) g) as E'.
      rewrite !L in E'. cbn [opposite Move.axis Move.direction] in E'.
      rewrite E', E, spec_rotate_grid_add.
      apply spec_rotate_grid_zero.
      now replace (- Move.direction m + Move.direction m) with 0 by lia.
    + now rewrite E.
Qed.

Lemma gridPosition_turn this m (h : Z) :
  size this = 2 * h + 1 -> (layer_threshold <= cubeSize this)%Q ->
  rotationGroup_rotation this = Euler.zero ->
  Forall (on_grid this) (cubies this) ->
  map gridPosition (cubies (turn this m)) =
  map (turned_position (size this) m) (map gridPosition (cubies this)).
Proof.
  intros Hn Hcs Hrot Hgrid. rewrite (turn_by_piece this m Hrot).
  cbn [cubies set_cubies]. rewrite !map_map. apply map_ext_in.
  intros c Hc. rewrite Forall_forall in Hgrid.
  apply (turn_piece_on_grid this m c h Hn Hcs Hrot (Hgrid c Hc)).
Qed.

Lemma fills_surface_new_RubiksCube (n : Z) : fills_surface (new_RubiksCube n).
Proof.
  intros [[x y] z]. rewrite cubies_new_RubiksCube, in_map_iff.
  cbn [size new_RubiksCube]. unfold surface_position. split.
  - intros [c [Hg Hc]]. apply in_createCube in Hc.
    destruct Hc as [x0 [y0 [z0 [Hr [Hs ->]]]]].
    rewrite gridPosition_createCubie in Hg. injection Hg as <- <- <-.
    split; assumption.
  - intros [Hr Hs].
    exists (createCubie n (cubeSize (new_RubiksCube n)) x y z (offset_of n)).
    split; [apply gridPosition_createCubie |].
    apply in_createCube. exists x, y, z. auto.
Qed.

Lemma fills_surface_turn this m :
  Z.odd (size this) = true -> (layer_threshold <= cubeSize this)%Q ->
  rotationGroup_rotation this = Euler.zero ->
  Forall (on_grid this) (cubies this) ->
  fills_surface this -> fills_surface (turn this m).
Proof.
  intros Hodd Hcs Hrot Hgrid Hfill.
  assert (Hn : exists h, size this = 2 * h + 1).
  { apply Zodd_bool_iff in Hodd. now apply Zodd_ex_iff in Hodd. }
  destruct Hn as [h Hn].
  intros g. rewrite (gridPosition_turn this m h Hn Hcs Hrot Hgrid).
  change (size (turn this m)) with (size this).
  destruct (turned_position_opposite (size this) m g) as [_ Hinv].
  rewrite in_map_iff. split.
  - intros [g0 [<- Hg0]]. apply Hfill in Hg0. rewrite Hn in *.
    now apply turned_position_surface.
  - intros Hs. exists (turned_position (size this) (opposite m) g).
    split; [exact Hinv |]. apply Hfill. rewrite Hn in *.
    now apply turned_position_surface.
Qed.

Lemma fills_surface_fold_turn (ms : list Move.t) (this : RubiksCube) :
  Z.odd (size this) = true -> (layer_threshold <= cubeSize this)%Q ->
  rotationGroup_rotation this = Euler.zero ->
  grid_ok this -> fills_surface this ->
  fills_surface (fold_left turn ms this).
Proof.
  revert this.
  induction ms as [| m ms IH]; intros this Hodd Hcs Hrot Hok Hfill;
    simpl; [exact Hfill |].
  apply IH; try assumption; try reflexivity.
  - now apply turn_keeps_grid.
  - apply fills_surface_turn; try assumption. apply Hok.
Qed.

(** X25.  In a session on a cube of odd size up to 1000 the pieces always
    fill the surface of the grid: at every moment a grid position is
    occupied exactly when all its coordinates lie in [0, N-1] and at least
    one of them is 0 or N-1, and it is occupied by one piece only. *)
Theorem X25_pieces_always_fill_the_surface (n : Z) (s : State.t) :
  session n s -> Z.odd n = true -> n <= 1000 ->
  let pieces := cubies (State.currentPuzzle s) in
  NoDup (map gridPosition pieces) /\
  forall x y z,
    In (x, y, z) (map gridPosition pieces) <->
    (0 <= x < n /\ 0 <= y < n /\ 0 <= z < n) /\ on_surface n x y z = true.
Proof.
  intros H Hodd Hn pieces. subst pieces.
  destruct (session_grid_ok n s H Hodd (threshold_below_cubeSize n Hn))
    as [[_ [_ Hnodup]] [Hsize _]].
  split; [exact Hnodup |].
  apply session_well_formed in H. destruct H as [_ _ _ _ _ [ms Hms]].
  assert (Hfill : fills_surface (State.currentPuzzle s)).
  { rewrite Hms. apply fills_surface_fold_turn; auto.
    - now apply threshold_below_cubeSize.
    - apply grid_ok_new_RubiksCube.
    - apply fills_surface_new_RubiksCube. }
  intros x y z. specialize (Hfill (x, y, z)). rewrite Hsize in Hfill.
  exact Hfill.
Qed.

Lemma X25_pieces_always_fill_the_surface_witness :
  let s := rotate (rotate (initial_state 3) "x" 2 1 false) "y" 0 (-1) false in
  let pieces := cubies (State.currentPuzzle s) in
  NoDup (map gridPosition pieces) /\
  forall x y z,
    In (x, y, z) (map gridPosition pieces) <->
    (0 <= x < 3 /\ 0 <= y < 3 /\ 0 <= z < 3) /\ on_surface 3 x y z = true.
Proof.
  apply (X25_pieces_always_fill_the_surface 3).
  - apply session_rotate. apply session_rotate. apply session_initial.
  - reflexivity.
  - lia.
Defined.

(** ** Layers *)

Lemma two_layers_apart (l1 l2 : Z) (o cs p : Q) :
  (2 * layer_threshold <= cs)%Q ->
  Qltb (Math_abs (p - (inject_Z l1 - o) * cs)) layer_threshold = true ->
  Qltb (Math_abs (p - (inject_Z l2 - o) * cs)) layer_threshold = true ->
  l1 = l2.
Proof.
  unfold layer_threshold, Math_abs. intros Hcs H1 H2.
  apply Qltb_true in H1, H2.
  destruct (Z.eq_dec l1 l2) as [E | Hne]; [exact E | exfalso].
  assert (Hd : (inject_Z l1 - inject_Z l2 <= -1)%Q \/
               (1 <= inject_Z l1 - inject_Z l2)%Q).
  { destruct (Z.lt_ge_cases l1 l2) as [Hlt | Hge].
    - left. assert (Hq : (inject_Z l1 + 1 <= inject_Z l2)%Q).
      { change 1%Q with (inject_Z 1). rewrite <- inject_Z_plus, <- Zle_Qle.
        lia. }
      lra.
    - right. assert (Hq : (inject_Z l2 + 1 <= inject_Z l1)%Q).
      { change 1%Q with (inject_Z 1). rewrite <- inject_Z_plus, <- Zle_Qle.
        lia. }
      lra. }
  revert H1 H2.
  apply Qabs_case; intros Ha H1; apply Qabs_case; intros Hb H2;
    destruct Hd; nra.
Qed.

(** X26.  No piece is ever in two layers of one axis: on every cube whose
    pieces are at least four tolerances wide (every cube up to size 250),
    whatever the positions of its pieces, a piece that [getCubiesInLayer]
    picks for two layer indexes of the same axis is picked for one index
    only. *)
Theorem X26_layers_of_an_axis_are_disjoint (this : RubiksCube)
  (axis : string) (layer1 layer2 : Z) (i : nat) :
  (4 * layer_threshold <= cubeSize this)%Q ->
  In i (getCubiesInLayer this axis layer1) ->
  In i (getCubiesInLayer this axis layer2) ->
  layer1 = layer2.
Proof.
  intros Hcs4 H1 H2.
  assert (Hcs : (2 * layer_threshold <= cubeSize this)%Q).
  { unfold layer_threshold in *.
    apply Qle_trans with (4 * (1 # 100))%Q; [| exact Hcs4].
    unfold Qle. simpl. lia. }
  apply picked_iff in H1, H2.
  destruct H1 as [c [Hc H1]]. destruct H2 as [c2 [Hc2 H2]].
  rewrite Hc in Hc2. injection Hc2 as <-.
  unfold inLayer in H1, H2.
  destruct (axis =? "x")%string;
    [exact (two_layers_apart _ _ _ _ _ Hcs H1 H2) |].
  destruct (axis =? "y")%string;
    [exact (two_layers_apart _ _ _ _ _ Hcs H1 H2) |].
  destruct (axis =? "z")%string;
    [exact (two_layers_apart _ _ _ _ _ Hcs H1 H2) |].
  discriminate.
Qed.

Lemma X26_layers_of_an_axis_are_disjoint_witness :
  (4 * layer_threshold <= cubeSize (new_RubiksCube 3))%Q /\
  In 0%nat (getCubiesInLayer (new_RubiksCube 3) "x" 0) /\
  0 = 0.
Proof.
  assert (Hcs : (4 * layer_threshold <= cubeSize (new_RubiksCube 3))%Q)
    by (vm_compute; discriminate).
  assert (Hin : In 0%nat (getCubiesInLayer (new_RubiksCube 3) "x" 0))
    by (vm_compute; auto).
  split; [exact Hcs |]. split; [exact Hin |].
  exact (X26_layers_of_an_axis_are_disjoint (new_RubiksCube 3) "x" 0 0 0
           Hcs Hin Hin).
Defined.

(** ** Scramble and reset on an idle session *)

(** X27.  A scramble called when nothing is in progress, with draws of
    [Math.random] in [0, 1) on a cube of size at least 1: it generates
    exactly the requested number of turns (max(20, 5 * size) when none is
    given, none for a count of 0 or less), each with axis x, y or z, a
    layer index of the cube and direction +1 or -1; all are applied to
    the cube at once, in order; and it leaves the session idle with the
    move counter at 0 and the solved flag unset. *)
Theorem X27_scramble_when_idle (random : nat -> Q) (s : State.t)
  (moves : option Z) :
  idle s ->
  (forall k, (0 <= random k)%Q /\ (random k < 1)%Q) ->
  1 <= size (State.currentPuzzle s) ->
  let this := State.currentPuzzle s in
  let calls := scramble_calls random (size this) moves in
  let s' := scramble random s moves in
  List.length calls =
    Z.to_nat (match moves with
              | None => Z.max 20 (size this * 5)
              | Some count => count
              end) /\
  Forall (fun m => valid_turn this (Move.axis m) (Move.layer m) /\
                   (Move.direction m = 1 \/ Move.direction m = -1)) calls /\
  State.currentPuzzle s' = fold_left turn calls this /\
  idle s' /\ State.moves s' = 0 /\ State.isSolved s' = false.
Proof.
  intros Hidle Hrandom Hsize this calls s'. subst this calls s'.
  split; [| split].
  - unfold scramble_calls, Math_max. rewrite length_map, length_seq.
    destruct moves; reflexivity.
  - apply Forall_forall. intros m Hm. unfold scramble_calls in Hm.
    apply in_map_iff in Hm. destruct Hm as [i [<- _]].
    destruct (scramble_move_valid random (size (State.currentPuzzle s)) i
                Hrandom ltac:(lia)) as [Ha [Hl Hd]].
    cbv zeta in Ha, Hl, Hd. unfold valid_turn.
    split; [split; [| exact Hl] |].
    + unfold scramble_axes in Ha. cbn [In] in Ha.
      destruct Ha as [<- | [<- | [<- | []]]]; auto.
    + unfold scramble_directions in Hd. cbn [In] in Hd.
      destruct Hd as [<- | [<- | []]]; auto.
  - destruct (scramble_idle random s moves Hidle) as [Hi [Hm [Hs Hc]]].
    cbv zeta in Hi, Hm, Hs, Hc. auto.
Qed.

Lemma X27_scramble_when_idle_witness :
  let random (k : nat) : Q := (1 # 3)%Q in
  let s := initial_state 3 in
  let this := State.currentPuzzle s in
  let calls := scramble_calls random (size this) None in
  let s' := scramble random s None in
  List.length calls = Z.to_nat (Z.max 20 (size this * 5)) /\
  Forall (fun m => valid_turn this (Move.axis m) (Move.layer m) /\
                   (Move.direction m = 1 \/ Move.direction m = -1)) calls /\
  State.currentPuzzle s' = fold_left turn calls this /\
  idle s' /\ State.moves s' = 0 /\ State.isSolved s' = false.
Proof.
  apply (X27_scramble_when_idle (fun _ => (1 # 3)%Q) (initial_state 3) None).
  - apply idle_initial_state.
  - intros k. split; [unfold Qle | unfold Qlt]; simpl; lia.
  - simpl. lia.
Defined.

(** X28.  A reset when nothing is in progress restores the session to its
    start: in an idle state of a session on a cube of size [n], [reset]
    leaves exactly the initial state of that size (the cube as constructed,
    counter 0, solved flag set, timer stopped, empty queue), apart from the
    fields of a drag, which it does not touch. *)
Theorem X28_reset_when_idle_restores_the_start (n : Z) (s : State.t) :
  session n s -> idle s ->
  reset s =
  State.set_drag (State.isDragging s) (State.selectedFace s)
    (State.set_dragStart (State.dragStart s) (initial_state n)).
Proof.
  intros H [Hanim [Hq Haw]].
  apply session_well_formed in H. destruct H as [_ _ _ _ _ [ms Hms]].
  destruct (size_fold_turn ms (new_RubiksCube n)) as [Hsize Hcs].
  pose proof (rotation_fold_turn ms (new_RubiksCube n) eq_refl) as Hrot.
  rewrite <- Hms in Hsize, Hcs, Hrot.
  destruct s as [cube anim queue moves running interval solved dragging
                   dragStart face aw].
  cbn [State.isAnimating State.currentPuzzle State.awaiting State.moveQueue]
    in *. subst anim aw queue.
  unfold reset, resetTimer, stopTimer, initial_state.
  cbn [State.currentPuzzle State.awaiting State.set_currentPuzzle
       State.set_awaiting State.set_isSolved State.set_moves State.set_timer
       State.set_drag State.set_dragStart option_map
       State.isAnimating State.moveQueue State.moves State.isTimerRunning
       State.timerInterval State.isSolved State.isDragging State.dragStart
       State.selectedFace].
  f_equal. destruct cube as [sz cs pieces rot].
  cbn [size cubeSize cubies rotationGroup_rotation] in *.
  unfold set_cubies. cbn [size cubeSize cubies rotationGroup_rotation].
  subst sz cs rot. reflexivity.
Qed.

Lemma X28_reset_when_idle_restores_the_start_witness :
  let s := rotate (initial_state 3) "x" 0 1 false in
  reset s =
  State.set_drag (State.isDragging s) (State.selectedFace s)
    (State.set_dragStart (State.dragStart s) (initial_state 3)).
Proof.
  apply (X28_reset_when_idle_restores_the_start 3).
  - apply session_rotate. apply session_initial.
  - apply (rotate_now_idle (initial_state 3) (Move.mk "x" 0 1)).
    apply idle_initial_state.
Defined.
